(** * The explain function: content generators and fault-tolerant persistence

    A shallow embedding of [supabase/functions/explain/index.ts]: the
    keyword-based fallback generator [generateFallbackResponse], the
    model-backed generator [callLLM] and the request handler passed to
    [serve], together with the properties of the layered fallbacks.

    Conventions.
    - JavaScript strings are modelled as [string]; the code's own literals are
      ASCII, and a character outside ASCII is neither a word character of the
      regular expressions nor equal to a keyword letter, whatever its encoding.
    - Values whose shape the code does not check at run time (what
      [JSON.parse] returns, what the store hands back) are [JSValue]s.
    - Calls that leave the program ([Deno.env.get], [fetch], [JSON.parse],
      the Supabase client) are answered by an explicit [Platform] record. *)

From Stdlib Require Import Bool List Ascii String ZArith QArith NArith Lia.
From Stdlib Require Import DecimalString DecimalZ FinFun.
Import ListNotations.

Set Warnings "-register-all".

Open Scope list_scope.
Open Scope bool_scope.
Open Scope string_scope.

(** ** Strings *)

(** The line feed that a template literal carries at each line break. *)
Definition nl : string := String (ascii_of_nat 10) EmptyString.

(** The double quote, spelled by its code. *)
Definition dq : string := String (ascii_of_nat 34) EmptyString.

(** Number-to-string conversion of a template literal, for the integers the
    code prints (array indices, HTTP statuses). *)
Definition string_of_Z (z : Z) : string := NilEmpty.string_of_int (Z.to_int z).

Definition string_of_nat (n : nat) : string := string_of_Z (Z.of_nat n).

(** [s.includes(sub)]. *)
Fixpoint includes (s sub : string) : bool :=
  prefix sub s ||
  match s with
  | EmptyString => false
  | String _ s' => includes s' sub
  end.

(** [s.replace(pat, by)] with a string pattern: the first occurrence only. *)
Fixpoint replace (s pat by_ : string) : string :=
  if prefix pat s then by_ ++ substring (length pat) (length s - length pat) s
  else match s with
       | EmptyString => EmptyString
       | String c s' => String c (replace s' pat by_)
       end.

(** ** The regular expressions of the fallback generator

    The three tests have the form [/\b(k1|k2|...)\b/i.test(code)] with
    keywords made of letters. Without the [u] flag, [\w] is
    [[A-Za-z0-9_]] and case folding relates an ASCII letter to ASCII letters
    only. *)

Definition in_range (lo hi n : N) : bool := (lo <=? n)%N && (n <=? hi)%N.

Definition is_word_char (c : ascii) : bool :=
  let n := N_of_ascii c in
  in_range 65 90 n || in_range 97 122 n || in_range 48 57 n || (n =? 95)%N.

(** Canonicalize of the [i] flag: the upper-case form of the character. *)
Definition canonicalize (c : ascii) : ascii :=
  let n := N_of_ascii c in
  if in_range 97 122 n then ascii_of_N (n - 32) else c.

(** [\b] between a character and the rest of the input: exactly one side is
    a word character; the two ends of the input count as non-word. *)
Definition word_boundary (prev_is_word : bool) (rest : string) : bool :=
  xorb prev_is_word
       match rest with
       | EmptyString => false
       | String c _ => is_word_char c
       end.

(** Matches the literal [kw] at the head of [s] up to case; returns whether
    the last character consumed is a word character, and the rest. *)
Fixpoint match_literal (kw : string) (prev_is_word : bool) (s : string)
  : option (bool * string) :=
  match kw with
  | EmptyString => Some (prev_is_word, s)
  | String k kw' =>
      match s with
      | EmptyString => None
      | String c s' =>
          if Ascii.eqb (canonicalize k) (canonicalize c)
          then match_literal kw' (is_word_char c) s'
          else None
      end
  end.

(** [\b(k1|k2|...)\b] anchored at the head of [s]. *)
Definition match_here (kws : list string) (prev_is_word : bool) (s : string) : bool :=
  word_boundary prev_is_word s &&
  existsb (fun kw =>
             match match_literal kw prev_is_word s with
             | Some (last_is_word, rest) => word_boundary last_is_word rest
             | None => false
             end) kws.

(** The search of [RegExp.prototype.test]: every start position in turn. *)
Fixpoint test_from (kws : list string) (prev_is_word : bool) (s : string) : bool :=
  match_here kws prev_is_word s ||
  match s with
  | EmptyString => false
  | String c s' => test_from kws (is_word_char c) s'
  end.

Definition regex_test (kws : list string) (s : string) : bool :=
  test_from kws false s.

(** ** JavaScript values *)

(** The values that JSON text denotes, and [undefined]. Finite numbers are
    rationals. *)
Inductive JSValue : Type :=
| JUndefined
| JNull
| JBool (b : bool)
| JNum (q : Q)
| JStr (s : string)
| JArr (items : list JSValue)
| JObj (fields : list (string * JSValue)).

(** What a [throw] carries: an [Error] object, by name and message (the
    built-ins, [fetch] and the Supabase client throw nothing else). None of
    them has a [requestBody] property. *)
Record JSError : Type := mkError { err_name : string; err_message : string }.

Definition TypeError (msg : string) : JSError := mkError "TypeError" msg.
Definition SyntaxError (msg : string) : JSError := mkError "SyntaxError" msg.
Definition Error (msg : string) : JSError := mkError "Error" msg.

(** The outcome of evaluating an expression that may throw. *)
Inductive Exc (A : Type) : Type :=
| Returned (a : A)
| Threw (e : JSError).
Arguments Returned {A} a.
Arguments Threw {A} e.

Fixpoint assoc (k : string) (fields : list (string * JSValue)) : JSValue :=
  match fields with
  | [] => JUndefined
  | (k', v) :: rest => if String.eqb k k' then v else assoc k rest
  end.

(** [v.k] for a property name [k] that no built-in prototype defines (every
    name the code reads is such a name): a [TypeError] on [undefined] and
    [null], the own property of an object, [undefined] otherwise. *)
Definition get_prop (v : JSValue) (k : string) : Exc JSValue :=
  match v with
  | JUndefined => Threw (TypeError ("Cannot read properties of undefined (reading '" ++ k ++ "')"))
  | JNull => Threw (TypeError ("Cannot read properties of null (reading '" ++ k ++ "')"))
  | JObj fields => Returned (assoc k fields)
  | _ => Returned JUndefined
  end.

(** [v[0]]: the first element of an array, the first character of a string,
    the property ["0"] of an object. *)
Definition get_index0 (v : JSValue) : Exc JSValue :=
  match v with
  | JUndefined => Threw (TypeError "Cannot read properties of undefined (reading '0')")
  | JNull => Threw (TypeError "Cannot read properties of null (reading '0')")
  | JArr items => Returned (nth 0 items JUndefined)
  | JStr (String c _) => Returned (JStr (String c EmptyString))
  | JObj fields => Returned (assoc "0" fields)
  | _ => Returned JUndefined
  end.

(** ** The content bundle *)

Record TraceStep : Type := mkStep {
  line : Q;
  vars : list (string * JSValue)
}.

Record Trace : Type := mkTrace {
  input : string;
  steps : list TraceStep
}.

Record Quiz : Type := mkQuiz {
  question : string;
  choices : list string;
  answer : string;
  hint : string;
  difficulty : string
}.

Record LLMResponse : Type := mkLLMResponse {
  explanation : string;
  mermaid : string;
  trace : Trace;
  quizzes : list Quiz
}.

(** ** generateFallbackResponse *)

Definition hasLoops (code : string) : bool :=
  regex_test ["for"; "while"; "do"] code.

Definition hasConditionals (code : string) : bool :=
  regex_test ["if"; "else"; "switch"; "case"] code.

Definition hasFunctions (code : string) : bool :=
  regex_test ["function"; "def"; "func"] code.

(** [if (c) explanation += clause]. *)
Definition extend (c : bool) (clause : string) (explanation : string) : string :=
  if c then explanation ++ clause else explanation.

(** The base sentence and the clauses of each register. *)
Definition base_12 (language : string) : string :=
  "This " ++ language ++ " code is like following a recipe! It takes some information (ingredients) and follows step-by-step instructions to create a result. The computer reads each line and does what it says, just like you would follow cooking instructions.".
Definition loops_12 : string :=
  " Some steps say 'repeat this part until something happens' - that's like stirring until the mixture is smooth.".
Definition conditionals_12 : string :=
  " Other steps say 'if this, then do that' - like checking if the cake is done before taking it out.".

Definition base_15 (language : string) : string :=
  "This " ++ language ++ " code demonstrates fundamental programming concepts. It processes input data through a series of logical operations to produce a desired output.".
Definition loops_15 : string :=
  " It uses loops to repeat certain operations efficiently.".
Definition conditionals_15 : string :=
  " Conditional statements help the program make decisions based on different scenarios.".
Definition functions_15 : string :=
  " Functions help organize the code into reusable blocks.".

Definition base_pro (language : string) : string :=
  "This " ++ language ++ " code implements a computational algorithm using standard programming constructs. The implementation follows best practices for readability and maintainability.".
Definition loops_pro : string :=
  " Iterative constructs handle repetitive operations with appropriate termination conditions.".
Definition conditionals_pro : string :=
  " Conditional logic enables branching behavior based on runtime evaluation.".
Definition functions_pro : string :=
  " Modular function design promotes code reusability and separation of concerns.".

(** The four diagram templates. *)
Definition diagram_loop_branch : string :=
  "graph TD" ++ nl ++
  "    A[Start] --> B[Initialize Variables]" ++ nl ++
  "    B --> C[Loop Condition]" ++ nl ++
  "    C -->|True| D{Check Condition}" ++ nl ++
  "    D -->|Met| E[Execute Action A]" ++ nl ++
  "    D -->|Not Met| F[Execute Action B]" ++ nl ++
  "    E --> G[Update Variables]" ++ nl ++
  "    F --> G" ++ nl ++
  "    G --> C" ++ nl ++
  "    C -->|False| H[End]".

Definition diagram_loop : string :=
  "graph TD" ++ nl ++
  "    A[Start] --> B[Initialize Counter]" ++ nl ++
  "    B --> C[Check Loop Condition]" ++ nl ++
  "    C -->|True| D[Execute Loop Body]" ++ nl ++
  "    D --> E[Update Counter]" ++ nl ++
  "    E --> C" ++ nl ++
  "    C -->|False| F[End]".

Definition diagram_branch : string :=
  "graph TD" ++ nl ++
  "    A[Start] --> B[Check Condition]" ++ nl ++
  "    B -->|True| C[Execute Branch A]" ++ nl ++
  "    B -->|False| D[Execute Branch B]" ++ nl ++
  "    C --> E[End]" ++ nl ++
  "    D --> E".

Definition diagram_straight : string :=
  "graph TD" ++ nl ++
  "    A[Start] --> B[Process Input]" ++ nl ++
  "    B --> C[Apply Logic]" ++ nl ++
  "    C --> D[Generate Output]" ++ nl ++
  "    D --> E[End]".

Definition generateFallbackResponse (code language readingLevel : string) : LLMResponse :=
  let hasLoops := hasLoops code in
  let hasConditionals := hasConditionals code in
  let hasFunctions := hasFunctions code in
  let explanation :=
    if String.eqb readingLevel "12" then
      extend hasConditionals conditionals_12
        (extend hasLoops loops_12 (base_12 language))
    else if String.eqb readingLevel "15" then
      extend hasFunctions functions_15
        (extend hasConditionals conditionals_15
           (extend hasLoops loops_15 (base_15 language)))
    else
      extend hasFunctions functions_pro
        (extend hasConditionals conditionals_pro
           (extend hasLoops loops_pro (base_pro language))) in
  let mermaidDiagram :=
    if hasLoops && hasConditionals then diagram_loop_branch
    else if hasLoops then diagram_loop
    else if hasConditionals then diagram_branch
    else diagram_straight in
  {| explanation := explanation;
     mermaid := mermaidDiagram;
     trace :=
       {| input := "sample_input";
          steps :=
            [ {| line := 1; vars := [("input", JStr "sample_input")] |};
              {| line := 2; vars := [("input", JStr "sample_input");
                                     ("processed", JBool true)] |} ] |};
     quizzes :=
       [ {| question := "What is the main purpose of this code?";
            choices := ["Process data according to specific logic";
                        "Create a user interface";
                        "Manage database connections";
                        "Handle file operations"];
            answer := "Process data according to specific logic";
            hint := "Look at the overall structure and operations performed";
            difficulty := "easy" |};
         {| question := "Which programming concept is most evident in this code?";
            choices :=
              if hasLoops then
                ["Loops for repetition"; "Database operations";
                 "Network requests"; "Graphics rendering"]
              else if hasConditionals then
                ["Conditional logic"; "File handling";
                 "Memory management"; "Thread synchronization"]
              else
                ["Sequential processing"; "Parallel computing";
                 "Distributed systems"; "Machine learning"];
            answer :=
              if hasLoops then "Loops for repetition"
              else if hasConditionals then "Conditional logic"
              else "Sequential processing";
            hint := "Think about the fundamental programming constructs used";
            difficulty := "medium" |};
         {| question := "What should you consider before running this code?";
            choices := ["Input requirements and expected format";
                        "Internet connection speed";
                        "Screen resolution";
                        "Audio settings"];
            answer := "Input requirements and expected format";
            hint := "Consider what the code needs to work properly";
            difficulty := "easy" |} ] |}.

(** ** Bundles as JavaScript values

    [callLLM] is declared to return an [LLMResponse], but what it returns on
    the model path is whatever [JSON.parse] produced; the handler reads it
    property by property. The typed bundles are therefore embedded in
    [JSValue]. *)

Definition js_of_strings (l : list string) : JSValue := JArr (map JStr l).

Definition js_of_quiz (q : Quiz) : JSValue :=
  JObj [("question", JStr (question q));
        ("choices", js_of_strings (choices q));
        ("answer", JStr (answer q));
        ("hint", JStr (hint q));
        ("difficulty", JStr (difficulty q))].

Definition js_of_step (s : TraceStep) : JSValue :=
  JObj [("line", JNum (line s)); ("vars", JObj (vars s))].

Definition js_of_trace (t : Trace) : JSValue :=
  JObj [("input", JStr (input t)); ("steps", JArr (map js_of_step (steps t)))].

Definition js_of_response (r : LLMResponse) : JSValue :=
  JObj [("explanation", JStr (explanation r));
        ("mermaid", JStr (mermaid r));
        ("trace", js_of_trace (trace r));
        ("quizzes", JArr (map js_of_quiz (quizzes r)))].

(** Truthiness, as [!v] and [v || d] read it. *)
Definition truthy (v : JSValue) : bool :=
  match v with
  | JUndefined | JNull => false
  | JBool b => b
  | JNum q => negb (Qeq_bool q 0)
  | JStr s => negb (String.eqb s "")
  | JArr _ | JObj _ => true
  end.

(** An optional string ([string | undefined], or [string | null]) as a value. *)
Definition js_of_option (o : option string) : JSValue :=
  match o with
  | Some s => JStr s
  | None => JUndefined
  end.

Definition truthy_string (o : option string) : bool := truthy (js_of_option o).

(** [o || d] on optional strings. *)
Definition or_default (o : option string) (d : string) : string :=
  match o with
  | Some s => if String.eqb s "" then d else s
  | None => d
  end.

(** ** Effects: a store, a console, exceptions *)

(** A row of a table: its columns. *)
Definition Row : Type := list (string * JSValue).

Inductive Table : Type := snippets | quizzes_table.

Definition table_name (t : Table) : string :=
  match t with
  | snippets => "snippets"
  | quizzes_table => "quizzes"
  end.

Inductive Operation : Type :=
| Update (patch : Row)
| Insert (rows : list Row)
| Delete.

(** A query assembled by the client's builder:
    [supabase.from(table).<op>(...).eq(c1, v1)...[.select()][.single()]]. *)
Record Query : Type := mkQuery {
  q_from : Table;
  q_op : Operation;
  q_eq : list (string * JSValue);
  q_select : bool;
  q_single : bool
}.

(** What awaiting a query resolves to: [{ data, error }]. *)
Record QueryResult : Type := mkResult {
  data : JSValue;
  error : option JSError
}.

Record Store : Type := mkStore {
  snippet_rows : list Row;
  quiz_rows : list Row;
  next_id : nat
}.

(** One [console.error] call: its label and the error object logged, if any. *)
Definition LogEntry : Type := (string * option JSError)%type.

Record State : Type := mkState {
  store : Store;
  issued : list (Query * Exc QueryResult);
  console : list LogEntry
}.

(** Computations that read and write the state and may throw. The state at
    the throw is kept: what was written before it stays written. *)
Definition M (A : Type) : Type := State -> Exc A * State.

Definition ret {A} (a : A) : M A := fun st => (Returned a, st).

Definition throw {A} (e : JSError) : M A := fun st => (Threw e, st).

Definition bind {A B} (m : M A) (k : A -> M B) : M B :=
  fun st =>
    match m st with
    | (Returned a, st') => k a st'
    | (Threw e, st') => (Threw e, st')
    end.

(** [try { m } catch (e) { handler e }]. *)
Definition try_catch {A} (m : M A) (handler : JSError -> M A) : M A :=
  fun st =>
    match m st with
    | (Returned a, st') => (Returned a, st')
    | (Threw e, st') => handler e st'
    end.

Definition lift {A} (x : Exc A) : M A := fun st => (x, st).

Declare Scope js_scope.
Delimit Scope js_scope with js.
Notation "x <- m ;; k" := (bind m (fun x => k))
  (at level 61, m at next level, right associativity) : js_scope.
Notation "m ;;; k" := (bind m (fun _ => k))
  (at level 61, right associativity) : js_scope.

Definition console_error (label : string) (e : option JSError) : M unit :=
  fun st => (Returned tt,
             {| store := store st; issued := issued st;
                console := (console st ++ [(label, e)])%list |}).

(** Binding inside [Exc], for expressions that read properties. *)
Definition ebind {A B} (x : Exc A) (k : A -> Exc B) : Exc B :=
  match x with
  | Returned a => k a
  | Threw e => Threw e
  end.

Notation "x <-? m ;; k" := (ebind m (fun x => k))
  (at level 61, m at next level, right associativity) : js_scope.

Open Scope js_scope.

(** ** The platform

    Everything the function reaches outside itself. *)

Record FetchInit : Type := mkInit {
  init_method : string;
  init_headers : list (string * string);
  init_body : JSValue   (* the value handed to [JSON.stringify] *)
}.

(** A response of [fetch]: [ok], [status], and what [response.json()]
    resolves to (it rejects when the body is not JSON text). *)
Record HttpResponse : Type := mkHttpResponse {
  ok : bool;
  http_status : Z;
  json : Exc JSValue
}.

(** How the store treats a query: it carries it out, it answers with an
    [error], or the call rejects; in the last two cases no row changes. *)
Inductive Fault : Type :=
| Works
| Fails (e : JSError)
| Rejects (e : JSError).

Record Platform : Type := mkPlatform {
  (** [Deno.env.get] *)
  env_get : string -> option string;
  (** the constant imported from [../_shared/cors.ts] *)
  corsHeaders : list (string * string);
  (** [fetch(url, init)]; [Threw] is a rejected promise *)
  fetch : string -> FetchInit -> Exc HttpResponse;
  (** [JSON.parse(text)], on the value it is given *)
  JSON_parse : JSValue -> Exc JSValue;
  (** [createClient(url, key)] of the Supabase client library *)
  createClient : option string -> option string -> Exc unit;
  (** [supabase.auth.getUser(token)]: the user's id, or [None] when the
      result carries an error or no user *)
  getUser : string -> Exc (option string);
  (** the store's health, query by query *)
  store_fault : Query -> Fault;
  (** the identifiers the store gives to inserted rows *)
  new_id : nat -> string
}.

(** ** The store

    The two tables live in the Supabase service, outside the program. The
    model keeps what the handler relies on: [update] and [delete] act on the
    rows that the [eq] filters select, [insert] adds the rows it is given
    and the store names them, [select] makes the answer carry the rows
    written, and [single] turns an answer of other than exactly one row into
    an error that undoes the statement. The client is created with the
    service-role key, so the store applies no row-level policy of its own:
    a query touches exactly the rows its filters select. *)

Definition scalar_eqb (a b : JSValue) : bool :=
  match a, b with
  | JStr x, JStr y => String.eqb x y
  | JNum x, JNum y => Qeq_bool x y
  | JBool x, JBool y => Bool.eqb x y
  | _, _ => false
  end.

Definition matches (filters : list (string * JSValue)) (row : Row) : bool :=
  forallb (fun f => scalar_eqb (assoc (fst f) row) (snd f)) filters.

Fixpoint set_col (c : string) (v : JSValue) (row : Row) : Row :=
  match row with
  | [] => [(c, v)]
  | (c', v') :: rest =>
      if String.eqb c c' then (c, v) :: rest else (c', v') :: set_col c v rest
  end.

(** A column whose value is [undefined] is absent from the request body. *)
Definition apply_patch (patch : Row) (row : Row) : Row :=
  fold_left (fun r cv =>
               match snd cv with
               | JUndefined => r
               | v => set_col (fst cv) v r
               end) patch row.

Definition rows_of (t : Table) (s : Store) : list Row :=
  match t with
  | snippets => snippet_rows s
  | quizzes_table => quiz_rows s
  end.

Definition with_rows (t : Table) (rows : list Row) (s : Store) : Store :=
  match t with
  | snippets => {| snippet_rows := rows; quiz_rows := quiz_rows s; next_id := next_id s |}
  | quizzes_table => {| snippet_rows := snippet_rows s; quiz_rows := rows; next_id := next_id s |}
  end.

(** Inserted rows get their [id] from the store. *)
Fixpoint create_rows (new_id : nat -> string) (n : nat) (rows : list Row) : list Row :=
  match rows with
  | [] => []
  | r :: rest =>
      (("id", JStr (new_id n)) :: apply_patch r []) :: create_rows new_id (S n) rest
  end.

Definition not_singular : JSError :=
  mkError "PGRST116" "JSON object requested, multiple (or no) rows returned".

(** The answer for the rows a statement touched. With [.single()] the
    statement stands only if it touched exactly one row. *)
Definition finish (q : Query) (touched : list Row) (after before : Store)
  : QueryResult * Store :=
  if q_single q then
    match touched with
    | [r] => ({| data := if q_select q then JObj r else JNull; error := None |}, after)
    | _ => ({| data := JNull; error := Some not_singular |}, before)
    end
  else
    ({| data := if q_select q then JArr (map JObj touched) else JNull;
        error := None |}, after).

Definition execute (new_id : nat -> string) (q : Query) (s : Store)
  : QueryResult * Store :=
  let rows := rows_of (q_from q) s in
  match q_op q with
  | Update patch =>
      let touched := map (apply_patch patch) (filter (matches (q_eq q)) rows) in
      let rows' := map (fun r => if matches (q_eq q) r then apply_patch patch r else r) rows in
      finish q touched (with_rows (q_from q) rows' s) s
  | Insert new_rows =>
      let created := create_rows new_id (next_id s) new_rows in
      let s' := with_rows (q_from q) (rows ++ created)%list s in
      finish q created
             {| snippet_rows := snippet_rows s'; quiz_rows := quiz_rows s';
                next_id := next_id s + List.length new_rows |} s
  | Delete =>
      let touched := filter (matches (q_eq q)) rows in
      let rows' := filter (fun r => negb (matches (q_eq q) r)) rows in
      finish q touched (with_rows (q_from q) rows' s) s
  end.

(** Awaiting a query. Every query issued is recorded with its outcome. *)
Definition run (P : Platform) (q : Query) : M QueryResult :=
  fun st =>
    let record (o : Exc QueryResult) (s : Store) :=
      (o, {| store := s; issued := (issued st ++ [(q, o)])%list; console := console st |}) in
    match store_fault P q with
    | Works => let (r, s') := execute (new_id P) q (store st) in record (Returned r) s'
    | Fails e => record (Returned {| data := JNull; error := Some e |}) (store st)
    | Rejects e => record (Threw e) (store st)
    end.

(** ** callLLM *)

(** The bundle returned when no API key is configured. *)
Definition mock_response (language : string) : LLMResponse :=
  {| explanation :=
       "This " ++ language ++ " code demonstrates key programming concepts. It uses variables to store data and control structures to manage program flow. The logic is structured to handle the main use case efficiently.";
     mermaid :=
       "graph TD" ++ nl ++ "    A[Start] --> B[Process Input]" ++ nl ++
       "    B --> C[Apply Logic]" ++ nl ++ "    C --> D[Generate Output]" ++ nl ++
       "    D --> E[End]";
     trace :=
       {| input := "sample input";
          steps :=
            [ {| line := 1; vars := [("x", JNum 1); ("y", JNum 2)] |};
              {| line := 2; vars := [("x", JNum 1); ("y", JNum 2);
                                     ("result", JNum 3)] |} ] |};
     quizzes :=
       [ {| question := "What is the main purpose of this code?";
            choices := ["Process data"; "Create UI"; "Manage files"; "Handle network"];
            answer := "Process data";
            hint := "Look at the main operations";
            difficulty := "easy" |};
         {| question := "Which concept is most important here?";
            choices := ["Variables"; "Networks"; "Graphics"; "Audio"];
            answer := "Variables";
            hint := "Think about data storage";
            difficulty := "medium" |};
         {| question := "What would this code output with input 'test'?";
            choices := ["test"; "TEST"; "error"; "null"];
            answer := "test";
            hint := "Trace through the logic";
            difficulty := "hard" |} ] |}.

Definition quoted (s : string) : string := dq ++ s ++ dq.

Definition systemPrompt (readingLevel : string) : string :=
  "You are a patient coding teacher. Output JSON only. Given code, produce:" ++ nl ++
  "{" ++ nl ++
  "  " ++ quoted "explanation" ++ ": " ++
    quoted ("<" ++
            (if String.eqb readingLevel "12" then "simple, analogical explanation for 12-year-olds"
             else if String.eqb readingLevel "15" then "clear explanation for teenagers"
             else if String.eqb readingLevel "cs1" then "technical but beginner-friendly explanation"
             else "professional, concise explanation") ++ ">") ++ "," ++ nl ++
  "  " ++ quoted "mermaid" ++ ": " ++ quoted "graph TD\n    A[Start] --> B[...]" ++ "," ++ nl ++
  "  " ++ quoted "trace" ++ ": { " ++ quoted "input" ++ ": " ++ quoted "sample" ++ ", " ++
    quoted "steps" ++ ": [{ " ++ quoted "line" ++ ": 1, " ++ quoted "vars" ++ ": {...} }] }," ++ nl ++
  "  " ++ quoted "quizzes" ++ ": [{ " ++ quoted "question" ++ ": " ++ quoted EmptyString ++ ", " ++
    quoted "choices" ++ ": [" ++ quoted ".." ++ "], " ++ quoted "answer" ++ ": " ++ quoted "..." ++ ", " ++
    quoted "hint" ++ ": " ++ quoted "..." ++ ", " ++
    quoted "difficulty" ++ ": " ++ quoted "easy|medium|hard" ++ " }]" ++ nl ++
  "}" ++ nl ++
  "Limit explanation to 6 short paragraphs. Provide exactly 3 quizzes (2 MCQ, 1 predict output).".

Definition completions_url : string := "https://api.openai.com/v1/chat/completions".

Definition completions_request (openaiKey code language readingLevel : string) : FetchInit :=
  {| init_method := "POST";
     init_headers := [("Authorization", "Bearer " ++ openaiKey);
                      ("Content-Type", "application/json")];
     init_body :=
       JObj [("model", JStr "gpt-4o-mini");
             ("messages",
              JArr [JObj [("role", JStr "system");
                          ("content", JStr (systemPrompt readingLevel))];
                    JObj [("role", JStr "user");
                          ("content", JStr ("Language: " ++ language ++ nl ++
                                            "Code:" ++ nl ++ code))]]);
             ("temperature", JNum 0.7);
             ("max_tokens", JNum 2000)] |}.

(** [data.choices[0].message.content]. *)
Definition message_content (data : JSValue) : Exc JSValue :=
  choices <-? get_prop data "choices" ;;
  first <-? get_index0 choices ;;
  message <-? get_prop first "message" ;;
  get_prop message "content".

(** The body of the [try] block of [callLLM]. *)
Definition callLLM_try (P : Platform) (openaiKey code language readingLevel : string)
  : M JSValue :=
  response <- lift (fetch P completions_url
                      (completions_request openaiKey code language readingLevel)) ;;
  if negb (ok response) then
    console_error ("OpenAI API error: " ++ string_of_Z (http_status response)) None ;;;
    throw (Error ("OpenAI API error: " ++ string_of_Z (http_status response)))
  else
    data <- lift (json response) ;;
    content <- lift (message_content data) ;;
    lift (JSON_parse P content).

Definition callLLM (P : Platform) (code language readingLevel : string) : M JSValue :=
  let openaiKey := env_get P "OPENAI_API_KEY" in
  if negb (truthy_string openaiKey) then
    ret (js_of_response (mock_response language))
  else
    try_catch
      (callLLM_try P (or_default openaiKey EmptyString) code language readingLevel)
      (fun error =>
         console_error "LLM call failed, using fallback response:" (Some error) ;;;
         ret (js_of_response (generateFallbackResponse code language readingLevel))).

(** ** The request handler *)

(** The request body as the interface [ExplainRequest] declares it; an
    absent field is [None]. *)
Record ExplainRequest : Type := mkExplainRequest {
  snippet_id : option string;
  title : option string;
  language : option string;
  code : option string;
  reading_level : option string
}.

Record Request : Type := mkRequest {
  method : string;
  (** [req.headers.get('Authorization')] *)
  authorization : option string;
  (** [await req.json()], destructured; it throws when the body is not JSON
      text or is [null] *)
  body_json : Exc ExplainRequest
}.

(** A [Response]; its body is the value handed to [JSON.stringify], or
    nothing. *)
Record Response : Type := mkResponse {
  status : Z;
  headers : list (string * string);
  body : option JSValue
}.

Fixpoint set_header (k v : string) (hs : list (string * string)) : list (string * string) :=
  match hs with
  | [] => [(k, v)]
  | (k', v') :: rest =>
      if String.eqb k k' then (k, v) :: rest else (k', v') :: set_header k v rest
  end.

(** [new Response(JSON.stringify(v), { status, headers: { ...corsHeaders,
    'Content-Type': 'application/json' } })]; the status defaults to 200. *)
Definition json_response (P : Platform) (status : Z) (v : JSValue) : Response :=
  {| status := status;
     headers := set_header "Content-Type" "application/json" (corsHeaders P);
     body := Some v |}.

Definition error_body (msg : string) : JSValue := JObj [("error", JStr msg)].

Fixpoint map_exc {A B} (f : A -> nat -> Exc B) (l : list A) (index : nat) : Exc (list B) :=
  match l with
  | [] => Returned []
  | a :: rest =>
      b <-? f a index ;;
      bs <-? map_exc f rest (S index) ;;
      Returned (b :: bs)
  end.

(** [v.map((item, index) => f item index)] for a value [v] read off the
    bundle: only an array has a [map] to call. *)
Definition array_map {B} (f : JSValue -> nat -> Exc B) (v : JSValue) : Exc (list B) :=
  match v with
  | JArr items => map_exc f items 0
  | JUndefined => Threw (TypeError "Cannot read properties of undefined (reading 'map')")
  | JNull => Threw (TypeError "Cannot read properties of null (reading 'map')")
  | _ => Threw (TypeError "llmResponse.quizzes.map is not a function")
  end.

(** The columns copied from a quiz of the bundle. *)
Definition quiz_columns (snippetId : JSValue) (quiz : JSValue) : Exc Row :=
  question <-? get_prop quiz "question" ;;
  choices <-? get_prop quiz "choices" ;;
  answer <-? get_prop quiz "answer" ;;
  hint <-? get_prop quiz "hint" ;;
  difficulty <-? get_prop quiz "difficulty" ;;
  Returned [("snippet_id", snippetId);
            ("question", question);
            ("choices", choices);
            ("answer", answer);
            ("hint", hint);
            ("difficulty", difficulty)].

(** [llmResponse.quizzes.map(quiz => ({ snippet_id: snippetId, ... }))]. *)
Definition quizInserts (snippetId llmResponse : JSValue) : Exc (list Row) :=
  qs <-? get_prop llmResponse "quizzes" ;;
  array_map (fun quiz _ => quiz_columns snippetId quiz) qs.

(** [llmResponse.quizzes.map((quiz, index) => ({ id: `<prefix>${index}`,
    snippet_id: snippetId, ... }))]. *)
Definition quizzes_with_ids (prefix : string) (snippetId llmResponse : JSValue)
  : Exc JSValue :=
  qs <-? get_prop llmResponse "quizzes" ;;
  items <-? array_map
              (fun quiz index =>
                 columns <-? quiz_columns snippetId quiz ;;
                 Returned (JObj (("id", JStr (prefix ++ string_of_nat index)) :: columns)))
              qs ;;
  Returned (JArr items).

(** [{ snippet: { id, explanation: llmResponse.explanation, ..., status:
    'ready' }, quizzes: llmResponse.quizzes.map(...) }], built from the
    bundle in memory. *)
Definition in_memory_body (prefix : string) (snippetId llmResponse : JSValue)
  : Exc JSValue :=
  explanation <-? get_prop llmResponse "explanation" ;;
  mermaid <-? get_prop llmResponse "mermaid" ;;
  trace <-? get_prop llmResponse "trace" ;;
  quizzes <-? quizzes_with_ids prefix snippetId llmResponse ;;
  Returned (JObj [("snippet",
                   JObj [("id", snippetId);
                         ("explanation", explanation);
                         ("mermaid_diagram", mermaid);
                         ("trace_table", trace);
                         ("status", JStr "ready")]);
                  ("quizzes", quizzes)]).

(** The queries of the handler. *)
Definition update_pending (snippetId userId : string) (title : option string)
           (language code : string) : Query :=
  {| q_from := snippets;
     q_op := Update [("title", js_of_option title);
                     ("language", JStr language);
                     ("code", JStr code);
                     ("status", JStr "pending")];
     q_eq := [("id", JStr snippetId); ("owner", JStr userId)];
     q_select := false;
     q_single := false |}.

Definition insert_pending (userId : string) (title : option string)
           (language code : string) : Query :=
  {| q_from := snippets;
     q_op := Insert [[("owner", JStr userId);
                      ("title", JStr (or_default title "Untitled"));
                      ("language", JStr language);
                      ("code", JStr code);
                      ("status", JStr "pending")]];
     q_eq := [];
     q_select := true;
     q_single := true |}.

Definition update_result (snippetId explanation mermaid trace : JSValue) : Query :=
  {| q_from := snippets;
     q_op := Update [("explanation", explanation);
                     ("mermaid_diagram", mermaid);
                     ("trace_table", trace);
                     ("status", JStr "ready")];
     q_eq := [("id", snippetId)];
     q_select := true;
     q_single := true |}.

Definition delete_quizzes (snippetId : JSValue) : Query :=
  {| q_from := quizzes_table;
     q_op := Delete;
     q_eq := [("snippet_id", snippetId)];
     q_select := false;
     q_single := false |}.

Definition insert_quizzes (rows : list Row) : Query :=
  {| q_from := quizzes_table;
     q_op := Insert rows;
     q_eq := [];
     q_select := true;
     q_single := false |}.

(** The innermost [try]/[catch]: replace the quizzes of the snippet. *)
Definition quiz_block (P : Platform) (snippetId updatedSnippet llmResponse : JSValue)
  : M Response :=
  try_catch
    (run P (delete_quizzes snippetId) ;;;
     rows <- lift (quizInserts snippetId llmResponse) ;;
     r <- run P (insert_quizzes rows) ;;
     match error r with
     | Some quizError =>
         console_error "Insert quizzes error:" (Some quizError) ;;;
         quizzes <- lift (quizzes_with_ids "temp_" snippetId llmResponse) ;;
         ret (json_response P 200
                (JObj [("snippet", updatedSnippet); ("quizzes", quizzes)]))
     | None =>
         ret (json_response P 200
                (JObj [("snippet", updatedSnippet); ("quizzes", data r)]))
     end)
    (fun quizError =>
       console_error "Quiz processing error:" (Some quizError) ;;;
       ret (json_response P 200
              (JObj [("snippet", updatedSnippet); ("quizzes", JArr [])]))).

(** The middle [try]/[catch]: write the results, then the quizzes. *)
Definition db_block (P : Platform) (snippetId llmResponse : JSValue) : M Response :=
  try_catch
    (explanation <- lift (get_prop llmResponse "explanation") ;;
     mermaid <- lift (get_prop llmResponse "mermaid") ;;
     trace <- lift (get_prop llmResponse "trace") ;;
     r <- run P (update_result snippetId explanation mermaid trace) ;;
     let updatedSnippet := data r in
     match error r with
     | Some snippetUpdateError =>
         console_error "Update snippet with results error:" (Some snippetUpdateError) ;;;
         b <- lift (in_memory_body "temp_" snippetId llmResponse) ;;
         ret (json_response P 200 b)
     | None => quiz_block P snippetId updatedSnippet llmResponse
     end)
    (fun dbError =>
       console_error "Database error, returning fallback response:" (Some dbError) ;;;
       b <- lift (in_memory_body "temp_"
                    (if truthy snippetId then snippetId else JStr "temp")
                    llmResponse) ;;
       ret (json_response P 200 b)).

(** After the snippet is identified: generate, then persist. *)
Definition generate_and_persist (P : Platform) (snippetId : JSValue)
           (code language : string) (reading_level : option string) : M Response :=
  llmResponse <- callLLM P code language (or_default reading_level "cs1") ;;
  db_block P snippetId llmResponse.

(** [(error as any).requestBody?.<field>]: an error object carries no
    [requestBody]. *)
Definition requestBody_field (error : JSError) (field : string) : option string := None.

(** The bundle's quizzes under identifiers [<prefix><index>]. *)
Fixpoint number_quizzes (prefix : string) (snippetId : JSValue) (qs : list Quiz)
         (index : nat) : list JSValue :=
  match qs with
  | [] => []
  | quiz :: rest =>
      JObj [("id", JStr (prefix ++ string_of_nat index));
            ("snippet_id", snippetId);
            ("question", JStr (question quiz));
            ("choices", js_of_strings (choices quiz));
            ("answer", JStr (answer quiz));
            ("hint", JStr (hint quiz));
            ("difficulty", JStr (difficulty quiz))]
      :: number_quizzes prefix snippetId rest (S index)
  end.

(** The body of the outer [try]. *)
Definition serve_try (P : Platform) (req : Request) : M Response :=
  let supabaseUrl := env_get P "SUPABASE_URL" in
  let supabaseServiceKey := env_get P "SUPABASE_SERVICE_ROLE_KEY" in
  lift (createClient P supabaseUrl supabaseServiceKey) ;;;
  match authorization req with
  | None => ret (json_response P 401 (error_body "Missing authorization header"))
  | Some authHeader =>
      if String.eqb authHeader EmptyString then
        ret (json_response P 401 (error_body "Missing authorization header"))
      else
        let token := replace authHeader "Bearer " EmptyString in
        user <- lift (getUser P token) ;;
        match user with
        | None => ret (json_response P 401 (error_body "Invalid token"))
        | Some userId =>
            parsed <- lift (body_json req) ;;
            let '(mkExplainRequest snippet_id title language code reading_level) := parsed in
            if negb (truthy_string code) || negb (truthy_string language) then
              ret (json_response P 400 (error_body "Missing required fields: code, language"))
            else
              let code := or_default code EmptyString in
              let language := or_default language EmptyString in
              if truthy_string snippet_id then
                let snippetId := or_default snippet_id EmptyString in
                r <- run P (update_pending snippetId userId title language code) ;;
                match error r with
                | Some updateError =>
                    console_error "Update snippet error:" (Some updateError) ;;;
                    ret (json_response P 500 (error_body "Failed to update snippet"))
                | None =>
                    generate_and_persist P (JStr snippetId) code language reading_level
                end
              else
                r <- run P (insert_pending userId title language code) ;;
                let snippetData := data r in
                if (match error r with Some _ => true | None => false end)
                   || negb (truthy snippetData) then
                  console_error "Insert snippet error:" (error r) ;;;
                  ret (json_response P 500 (error_body "Failed to create snippet"))
                else
                  snippetId <- lift (get_prop snippetData "id") ;;
                  generate_and_persist P snippetId code language reading_level
        end
  end.

(** The outer [catch]: a bundle built without any external call. *)
Definition serve_catch (P : Platform) (error : JSError) : M Response :=
  console_error "Explain function error, generating final fallback:" (Some error) ;;;
  let fallbackResponse :=
    generateFallbackResponse
      (or_default (requestBody_field error "code") "Sample code")
      (or_default (requestBody_field error "language") "javascript")
      (or_default (requestBody_field error "reading_level") "cs1") in
  ret (json_response P 200
         (JObj [("snippet",
                 JObj [("id", JStr "fallback");
                       ("explanation", JStr (explanation fallbackResponse));
                       ("mermaid_diagram", JStr (mermaid fallbackResponse));
                       ("trace_table", js_of_trace (trace fallbackResponse));
                       ("status", JStr "ready")]);
                ("quizzes",
                 JArr (number_quizzes "fallback_" (JStr "fallback")
                         (quizzes fallbackResponse) 0))])).

Definition serve (P : Platform) (req : Request) : M Response :=
  if String.eqb (method req) "OPTIONS" then
    ret {| status := 200; headers := corsHeaders P; body := None |}
  else
    try_catch (serve_try P req) (serve_catch P).

(** ** Vocabulary of the statements *)

(** The three registers of the explanation. A reading level other than
    ["12"] and ["15"] (so ["cs1"] and ["pro"]) selects the technical one. *)
Inductive Register : Type := Child | Teen | Technical.

Definition register_of (readingLevel : string) : Register :=
  if String.eqb readingLevel "12" then Child
  else if String.eqb readingLevel "15" then Teen
  else Technical.

Definition base_sentence (r : Register) (language : string) : string :=
  match r with
  | Child => base_12 language
  | Teen => base_15 language
  | Technical => base_pro language
  end.

Definition loops_clause (r : Register) : string :=
  match r with
  | Child => loops_12
  | Teen => loops_15
  | Technical => loops_pro
  end.

Definition conditionals_clause (r : Register) : string :=
  match r with
  | Child => conditionals_12
  | Teen => conditionals_15
  | Technical => conditionals_pro
  end.

(** The functions clause of a register; the child register has none. *)
Definition functions_clause (r : Register) : option string :=
  match r with
  | Child => None
  | Teen => Some functions_15
  | Technical => Some functions_pro
  end.

Definition clause_if (c : bool) (clause : string) : string :=
  if c then clause else EmptyString.

(** The explanation as the code assembles it: base sentence, then the
    loops, conditionals and functions clauses of the register, each under
    its signal. *)
Definition assembled (r : Register) (language : string)
           (loops conditionals functions : bool) : string :=
  base_sentence r language
  ++ clause_if loops (loops_clause r)
  ++ clause_if conditionals (conditionals_clause r)
  ++ match functions_clause r with
     | Some clause => clause_if functions clause
     | None => EmptyString
     end.

(** The explanation as the specification words it: the functions clause
    belongs to the technical register alone. *)
Definition explanation_as_specified (code language readingLevel : string) : string :=
  let r := register_of readingLevel in
  base_sentence r language
  ++ clause_if (hasLoops code) (loops_clause r)
  ++ clause_if (hasConditionals code) (conditionals_clause r)
  ++ match r with
     | Technical => clause_if (hasFunctions code) functions_pro
     | _ => EmptyString
     end.

(** The diagram template that a pair of signals selects. *)
Definition template (loops conditionals : bool) : string :=
  match loops, conditionals with
  | true, true => diagram_loop_branch
  | true, false => diagram_loop
  | false, true => diagram_branch
  | false, false => diagram_straight
  end.

(** A quiz is well formed: four distinct choices, the answer among them. *)
Definition well_formed_quiz (q : Quiz) : Prop :=
  In (answer q) (choices q) /\ List.length (choices q) = 4%nat /\ NoDup (choices q).

(** The ways the call to the model fails inside [callLLM]'s [try] block:
    the request rejects, the status is not a success, the body is not JSON,
    the reply has no [choices[0].message.content], or that content is not
    JSON text. *)
Inductive call_fails (P : Platform) (request : FetchInit) : Prop :=
| network_exception (e : JSError) :
    fetch P completions_url request = Threw e ->
    call_fails P request
| non_success_status (r : HttpResponse) :
    fetch P completions_url request = Returned r ->
    ok r = false ->
    call_fails P request
| body_not_json (r : HttpResponse) (e : JSError) :
    fetch P completions_url request = Returned r ->
    ok r = true ->
    json r = Threw e ->
    call_fails P request
| content_missing (r : HttpResponse) (reply : JSValue) (e : JSError) :
    fetch P completions_url request = Returned r ->
    ok r = true ->
    json r = Returned reply ->
    message_content reply = Threw e ->
    call_fails P request
| content_not_json (r : HttpResponse) (reply content : JSValue) (e : JSError) :
    fetch P completions_url request = Returned r ->
    ok r = true ->
    json r = Returned reply ->
    message_content reply = Returned content ->
    JSON_parse P content = Threw e ->
    call_fails P request.

(** The shape that the interface [LLMResponse] declares. *)
Definition is_string (v : JSValue) : bool :=
  match v with JStr _ => true | _ => false end.

Definition quiz_shape (v : JSValue) : bool :=
  match v with
  | JObj f =>
      is_string (assoc "question" f)
      && match assoc "choices" f with
         | JArr cs => forallb is_string cs
         | _ => false
         end
      && is_string (assoc "answer" f)
      && is_string (assoc "hint" f)
      && is_string (assoc "difficulty" f)
  | _ => false
  end.

Definition step_shape (v : JSValue) : bool :=
  match v with
  | JObj f =>
      match assoc "line" f, assoc "vars" f with
      | JNum _, JObj _ => true
      | _, _ => false
      end
  | _ => false
  end.

Definition trace_shape (v : JSValue) : bool :=
  match v with
  | JObj f =>
      is_string (assoc "input" f)
      && match assoc "steps" f with
         | JArr ss => forallb step_shape ss
         | _ => false
         end
  | _ => false
  end.

Definition has_bundle_shape (v : JSValue) : bool :=
  match v with
  | JObj f =>
      is_string (assoc "explanation" f)
      && is_string (assoc "mermaid" f)
      && trace_shape (assoc "trace" f)
      && match assoc "quizzes" f with
         | JArr qs => forallb quiz_shape qs
         | _ => false
         end
  | _ => false
  end.

(** The failures as the specification lists them: the ones above, and a
    content that is JSON text of another shape than the bundle's. *)
Inductive call_fails_as_specified (P : Platform) (request : FetchInit) : Prop :=
| failure_detected :
    call_fails P request ->
    call_fails_as_specified P request
| wrong_shape (r : HttpResponse) (reply content parsed : JSValue) :
    fetch P completions_url request = Returned r ->
    ok r = true ->
    json r = Returned reply ->
    message_content reply = Returned content ->
    JSON_parse P content = Returned parsed ->
    has_bundle_shape parsed = false ->
    call_fails_as_specified P request.

(** The quizzes of a response body under the identifiers [<prefix><index>]. *)
Fixpoint with_ids (prefix : string) (rows : list Row) (index : nat) : list JSValue :=
  match rows with
  | [] => []
  | row :: rest =>
      JObj (("id", JStr (prefix ++ string_of_nat index)) :: row)
      :: with_ids prefix rest (S index)
  end.

(** [body.snippet.status] and the identifiers [body.quizzes[i].id]. *)
Definition snippet_status (b : JSValue) : Exc JSValue :=
  snippet <-? get_prop b "snippet" ;;
  get_prop snippet "status".

Definition quiz_id (quiz : JSValue) : JSValue :=
  match quiz with
  | JObj f => assoc "id" f
  | _ => JUndefined
  end.

Definition temp_ids (n : nat) : list JSValue :=
  map (fun index => JStr ("temp_" ++ string_of_nat index)) (seq 0 n).

(** A body [{ snippet, quizzes }] whose [quizzes] is an array. *)
Definition content_body (b : option JSValue) : Prop :=
  exists snippet items, b = Some (JObj [("snippet", snippet); ("quizzes", JArr items)]).

(** The request passes the handler's checks: it is not a preflight, the
    token names a user, and [code] and [language] are present. *)
Definition passes_checks (P : Platform) (req : Request) (userId : string)
           (parsed : ExplainRequest) : Prop :=
  method req <> "OPTIONS" /\
  (exists authHeader,
      authorization req = Some authHeader /\ authHeader <> EmptyString /\
      getUser P (replace authHeader "Bearer " EmptyString) = Returned (Some userId)) /\
  body_json req = Returned parsed /\
  truthy_string (code parsed) = true /\
  truthy_string (language parsed) = true.

(** The write that identifies the snippet: the update to [pending] of the
    row named in the request, or the insertion of a new row. *)
Definition pending_write (userId : string) (parsed : ExplainRequest) : Query :=
  if truthy_string (snippet_id parsed) then
    update_pending (or_default (snippet_id parsed) EmptyString) userId (title parsed)
                   (or_default (language parsed) EmptyString)
                   (or_default (code parsed) EmptyString)
  else
    insert_pending userId (title parsed)
                   (or_default (language parsed) EmptyString)
                   (or_default (code parsed) EmptyString).

(** The handler gives up on the outcome of that write: an error, or (for
    the insertion) no row. *)
Definition pending_write_failed (parsed : ExplainRequest) (o : Exc QueryResult) : Prop :=
  exists r, o = Returned r /\
            (error r <> None \/
             (truthy_string (snippet_id parsed) = false /\ truthy (data r) = false)).

(** How the replacement of the quizzes fails after a successful result
    write; the index tells whether an exception was thrown. *)
Inductive quiz_replace_fails (P : Platform) (snippetId llmResponse : JSValue)
  : bool -> Prop :=
| insert_reports_error (rows : list Row) (e : JSError) :
    (forall e', store_fault P (delete_quizzes snippetId) <> Rejects e') ->
    quizInserts snippetId llmResponse = Returned rows ->
    store_fault P (insert_quizzes rows) = Fails e ->
    quiz_replace_fails P snippetId llmResponse false
| delete_throws (e : JSError) :
    store_fault P (delete_quizzes snippetId) = Rejects e ->
    quiz_replace_fails P snippetId llmResponse true
| insert_throws (rows : list Row) (e : JSError) :
    (forall e', store_fault P (delete_quizzes snippetId) <> Rejects e') ->
    quizInserts snippetId llmResponse = Returned rows ->
    store_fault P (insert_quizzes rows) = Rejects e ->
    quiz_replace_fails P snippetId llmResponse true.

(** ** Platforms, stores and requests of the examples *)

Definition example_cors : list (string * string) :=
  [("Access-Control-Allow-Origin", "*");
   ("Access-Control-Allow-Headers", "authorization, x-client-info, apikey, content-type")].

(** [JSON.parse] on the two texts the examples submit to it: ["{}"]
    denotes the empty object, ["not json"] denotes nothing. *)
Definition parse_examples (text : JSValue) : Exc JSValue :=
  match text with
  | JStr s =>
      if String.eqb s "{}" then Returned (JObj [])
      else Threw (SyntaxError "Unexpected token")
  | _ => Threw (SyntaxError "Unexpected token")
  end.

(** A development deployment: the store is configured and healthy, two
    users are known, and no model key is set. *)
Definition dev_platform : Platform :=
  {| env_get := fun name =>
       if String.eqb name "SUPABASE_URL" then Some "https://project.supabase.co"
       else if String.eqb name "SUPABASE_SERVICE_ROLE_KEY" then Some "service-role-key"
       else None;
     corsHeaders := example_cors;
     fetch := fun _ _ => Threw (TypeError "fetch failed");
     JSON_parse := parse_examples;
     createClient := fun _ _ => Returned tt;
     getUser := fun token =>
       if String.eqb token "alice-token" then Returned (Some "alice")
       else if String.eqb token "mallory-token" then Returned (Some "mallory")
       else Returned None;
     store_fault := fun _ => Works;
     new_id := fun n => "row-" ++ string_of_nat n |}.

(** The same deployment with a model key, the model answering [reply]. *)
Definition with_model (P : Platform) (reply : Exc HttpResponse) : Platform :=
  {| env_get := fun name =>
       if String.eqb name "OPENAI_API_KEY" then Some "sk-test" else env_get P name;
     corsHeaders := corsHeaders P;
     fetch := fun _ _ => reply;
     JSON_parse := JSON_parse P;
     createClient := createClient P;
     getUser := getUser P;
     store_fault := store_fault P;
     new_id := new_id P |}.

Definition with_faults (P : Platform) (faults : Query -> Fault) : Platform :=
  {| env_get := env_get P;
     corsHeaders := corsHeaders P;
     fetch := fetch P;
     JSON_parse := JSON_parse P;
     createClient := createClient P;
     getUser := getUser P;
     store_fault := faults;
     new_id := new_id P |}.

(** A chat completion whose message carries [content]. *)
Definition completion (content : string) : HttpResponse :=
  {| ok := true;
     http_status := 200;
     json := Returned
               (JObj [("choices",
                       JArr [JObj [("index", JNum 0);
                                   ("message",
                                    JObj [("role", JStr "assistant");
                                          ("content", JStr content)])]])]) |}.

Definition unavailable : JSError := mkError "503" "store unavailable".

(** The store answers the result write with an error. *)
Definition result_write_fails (q : Query) : Fault :=
  match q_from q, q_op q with
  | snippets, Update _ => if q_single q then Fails unavailable else Works
  | _, _ => Works
  end.

(** The store answers the update to [pending] with an error. *)
Definition pending_update_fails (q : Query) : Fault :=
  match q_from q, q_op q with
  | snippets, Update _ => if q_single q then Works else Fails unavailable
  | _, _ => Works
  end.

(** The insertion of the quizzes rejects. *)
Definition quiz_insert_throws (q : Query) : Fault :=
  match q_from q, q_op q with
  | quizzes_table, Insert _ => Rejects (TypeError "fetch failed")
  | _, _ => Works
  end.

(** The insertion of the quizzes is answered with an error. *)
Definition quiz_insert_fails (q : Query) : Fault :=
  match q_from q, q_op q with
  | quizzes_table, Insert _ => Fails unavailable
  | _, _ => Works
  end.

Definition example_code : string := "for i in range(10): print(i)".

Definition example_request (token : string) (snippet_id : option string) : Request :=
  {| method := "POST";
     authorization := Some ("Bearer " ++ token);
     body_json :=
       Returned {| snippet_id := snippet_id;
                   title := None;
                   language := Some "python";
                   code := Some example_code;
                   reading_level := Some "12" |} |}.

(** A store holding one snippet of Alice's, ready, with one quiz. *)
Definition alice_snippet : Row :=
  [("id", JStr "s1");
   ("owner", JStr "alice");
   ("title", JStr "Payroll");
   ("language", JStr "python");
   ("code", JStr "salary = 4200");
   ("status", JStr "ready");
   ("explanation", JStr "Alice's explanation");
   ("mermaid_diagram", JStr "graph TD");
   ("trace_table", JNull)].

Definition alice_quiz : Row :=
  [("id", JStr "q1");
   ("snippet_id", JStr "s1");
   ("question", JStr "What is stored in salary?");
   ("choices", js_of_strings ["4200"; "0"; "salary"; "nothing"]);
   ("answer", JStr "4200");
   ("hint", JStr "Read the assignment");
   ("difficulty", JStr "easy")].

Definition alice_store : Store :=
  {| snippet_rows := [alice_snippet]; quiz_rows := [alice_quiz]; next_id := 0 |}.

Definition start (s : Store) : State :=
  {| store := s; issued := []; console := [] |}.

(** The console after more [console.error] calls. *)
Definition logged (st : State) (entries : list LogEntry) : State :=
  {| store := store st; issued := issued st; console := (console st ++ entries)%list |}.

(** A response with status 200 whose body is [{ snippet, quizzes }], the
    quizzes an array and the snippet [ready]. *)
Definition ready_response (resp : Response) : Prop :=
  status resp = 200%Z /\
  exists snippet items,
    body resp = Some (JObj [("snippet", snippet); ("quizzes", JArr items)])
    /\ get_prop snippet "status" = Returned (JStr "ready").

(** The queries a request issued, in order: table, statement, outcome. *)
Definition statement (o : Operation) : string :=
  match o with
  | Update _ => "update"
  | Insert _ => "insert"
  | Delete => "delete"
  end.

Definition outcome (o : Exc QueryResult) : string :=
  match o with
  | Returned r => match error r with None => "ok" | Some _ => "error" end
  | Threw _ => "thrown"
  end.

Definition journal (st : State) : list (string * string * string) :=
  map (fun entry => (table_name (q_from (fst entry)),
                     statement (q_op (fst entry)),
                     outcome (snd entry)))
      (issued st).

(** The identifiers [body.quizzes[i].id] of a response body. *)
Definition quiz_ids (b : option JSValue) : list JSValue :=
  match b with
  | Some (JObj fields) =>
      match assoc "quizzes" fields with
      | JArr items => map quiz_id items
      | _ => []
      end
  | _ => []
  end.

(** ** Vocabulary of the further properties *)

(** The text with its letters [a] to [z] in upper case and every other
    character as it is. This is the folding under which the three tests
    compare a character of the code with a character of a keyword; it is
    not [s.toUpperCase()], which also changes letters outside ASCII. *)
Fixpoint ascii_uppercase (s : string) : string :=
  match s with
  | EmptyString => EmptyString
  | String c s' => String (canonicalize c) (ascii_uppercase s')
  end.

(** Whether the character before a position is a word character, given
    what holds before [pre] and the text [pre] that precedes the position. *)
Fixpoint prev_after (prev_is_word : bool) (pre : string) : bool :=
  match pre with
  | EmptyString => prev_is_word
  | String c pre' => prev_after (is_word_char c) pre'
  end.

(** Whether a text begins with a word character. *)
Definition starts_with_word (s : string) : bool :=
  match s with
  | EmptyString => false
  | String c _ => is_word_char c
  end.

(** A text made of word characters only: an identifier, a number. *)
Fixpoint all_word (s : string) : bool :=
  match s with
  | EmptyString => true
  | String c s' => is_word_char c && all_word s'
  end.

(** The keyword lists of the three tests. *)
Definition loop_keywords : list string := ["for"; "while"; "do"].
Definition conditional_keywords : list string := ["if"; "else"; "switch"; "case"].
Definition function_keywords : list string := ["function"; "def"; "func"].

(** The answer of the outer [catch]: the bundle of the fallback generator
    for the fixed inputs, under the identifiers [fallback_<index>]. *)
Definition final_fallback (P : Platform) : Response :=
  let fallbackResponse := generateFallbackResponse "Sample code" "javascript" "cs1" in
  json_response P 200
    (JObj [("snippet",
            JObj [("id", JStr "fallback");
                  ("explanation", JStr (explanation fallbackResponse));
                  ("mermaid_diagram", JStr (mermaid fallbackResponse));
                  ("trace_table", js_of_trace (trace fallbackResponse));
                  ("status", JStr "ready")]);
           ("quizzes",
            JArr (number_quizzes "fallback_" (JStr "fallback")
                    (quizzes fallbackResponse) 0))]).

(** The value of a header. *)
Fixpoint get_header (k : string) (hs : list (string * string)) : option string :=
  match hs with
  | [] => None
  | (k', v) :: rest => if String.eqb k k' then Some v else get_header k rest
  end.

(** The request is refused with [status] and [message]: no or an empty
    [Authorization] header, a token that names no user, or a body without
    [code] or [language]. *)
Inductive refused (P : Platform) (req : Request) : Z -> string -> Prop :=
| no_header :
    createClient P (env_get P "SUPABASE_URL") (env_get P "SUPABASE_SERVICE_ROLE_KEY")
    = Returned tt ->
    authorization req = None \/ authorization req = Some EmptyString ->
    refused P req 401 "Missing authorization header"
| invalid_token (authHeader : string) :
    createClient P (env_get P "SUPABASE_URL") (env_get P "SUPABASE_SERVICE_ROLE_KEY")
    = Returned tt ->
    authorization req = Some authHeader ->
    authHeader <> EmptyString ->
    getUser P (replace authHeader "Bearer " EmptyString) = Returned None ->
    refused P req 401 "Invalid token"
| missing_fields (authHeader userId : string) (parsed : ExplainRequest) :
    createClient P (env_get P "SUPABASE_URL") (env_get P "SUPABASE_SERVICE_ROLE_KEY")
    = Returned tt ->
    authorization req = Some authHeader ->
    authHeader <> EmptyString ->
    getUser P (replace authHeader "Bearer " EmptyString) = Returned (Some userId) ->
    body_json req = Returned parsed ->
    truthy_string (code parsed) = false \/ truthy_string (language parsed) = false ->
    refused P req 400 "Missing required fields: code, language".

(** An exception before the handler reaches the store: the client cannot
    be created, the verification of the token throws, or the body of the
    request cannot be read. *)
Inductive throws_before_store (P : Platform) (req : Request) : JSError -> Prop :=
| client_throws (e : JSError) :
    createClient P (env_get P "SUPABASE_URL") (env_get P "SUPABASE_SERVICE_ROLE_KEY")
    = Threw e ->
    throws_before_store P req e
| verification_throws (authHeader : string) (e : JSError) :
    createClient P (env_get P "SUPABASE_URL") (env_get P "SUPABASE_SERVICE_ROLE_KEY")
    = Returned tt ->
    authorization req = Some authHeader ->
    authHeader <> EmptyString ->
    getUser P (replace authHeader "Bearer " EmptyString) = Threw e ->
    throws_before_store P req e
| body_unreadable (authHeader userId : string) (e : JSError) :
    createClient P (env_get P "SUPABASE_URL") (env_get P "SUPABASE_SERVICE_ROLE_KEY")
    = Returned tt ->
    authorization req = Some authHeader ->
    authHeader <> EmptyString ->
    getUser P (replace authHeader "Bearer " EmptyString) = Returned (Some userId) ->
    body_json req = Threw e ->
    throws_before_store P req e.

(** A computation keeps a relation between the store it finds and the
    store it leaves. *)
Definition keeps {A} (R : Store -> Store -> Prop) (m : M A) : Prop :=
  forall st, R (store st) (store (snd (m st))).

(** The snippets a store holds, by identifier and owner, in order. *)
Definition snippet_keys (s : Store) : list (JSValue * JSValue) :=
  map (fun row => (assoc "id" row, assoc "owner" row)) (snippet_rows s).

(** A store grows out of another: it holds the same snippets, with the
    same owners, and perhaps more. *)
Definition snippets_kept (s s' : Store) : Prop :=
  exists more, snippet_keys s' = (snippet_keys s ++ more)%list.

(** The quizzes of other snippets than [snippetId] are still there. *)
Definition other_quizzes_kept (snippetId : JSValue) (s s' : Store) : Prop :=
  forall row, In row (quiz_rows s) ->
              scalar_eqb (assoc "snippet_id" row) snippetId = false ->
              In row (quiz_rows s').

(** No snippet of the store has the identifier [snippetId]. *)
Definition unknown_snippet (snippetId : string) (s : Store) : Prop :=
  forall row, In row (snippet_rows s) ->
              scalar_eqb (assoc "id" row) (JStr snippetId) = false.

(** The store is left as it was if it does not know the snippet. *)
Definition untouched_if_unknown (snippetId : string) (s s' : Store) : Prop :=
  unknown_snippet snippetId s -> s' = s.

(** The quizzes of a store that belong to other snippets than [snippetId]:
    what the deletion of the snippet's quizzes leaves. *)
Definition quizzes_of_others (snippetId : JSValue) (s : Store) : list Row :=
  filter (fun row => negb (matches [("snippet_id", snippetId)] row)) (quiz_rows s).

(** The deletion of the quizzes is answered with an error. *)
Definition quiz_delete_fails (q : Query) : Fault :=
  match q_from q, q_op q with
  | quizzes_table, Delete => Fails unavailable
  | _, _ => Works
  end.

(** The entry of the journal for a query issued. *)
Definition journal_entry (x : Query * Exc QueryResult) : string * string * string :=
  (table_name (q_from (fst x)), statement (q_op (fst x)), outcome (snd x)).

(** The handler goes on to its next query after one that returned without
    an error, and after a deletion that returned at all. *)
Definition lets_proceed (entry : string * string * string) : Prop :=
  snd entry = "ok" \/ (snd (fst entry) = "delete" /\ snd entry = "error").

(** The entries are a beginning of the plan, and every query but the last
    let the handler proceed. *)
Definition in_plan (plan : list (string * string))
           (entries : list (string * string * string)) : Prop :=
  (exists rest, (map fst entries ++ rest)%list = plan)
  /\ Forall lets_proceed (removelast entries).

(** A computation issues its queries by the plan. *)
Definition follows {A} (plan : list (string * string)) (m : M A) : Prop :=
  forall st, exists entries,
      journal (snd (m st)) = (journal st ++ entries)%list /\ in_plan plan entries.

(** A computation issues no query. *)
Definition silent {A} (m : M A) : Prop :=
  forall st, issued (snd (m st)) = issued st.

(** The result write rejects. *)
Definition result_write_throws (q : Query) : Fault :=
  match q_from q, q_op q with
  | snippets, Update _ => if q_single q then Rejects (TypeError "fetch failed") else Works
  | _, _ => Works
  end.

(** Two stores hold the same snippets, by identifier and owner. *)
Definition same_snippets (s s' : Store) : Prop := snippet_keys s' = snippet_keys s.

(** The four registers of the prompt: unlike the fallback generator, the
    prompt tells ["cs1"] from the other levels. *)
Inductive PromptRegister : Type := ForChildren | ForTeenagers | ForBeginners | ForProfessionals.

Definition prompt_register (readingLevel : string) : PromptRegister :=
  if String.eqb readingLevel "12" then ForChildren
  else if String.eqb readingLevel "15" then ForTeenagers
  else if String.eqb readingLevel "cs1" then ForBeginners
  else ForProfessionals.

(** What the [try] block of [callLLM] throws and what it has logged by
    then, for each way the call fails: the exception of the request, of
    the reading of the body, of the access to [choices[0].message.content]
    or of [JSON.parse], as it is; for a status that is no success, the
    error that names the status, logged under the same text. *)
Inductive call_throws (P : Platform) (request : FetchInit)
  : JSError -> list LogEntry -> Prop :=
| request_rejects (e : JSError) :
    fetch P completions_url request = Threw e ->
    call_throws P request e []
| status_refused (r : HttpResponse) :
    fetch P completions_url request = Returned r ->
    ok r = false ->
    call_throws P request
                (Error ("OpenAI API error: " ++ string_of_Z (http_status r)))
                [("OpenAI API error: " ++ string_of_Z (http_status r), None)]
| body_unparsable (r : HttpResponse) (e : JSError) :
    fetch P completions_url request = Returned r ->
    ok r = true ->
    json r = Threw e ->
    call_throws P request e []
| content_absent (r : HttpResponse) (reply : JSValue) (e : JSError) :
    fetch P completions_url request = Returned r ->
    ok r = true ->
    json r = Returned reply ->
    message_content reply = Threw e ->
    call_throws P request e []
| content_unparsable (r : HttpResponse) (reply content : JSValue) (e : JSError) :
    fetch P completions_url request = Returned r ->
    ok r = true ->
    json r = Returned reply ->
    message_content reply = Returned content ->
    JSON_parse P content = Threw e ->
    call_throws P request e [].

(** A store holding Alice's snippet and a snippet of Bob's, each with one
    quiz. *)
Definition bob_snippet : Row :=
  [("id", JStr "s2");
   ("owner", JStr "bob");
   ("title", JStr "Loop");
   ("language", JStr "python");
   ("code", JStr "while True: pass");
   ("status", JStr "pending")].

Definition bob_quiz : Row :=
  [("id", JStr "q2");
   ("snippet_id", JStr "s2");
   ("question", JStr "Does the loop end?");
   ("choices", js_of_strings ["no"; "yes"; "once"; "twice"]);
   ("answer", JStr "no");
   ("hint", JStr "Read the condition");
   ("difficulty", JStr "easy")].

Definition two_owner_store : Store :=
  {| snippet_rows := [alice_snippet; bob_snippet];
     quiz_rows := [alice_quiz; bob_quiz];
     next_id := 0 |}.

(** * Properties *)

Example hasLoops_for : hasLoops "for i in range(10): print(i)" = true.
Proof. reflexivity. Qed.

Example hasLoops_double : hasLoops "double x = do_it(format);" = false.
Proof. reflexivity. Qed.

Example hasLoops_upper : hasLoops "WHILE (x) { }" = true.
Proof. reflexivity. Qed.

Example hasConditionals_if : hasConditionals "x = 1 if y else 2" = true.
Proof. reflexivity. Qed.

Example hasFunctions_def : hasFunctions "def f(): pass" = true.
Proof. reflexivity. Qed.

Example hasFunctions_define : hasFunctions "#define X 1" = false.
Proof. reflexivity. Qed.


(** ** Strings and identifiers *)

Lemma append_assoc (a b c : string) : (a ++ b) ++ c = a ++ (b ++ c).
Proof. induction a as [|x a IH]; simpl; [reflexivity | now rewrite IH]. Qed.

Lemma append_nil_r (a : string) : a ++ EmptyString = a.
Proof. induction a as [|x a IH]; simpl; [reflexivity | now rewrite IH]. Qed.

Lemma append_inv_head (a b c : string) : a ++ b = a ++ c -> b = c.
Proof. induction a as [|x a IH]; simpl; intros H; [exact H | injection H; auto]. Qed.

Lemma extend_clause_if (c : bool) (clause s : string) :
  extend c clause s = s ++ clause_if c clause.
Proof. destruct c; simpl; [reflexivity | now rewrite append_nil_r]. Qed.

Lemma includes_append_r (s t sub : string) :
  includes t sub = true -> includes (s ++ t) sub = true.
Proof.
  intros H; induction s as [|c s IH]; simpl; [exact H |].
  rewrite IH; apply orb_true_r.
Qed.


(** ** The fallback generator *)

Ltac nodup_strings :=
  repeat (constructor; [simpl; intuition discriminate |]); constructor.

(** C6. For every code, language and reading level, the fallback generator
    returns exactly three quizzes, and each of them has four distinct
    choices with its answer among them. *)
Theorem fallback_quizzes_well_formed (code language readingLevel : string) :
  List.length (quizzes (generateFallbackResponse code language readingLevel)) = 3%nat
  /\ Forall well_formed_quiz (quizzes (generateFallbackResponse code language readingLevel)).
Proof.
  unfold generateFallbackResponse, well_formed_quiz; simpl.
  split; [reflexivity |].
  destruct (hasLoops code), (hasConditionals code);
    repeat (constructor; [simpl; repeat split; [tauto | nodup_strings] |]);
    constructor.
Qed.

Lemma mermaid_template (code language readingLevel : string) :
  mermaid (generateFallbackResponse code language readingLevel)
  = template (hasLoops code) (hasConditionals code).
Proof.
  cbv beta iota zeta delta [generateFallbackResponse mermaid template].
  destruct (hasLoops code), (hasConditionals code); reflexivity.
Qed.

Lemma templates_distinct :
  NoDup [diagram_loop_branch; diagram_loop; diagram_branch; diagram_straight].
Proof.
  repeat (constructor; [cbv - [In]; simpl; intuition discriminate |]); constructor.
Qed.

(** C7. The diagram depends on the pair of signals (loops, conditionals)
    alone: two inputs with the same pair get the same diagram whatever their
    language, reading level and functions signal, and the diagram is the
    template the pair selects (loop with branch, loop, branch, straight
    line). *)
Theorem diagram_depends_on_two_signals
        (code1 language1 readingLevel1 code2 language2 readingLevel2 : string) :
  hasLoops code1 = hasLoops code2 ->
  hasConditionals code1 = hasConditionals code2 ->
  mermaid (generateFallbackResponse code1 language1 readingLevel1)
  = mermaid (generateFallbackResponse code2 language2 readingLevel2)
  /\ mermaid (generateFallbackResponse code1 language1 readingLevel1)
     = template (hasLoops code1) (hasConditionals code1).
Proof.
  intros Hl Hc; rewrite !mermaid_template, Hl, Hc; split; reflexivity.
Qed.

Lemma diagram_depends_on_two_signals_witness :
  hasLoops "for x in xs: total += x" = hasLoops "def f(): while (1) { }"
  /\ hasConditionals "for x in xs: total += x" = hasConditionals "def f(): while (1) { }"
  /\ hasFunctions "for x in xs: total += x" <> hasFunctions "def f(): while (1) { }"
  /\ mermaid (generateFallbackResponse "for x in xs: total += x" "python" "12")
     = mermaid (generateFallbackResponse "def f(): while (1) { }" "c" "pro")
  /\ mermaid (generateFallbackResponse "for x in xs: total += x" "python" "12")
     = diagram_loop.
Proof.
  split; [reflexivity |]. split; [reflexivity |]. split; [discriminate |].
  exact (diagram_depends_on_two_signals
           "for x in xs: total += x" "python" "12" "def f(): while (1) { }" "c" "pro"
           eq_refl eq_refl).
Defined.

Lemma explanation_by_register (code language readingLevel : string) :
  explanation (generateFallbackResponse code language readingLevel)
  = assembled (register_of readingLevel) language
      (hasLoops code) (hasConditionals code) (hasFunctions code).
Proof.
  cbv beta iota zeta delta [generateFallbackResponse explanation assembled register_of].
  destruct (String.eqb readingLevel "12"); [| destruct (String.eqb readingLevel "15")];
    cbv beta iota delta [base_sentence loops_clause conditionals_clause functions_clause];
    rewrite !extend_clause_if, ?append_assoc, ?append_nil_r; reflexivity.
Qed.

(** C8, as amended. The explanation is the base sentence of the register
    followed by at most one clause per true signal, in the order loops,
    conditionals, functions; the functions clause exists in the teen and the
    technical register, and the child register has none, so that there the
    functions signal changes nothing. *)
Theorem explanation_assembled (code language readingLevel : string) :
  explanation (generateFallbackResponse code language readingLevel)
  = assembled (register_of readingLevel) language
      (hasLoops code) (hasConditionals code) (hasFunctions code)
  /\ functions_clause Child = None
  /\ functions_clause Teen = Some functions_15
  /\ functions_clause Technical = Some functions_pro
  /\ assembled Child language (hasLoops code) (hasConditionals code) (hasFunctions code)
     = assembled Child language (hasLoops code) (hasConditionals code) false.
Proof.
  split; [apply explanation_by_register |]; repeat split.
Qed.

(** C8, counterexample. At reading level 15 (the teen register) the
    explanation of a code with a function keyword ends with the functions
    clause, which the specification reserves to the technical register. *)
Lemma teen_register_has_functions_clause :
  register_of "15" = Teen
  /\ hasFunctions "def f(): pass" = true
  /\ explanation (generateFallbackResponse "def f(): pass" "python" "15")
     = base_15 "python" ++ functions_15
  /\ explanation_as_specified "def f(): pass" "python" "15" = base_15 "python"
  /\ explanation (generateFallbackResponse "def f(): pass" "python" "15")
     <> explanation_as_specified "def f(): pass" "python" "15".
Proof.
  repeat split; try reflexivity.
  intros H; vm_compute in H; discriminate H.
Qed.

(** ** The model-backed generator *)

Lemma mock_explanation_differs (code language readingLevel : string) :
  explanation (mock_response language)
  <> explanation (generateFallbackResponse code language readingLevel).
Proof.
  rewrite explanation_by_register.
  cbv beta iota delta [mock_response explanation assembled].
  destruct (register_of readingLevel);
    cbv beta iota delta [base_sentence base_12 base_15 base_pro];
    rewrite !append_assoc; intros H;
    apply (append_inv_head "This ") in H; apply append_inv_head in H;
    simpl in H; discriminate H.
Qed.

Lemma mock_bundle_differs (code language readingLevel : string) :
  js_of_response (mock_response language)
  <> js_of_response (generateFallbackResponse code language readingLevel).
Proof.
  intros H.
  apply (f_equal (fun v => get_prop v "explanation")) in H.
  cbv beta iota delta [js_of_response get_prop assoc String.eqb Ascii.eqb Bool.eqb] in H.
  injection H as H.
  exact (mock_explanation_differs code language readingLevel H).
Qed.

Lemma mock_explanation_phrase (language : string) :
  includes (explanation (mock_response language))
           "variables to store data and control structures" = true.
Proof.
  cbv beta iota delta [mock_response explanation].
  apply includes_append_r, includes_append_r; reflexivity.
Qed.

(** The typed bundles have the shape of the interface. *)
Lemma typed_bundle_has_shape (r : LLMResponse) :
  has_bundle_shape (js_of_response r) = true.
Proof.
  assert (Hstrings : forall cs, forallb is_string (map JStr cs) = true).
  { induction cs as [|c cs IH]; simpl; auto. }
  assert (Hquizzes : forall qs, forallb quiz_shape (map js_of_quiz qs) = true).
  { induction qs as [|q qs IH]; simpl; [reflexivity |].
    unfold js_of_strings; now rewrite Hstrings, IH. }
  assert (Hsteps : forall ss, forallb step_shape (map js_of_step ss) = true).
  { induction ss as [|s ss IH]; simpl; auto. }
  unfold js_of_response, js_of_trace; simpl.
  now rewrite Hsteps, Hquizzes.
Qed.

Example network_exception_falls_back :
  fst (callLLM (with_model dev_platform (Threw (TypeError "fetch failed")))
               example_code "python" "pro" (start alice_store))
  = Returned (js_of_response (generateFallbackResponse example_code "python" "pro")).
Proof. reflexivity. Qed.

Example body_not_json_falls_back :
  fst (callLLM (with_model dev_platform
                  (Returned {| ok := true; http_status := 200;
                               json := Threw (SyntaxError "Unexpected token < in JSON") |}))
               example_code "python" "15" (start alice_store))
  = Returned (js_of_response (generateFallbackResponse example_code "python" "15")).
Proof. reflexivity. Qed.

Example reply_without_choices_falls_back :
  fst (callLLM (with_model dev_platform
                  (Returned {| ok := true; http_status := 200;
                               json := Returned (JObj [("error", JStr "overloaded")]) |}))
               example_code "python" "cs1" (start alice_store))
  = Returned (js_of_response (generateFallbackResponse example_code "python" "cs1")).
Proof. reflexivity. Qed.

Section ModelCall.

Variable P : Platform.

(** Without a key the mock bundle is returned and nothing else happens. *)
Lemma callLLM_unconfigured (code language readingLevel : string) (st : State) :
  truthy_string (env_get P "OPENAI_API_KEY") = false ->
  callLLM P code language readingLevel st
  = (Returned (js_of_response (mock_response language)), st).
Proof. intros H; unfold callLLM; rewrite H; reflexivity. Qed.

(** With a key, [callLLM] returns what the [try] block returns, and the
    fallback bundle when it throws. *)
Lemma callLLM_configured (code language readingLevel key : string) (st : State) :
  env_get P "OPENAI_API_KEY" = Some key -> key <> EmptyString ->
  callLLM P code language readingLevel st
  = match callLLM_try P key code language readingLevel st with
    | (Returned v, st') => (Returned v, st')
    | (Threw e, st') =>
        (Returned (js_of_response (generateFallbackResponse code language readingLevel)),
         logged st' [("LLM call failed, using fallback response:", Some e)])
    end.
Proof.
  intros Hk Hne; unfold callLLM; rewrite Hk.
  unfold truthy_string; simpl.
  destruct (String.eqb_spec key EmptyString) as [|_]; [contradiction |].
  unfold try_catch; simpl.
  destruct (callLLM_try P key code language readingLevel st) as [[v|e] st']; reflexivity.
Qed.

Lemma callLLM_try_throws (code language readingLevel key : string) (st : State) :
  call_fails P (completions_request key code language readingLevel) ->
  exists e entries,
    callLLM_try P key code language readingLevel st = (Threw e, logged st entries).
Proof.
  assert (Hst : logged st [] = st).
  { destruct st; unfold logged; simpl; now rewrite app_nil_r. }
  intros [e H | r H Hok | r e H Hok Hj | r reply e H Hok Hj Hc | r reply content e H Hok Hj Hc Hp];
    unfold callLLM_try, bind, lift; rewrite H; try rewrite Hok; simpl.
  - exists e, []; now rewrite Hst.
  - eexists _, [_]; reflexivity.
  - rewrite Hj; exists e, []; now rewrite Hst.
  - rewrite Hj, Hc; exists e, []; now rewrite Hst.
  - rewrite Hj, Hc, Hp; exists e, []; now rewrite Hst.
Qed.

(** C1, as amended. With a key configured, whenever the call to the model
    fails in a way the [try] block detects (the request rejects, the status
    is not a success, the body is not JSON, the reply carries no
    [choices[0].message.content], or that content is not JSON text), the
    bundle returned is the one the fallback generator gives for the same
    code, language and reading level; the store is not touched. *)
Theorem fallback_on_detected_failure
        (code language readingLevel key : string) (st : State) :
  env_get P "OPENAI_API_KEY" = Some key ->
  key <> EmptyString ->
  call_fails P (completions_request key code language readingLevel) ->
  exists st',
    callLLM P code language readingLevel st
    = (Returned (js_of_response (generateFallbackResponse code language readingLevel)), st')
    /\ store st' = store st
    /\ issued st' = issued st.
Proof.
  intros Hk Hne Hf.
  rewrite (callLLM_configured code language readingLevel key st Hk Hne).
  destruct (callLLM_try_throws code language readingLevel key st Hf) as (e & entries & ->).
  eexists; split; [reflexivity |]; split; reflexivity.
Qed.

(** A content that parses is returned as parsed. *)
Lemma callLLM_returns_parsed
      (code language readingLevel key : string) (st : State)
      (r : HttpResponse) (reply content parsed : JSValue) :
  env_get P "OPENAI_API_KEY" = Some key ->
  key <> EmptyString ->
  fetch P completions_url (completions_request key code language readingLevel) = Returned r ->
  ok r = true ->
  json r = Returned reply ->
  message_content reply = Returned content ->
  JSON_parse P content = Returned parsed ->
  callLLM P code language readingLevel st = (Returned parsed, st).
Proof.
  intros Hk Hne H Hok Hj Hc Hp.
  rewrite (callLLM_configured code language readingLevel key st Hk Hne).
  unfold callLLM_try, bind, lift; rewrite H, Hok; simpl; rewrite Hj, Hc, Hp; reflexivity.
Qed.

(** C9. Without a model key, the model-backed generator returns the fixed
    mock bundle; it differs from the bundle of the fallback generator for
    the same inputs (already in its explanation), and its explanation
    contains the phrase about variables and control structures. The
    witness is the scenario of the specification. *)
Theorem mock_without_credential
        (code language readingLevel : string) (st : State) :
  truthy_string (env_get P "OPENAI_API_KEY") = false ->
  callLLM P code language readingLevel st
  = (Returned (js_of_response (mock_response language)), st)
  /\ js_of_response (mock_response language)
     <> js_of_response (generateFallbackResponse code language readingLevel)
  /\ explanation (mock_response language)
     <> explanation (generateFallbackResponse code language readingLevel)
  /\ includes (explanation (mock_response language))
              "variables to store data and control structures" = true.
Proof.
  intros H; split; [exact (callLLM_unconfigured code language readingLevel st H) |].
  split; [apply mock_bundle_differs |].
  split; [apply mock_explanation_differs | apply mock_explanation_phrase].
Qed.

End ModelCall.

Lemma fallback_on_detected_failure_witness :
  exists st',
    callLLM (with_model dev_platform (Returned (completion "not json")))
            example_code "python" "12" (start alice_store)
    = (Returned (js_of_response (generateFallbackResponse example_code "python" "12")), st')
    /\ store st' = store (start alice_store)
    /\ issued st' = issued (start alice_store).
Proof.
  apply (fallback_on_detected_failure
           (with_model dev_platform (Returned (completion "not json")))
           example_code "python" "12" "sk-test" (start alice_store)).
  - reflexivity.
  - discriminate.
  - eapply content_not_json; reflexivity.
Defined.

(** C1, counterexample. The model's content is the JSON text of an empty
    object: it has not the shape of a bundle, and it is returned as parsed,
    not replaced by the fallback bundle. *)
Lemma wrong_shape_is_returned :
  call_fails_as_specified
    (with_model dev_platform (Returned (completion "{}")))
    (completions_request "sk-test" example_code "python" "12")
  /\ fst (callLLM (with_model dev_platform (Returned (completion "{}")))
                  example_code "python" "12" (start alice_store))
     = Returned (JObj [])
  /\ JObj [] <> js_of_response (generateFallbackResponse example_code "python" "12").
Proof.
  split; [| split].
  - eapply wrong_shape; reflexivity.
  - reflexivity.
  - discriminate.
Qed.

Lemma mock_without_credential_witness :
  callLLM dev_platform "for i in range(10): print(i)" "python" "12" (start alice_store)
  = (Returned (js_of_response (mock_response "python")), start alice_store)
  /\ js_of_response (mock_response "python")
     <> js_of_response (generateFallbackResponse "for i in range(10): print(i)" "python" "12")
  /\ explanation (mock_response "python")
     <> explanation (generateFallbackResponse "for i in range(10): print(i)" "python" "12")
  /\ includes (explanation (mock_response "python"))
              "variables to store data and control structures" = true.
Proof.
  exact (mock_without_credential dev_platform "for i in range(10): print(i)" "python" "12"
           (start alice_store) eq_refl).
Defined.

(** ** The store, the persistence blocks and the handler *)

Section Handler.

Variable P : Platform.

Lemma assoc_set_col_same (c : string) (v : JSValue) (row : Row) :
  assoc c (set_col c v row) = v.
Proof.
  induction row as [|[c' v'] row IH]; simpl.
  - now rewrite String.eqb_refl.
  - destruct (String.eqb c c') eqn:E; simpl; rewrite ?String.eqb_refl, ?E; auto.
Qed.

Lemma finish_cases (q : Query) (touched : list Row) (after before : Store)
      (r : QueryResult) (s : Store) :
  finish q touched after before = (r, s) ->
  (error r = None /\ s = after /\
   data r = (if q_select q
             then (if q_single q
                   then match touched with [row] => JObj row | _ => JNull end
                   else JArr (map JObj touched))
             else JNull) /\
   (q_single q = true -> exists row, touched = [row]))
  \/ (error r = Some not_singular /\ s = before /\ q_single q = true).
Proof.
  unfold finish; destruct (q_single q).
  - destruct touched as [|row [|row' rest]]; intros H; injection H as <- <-; simpl; auto.
    left; repeat split; eauto.
  - intros H; injection H as <- <-; simpl; left; repeat split; discriminate.
Qed.

(** A query is recorded with its outcome; the console is left alone. *)
Lemma run_records (q : Query) (st : State) :
  issued (snd (run P q st)) = (issued st ++ [(q, fst (run P q st))])%list
  /\ console (snd (run P q st)) = console st.
Proof.
  unfold run; destruct (store_fault P q); [destruct (execute _ _ _) |..]; simpl; auto.
Qed.


Lemma run_throw_keeps_store (q : Query) (st st' : State) (e : JSError) :
  run P q st = (Threw e, st') -> store st' = store st /\ store_fault P q = Rejects e.
Proof.
  unfold run; destruct (store_fault P q) as [|e'|e'].
  - destruct (execute _ _ _); discriminate.
  - discriminate.
  - intros H; injection H as -> <-; auto.
Qed.

(** The row that the result write hands back is [ready]. *)
Lemma result_write_ready (snippetId explanation mermaid trace : JSValue)
      (st st' : State) (r : QueryResult) :
  run P (update_result snippetId explanation mermaid trace) st = (Returned r, st') ->
  error r = None ->
  get_prop (data r) "status" = Returned (JStr "ready").
Proof.
  unfold run; destruct (store_fault P _) as [|e|e].
  - destruct (execute _ _ _) as [r' s'] eqn:E.
    intros H; injection H as -> <-; intros Herr.
    unfold execute in E; cbn [q_op update_result] in E.
    apply finish_cases in E; destruct E as [(_ & _ & Hd & Hs) | (He & _)]; [| congruence].
    destruct (Hs eq_refl) as (row & Hrow).
    rewrite Hd; cbn [q_select q_single update_result]; rewrite Hrow.
    destruct (filter _ _) as [|row0 [|]]; simpl in Hrow; try discriminate.
    injection Hrow as <-.
    unfold apply_patch; cbn [fold_left snd fst get_prop].
    now rewrite assoc_set_col_same.
  - intros H; injection H as <- <-; discriminate.
  - discriminate.
Qed.

(** The insertion of the quizzes, when it reports no error, hands back an
    array: the rows with the identifiers the store gave them. *)
Lemma quiz_insert_data (rows : list Row) (st st' : State) (r : QueryResult) :
  run P (insert_quizzes rows) st = (Returned r, st') ->
  error r = None ->
  data r = JArr (map JObj (create_rows (new_id P) (next_id (store st)) rows)).
Proof.
  unfold run; destruct (store_fault P _) as [|e|e].
  - destruct (execute _ _ _) as [r' s'] eqn:E.
    intros H; injection H as -> <-; intros _.
    unfold execute in E; cbn [q_op insert_quizzes] in E.
    unfold finish in E; cbn [q_single q_select insert_quizzes] in E.
    now injection E as <- _.
  - intros H; injection H as <- <-; discriminate.
  - discriminate.
Qed.

(** The update to [pending] is scoped to the caller: it leaves every row
    of another owner as it was. *)
Lemma update_pending_respects_owner
      (new_id : nat -> string) (snippetId userId : string) (title : option string)
      (language code : string) (s : Store) (row : Row) :
  In row (snippet_rows s) ->
  assoc "owner" row <> JStr userId ->
  In row (snippet_rows (snd (execute new_id
                               (update_pending snippetId userId title language code) s))).
Proof.
  intros Hin Hown.
  unfold execute; cbn [q_op update_pending q_from q_eq rows_of finish q_single q_select with_rows snd snippet_rows].
  apply in_map_iff; exists row; split; [| exact Hin].
  unfold matches; cbn [forallb fst snd].
  destruct (assoc "owner" row) as [| | | |o| |]; cbn [scalar_eqb];
    rewrite ?andb_false_r; try reflexivity.
  destruct (String.eqb_spec o userId) as [->|_]; [contradiction |].
  now rewrite andb_false_r.
Qed.

(** *** Quizzes and their identifiers *)

Lemma map_exc_with_ids (prefix : string) (snippetId : JSValue) (items : list JSValue) (n : nat) :
  map_exc (fun quiz index =>
             columns <-? quiz_columns snippetId quiz ;;
             Returned (JObj (("id", JStr (prefix ++ string_of_nat index)) :: columns)))
          items n
  = (rows <-? map_exc (fun quiz _ => quiz_columns snippetId quiz) items n ;;
     Returned (with_ids prefix rows n)).
Proof.
  revert n; induction items as [|quiz items IH]; intros n; simpl; [reflexivity |].
  destruct (quiz_columns snippetId quiz) as [columns|e]; simpl; [| reflexivity].
  rewrite IH.
  destruct (map_exc _ items (S n)) as [rows|e]; reflexivity.
Qed.

(** Both maps over the quizzes read the same properties: the one with
    identifiers succeeds exactly when the other does, on the same rows. *)
Lemma quizzes_with_ids_spec (prefix : string) (snippetId llmResponse : JSValue) :
  quizzes_with_ids prefix snippetId llmResponse
  = (rows <-? quizInserts snippetId llmResponse ;;
     Returned (JArr (with_ids prefix rows 0))).
Proof.
  unfold quizzes_with_ids, quizInserts.
  destruct (get_prop llmResponse "quizzes") as [qs|e]; simpl; [| reflexivity].
  destruct qs; simpl; try reflexivity.
  rewrite map_exc_with_ids.
  destruct (map_exc _ items 0) as [rows|e]; reflexivity.
Qed.

Lemma with_ids_ids (prefix : string) (rows : list Row) (n : nat) :
  map quiz_id (with_ids prefix rows n)
  = map (fun index => JStr (prefix ++ string_of_nat index)) (seq n (List.length rows)).
Proof.
  revert n; induction rows as [|row rows IH]; intros n; simpl; [reflexivity |].
  now rewrite IH.
Qed.


(** The rows of a typed bundle: one per quiz. *)
Lemma quizInserts_typed (snippetId : JSValue) (bundle : LLMResponse) :
  exists rows,
    quizInserts snippetId (js_of_response bundle) = Returned rows
    /\ List.length rows = List.length (quizzes bundle).
Proof.
  unfold quizInserts, js_of_response; simpl.
  generalize 0%nat.
  induction (quizzes bundle) as [|quiz qs IH]; intros n; simpl.
  - exists []; auto.
  - destruct (IH (S n)) as (rows & -> & Hlen); simpl.
    eexists; split; [reflexivity |]; simpl; now rewrite Hlen.
Qed.

Lemma in_memory_body_spec (prefix : string) (snippetId llmResponse b : JSValue) :
  in_memory_body prefix snippetId llmResponse = Returned b ->
  exists explanation mermaid trace rows,
    get_prop llmResponse "explanation" = Returned explanation
    /\ get_prop llmResponse "mermaid" = Returned mermaid
    /\ get_prop llmResponse "trace" = Returned trace
    /\ quizInserts snippetId llmResponse = Returned rows
    /\ b = JObj [("snippet",
                  JObj [("id", snippetId);
                        ("explanation", explanation);
                        ("mermaid_diagram", mermaid);
                        ("trace_table", trace);
                        ("status", JStr "ready")]);
                 ("quizzes", JArr (with_ids prefix rows 0))].
Proof.
  unfold in_memory_body; rewrite quizzes_with_ids_spec.
  destruct (get_prop llmResponse "explanation") as [explanation|]; simpl; [| discriminate].
  destruct (get_prop llmResponse "mermaid") as [mermaid|]; simpl; [| discriminate].
  destruct (get_prop llmResponse "trace") as [trace|]; simpl; [| discriminate].
  destruct (quizInserts snippetId llmResponse) as [rows|]; simpl; [| discriminate].
  intros H; injection H as <-.
  exists explanation, mermaid, trace, rows; repeat split; reflexivity.
Qed.

(** *** The persistence blocks *)

Lemma callLLM_returns (code language readingLevel : string) (st : State) :
  exists v st', callLLM P code language readingLevel st = (Returned v, st').
Proof.
  unfold callLLM; destruct (negb _); [unfold ret; eauto |].
  unfold try_catch; destruct (callLLM_try _ _ _ _ _ st) as [[v|e] st']; [eauto |].
  unfold bind, console_error, ret; simpl; eauto.
Qed.

Lemma quiz_block_ready (snippetId updatedSnippet llmResponse : JSValue) (st : State) :
  get_prop updatedSnippet "status" = Returned (JStr "ready") ->
  exists resp st',
    quiz_block P snippetId updatedSnippet llmResponse st = (Returned resp, st')
    /\ ready_response resp.
Proof.
  intros Hready.
  assert (Hgood : forall items,
             ready_response
               (json_response P 200 (JObj [("snippet", updatedSnippet); ("quizzes", JArr items)]))).
  { intros items; split; [reflexivity |]; exists updatedSnippet, items; auto. }
  unfold quiz_block, try_catch, bind.
  destruct (run P (delete_quizzes snippetId) st) as [[r0|e0] st0];
    [| unfold console_error, ret; simpl; eauto].
  unfold lift; destruct (quizInserts snippetId llmResponse) as [rows|e1] eqn:Hrows;
    [| unfold console_error, ret; simpl; eauto].
  destruct (run P (insert_quizzes rows) st0) as [[r|e2] st1] eqn:Hrun;
    [| unfold console_error, ret; simpl; eauto].
  destruct (error r) as [quizError|] eqn:Herr.
  - unfold console_error; simpl.
    rewrite quizzes_with_ids_spec, Hrows; simpl; unfold ret; eauto.
  - rewrite (quiz_insert_data rows st0 st1 r Hrun Herr); unfold ret; eauto.
Qed.

Lemma in_memory_response_ready (prefix : string)
      (snippetId llmResponse : JSValue) (st : State) :
  match fst ((b <- lift (in_memory_body prefix snippetId llmResponse) ;;
              ret (json_response P 200 b)) st) with
  | Returned resp => ready_response resp
  | Threw _ => True
  end.
Proof.
  unfold bind, lift.
  destruct (in_memory_body prefix snippetId llmResponse) as [b|e] eqn:Hb; simpl; [| exact I].
  apply in_memory_body_spec in Hb.
  destruct Hb as (explanation & mermaid & trace & rows & _ & _ & _ & _ & ->).
  split; [reflexivity |]; eexists _, _; split; reflexivity.
Qed.

Lemma db_block_ready (snippetId llmResponse : JSValue) (st : State) :
  match fst (db_block P snippetId llmResponse st) with
  | Returned resp => ready_response resp
  | Threw _ => True
  end.
Proof.
  unfold db_block, try_catch.
  match goal with
  | |- context [match ?m st with _ => _ end] => destruct (m st) as [[resp|e] st'] eqn:Htry
  end.
  - (* the [try] block returned *)
    simpl; revert Htry; unfold bind, lift.
    destruct (get_prop llmResponse "explanation") as [explanation|]; [| discriminate].
    destruct (get_prop llmResponse "mermaid") as [mermaid|]; [| discriminate].
    destruct (get_prop llmResponse "trace") as [trace|]; [| discriminate].
    destruct (run P (update_result snippetId explanation mermaid trace) st)
      as [[r|e] st1] eqn:Hrun; [| discriminate].
    destruct (error r) as [snippetUpdateError|] eqn:Herr.
    + unfold console_error; simpl.
      intros Htry.
      pose proof (in_memory_response_ready "temp_" snippetId llmResponse
                    (logged st1 [("Update snippet with results error:", Some snippetUpdateError)]))
        as Hmem.
      unfold bind, lift, logged in Hmem; rewrite Htry in Hmem; exact Hmem.
    + intros Htry.
      destruct (quiz_block_ready snippetId (data r) llmResponse st1
                  (result_write_ready _ _ _ _ st st1 r Hrun Herr))
        as (resp' & st2 & Hq & Hgood).
      rewrite Hq in Htry; injection Htry as <- _; exact Hgood.
  - (* the [catch] block *)
    unfold bind at 1; unfold console_error at 1; cbv beta iota.
    apply in_memory_response_ready.
Qed.

Lemma generate_and_persist_ready (snippetId : JSValue)
      (code language : string) (reading_level : option string) (st : State) :
  match fst (generate_and_persist P snippetId code language reading_level st) with
  | Returned resp => ready_response resp
  | Threw _ => True
  end.
Proof.
  unfold generate_and_persist, bind.
  destruct (callLLM_returns code language (or_default reading_level "cs1") st)
    as (llmResponse & st' & ->).
  apply db_block_ready.
Qed.

(** The outer [catch] never throws. *)
Lemma serve_catch_ready (e : JSError) (st : State) :
  exists resp st', serve_catch P e st = (Returned resp, st') /\ ready_response resp.
Proof.
  unfold serve_catch, bind, console_error, ret; simpl.
  eexists _, _; split; [reflexivity |].
  split; [reflexivity |]; eexists _, _; split; reflexivity.
Qed.

(** *** The handler *)

(** What the outer [try] block can return: a ready response, or one of the
    three refusals. *)
Lemma serve_try_outcome (req : Request) (st : State) :
  match fst (serve_try P req st) with
  | Returned resp =>
      ready_response resp
      \/ status resp = 401%Z \/ status resp = 400%Z \/ status resp = 500%Z
  | Threw _ => True
  end.
Proof.
  assert (Hgen : forall snippetId code language reading_level st0,
             match fst (generate_and_persist P snippetId code language reading_level st0) with
             | Returned resp =>
                 ready_response resp
                 \/ status resp = 401%Z \/ status resp = 400%Z \/ status resp = 500%Z
             | Threw _ => True
             end).
  { intros snippetId code language reading_level st0.
    pose proof (generate_and_persist_ready snippetId code language reading_level st0) as H.
    destruct (fst _); auto. }
  unfold serve_try, bind, lift.
  destruct (createClient P _ _) as [[]|e]; [| exact I].
  destruct (authorization req) as [authHeader|]; [| simpl; auto].
  destruct (String.eqb authHeader EmptyString); [simpl; auto |].
  destruct (getUser P _) as [[userId|]|e]; [| simpl; auto | exact I].
  destruct (body_json req) as [[snippet_id title language code reading_level]|e]; [| exact I].
  destruct (negb (truthy_string code) || negb (truthy_string language)); [simpl; auto |].
  destruct (truthy_string snippet_id).
  - destruct (run P _ st) as [[r|e] st1]; [| exact I].
    destruct (error r); [unfold console_error, ret; simpl; auto | apply Hgen].
  - destruct (run P _ st) as [[r|e] st1]; [| exact I].
    destruct (_ || _); [unfold console_error, ret; simpl; auto |].
    destruct (get_prop (data r) "id"); [apply Hgen | exact I].
Qed.

(** The handler always answers. *)
Lemma serve_returns (req : Request) (st : State) :
  exists resp st', serve P req st = (Returned resp, st').
Proof.
  unfold serve; destruct (String.eqb (method req) "OPTIONS"); [unfold ret; eauto |].
  unfold try_catch; destruct (serve_try P req st) as [[resp|e] st']; [eauto |].
  destruct (serve_catch_ready e st') as (resp & st'' & -> & _); eauto.
Qed.

(** The handler on the update path: once the checks are passed and the
    update to pending reported no error, its answer is the one of the
    persistence block for the bundle that [callLLM] returned. *)
Lemma serve_persists_named_snippet
      (req : Request) (userId snippetId : string) (ttl level : option string)
      (lang src : string) (st st0 st1 st2 : State)
      (r0 : QueryResult) (llmResponse : JSValue) (resp : Response) :
  passes_checks P req userId
                {| snippet_id := Some snippetId; title := ttl; language := Some lang;
                   code := Some src; reading_level := level |} ->
  snippetId <> EmptyString ->
  createClient P (env_get P "SUPABASE_URL") (env_get P "SUPABASE_SERVICE_ROLE_KEY")
  = Returned tt ->
  run P (update_pending snippetId userId ttl lang src) st = (Returned r0, st0) ->
  error r0 = None ->
  callLLM P src lang (or_default level "cs1") st0 = (Returned llmResponse, st1) ->
  db_block P (JStr snippetId) llmResponse st1 = (Returned resp, st2) ->
  serve P req st = (Returned resp, st2).
Proof.
  intros (Hm & (authHeader & Ha & Hne & Hu) & Hb & Hcode & Hlang) Hsid Hclient Hrun Herr Hllm Hdb.
  unfold serve.
  destruct (String.eqb_spec (method req) "OPTIONS") as [|_]; [contradiction |].
  unfold try_catch, serve_try, bind, lift.
  rewrite Hclient, Ha.
  destruct (String.eqb_spec authHeader EmptyString) as [|_]; [contradiction |].
  rewrite Hu, Hb.
  cbn [snippet_id title language code] in Hcode, Hlang.
  rewrite Hcode, Hlang; cbn [negb orb].
  assert (Hs : or_default (Some src) EmptyString = src).
  { unfold truthy_string in Hcode; simpl in *. now destruct (String.eqb src EmptyString). }
  assert (Hl : or_default (Some lang) EmptyString = lang).
  { unfold truthy_string in Hlang; simpl in *. now destruct (String.eqb lang EmptyString). }
  assert (Hi : truthy_string (Some snippetId) = true
               /\ or_default (Some snippetId) EmptyString = snippetId).
  { unfold truthy_string; simpl.
    destruct (String.eqb_spec snippetId EmptyString); [contradiction | auto]. }
  destruct Hi as [Hi1 Hi2]; rewrite Hi1, Hi2, Hs, Hl, Hrun, Herr.
  unfold generate_and_persist, bind; rewrite Hllm, Hdb; reflexivity.
Qed.

(** After the checks: the answer is a ready response, unless the write
    that identifies the snippet failed. *)
Lemma serve_ready_after_checks
      (req : Request) (userId : string) (parsed : ExplainRequest) (st : State) :
  passes_checks P req userId parsed ->
  exists resp st',
    serve P req st = (Returned resp, st')
    /\ (ready_response resp
        \/ (status resp = 500%Z
            /\ pending_write_failed parsed (fst (run P (pending_write userId parsed) st)))).
Proof.
  intros (Hm & (authHeader & Ha & Hne & Hu) & Hb & Hcode & Hlang).
  assert (Hcatch : forall (Q : Prop) e st0,
             exists resp st',
               serve_catch P e st0 = (Returned resp, st')
               /\ (ready_response resp \/ (status resp = 500%Z /\ Q))).
  { intros Q e st0; destruct (serve_catch_ready e st0) as (resp & st' & Hs & Hr).
    exists resp, st'; split; [exact Hs | now left]. }
  assert (Hgen : forall (Q : Prop) snippetId code language reading_level st0,
             exists resp st',
               try_catch (generate_and_persist P snippetId code language reading_level)
                         (serve_catch P) st0 = (Returned resp, st')
               /\ (ready_response resp \/ (status resp = 500%Z /\ Q))).
  { intros Q snippetId code language reading_level st0; unfold try_catch.
    pose proof (generate_and_persist_ready snippetId code language reading_level st0) as H.
    destruct (generate_and_persist _ _ _ _ _ st0) as [[resp|e] st']; simpl in H.
    - exists resp, st'; split; [reflexivity | now left].
    - apply Hcatch. }
  unfold serve.
  destruct (String.eqb_spec (method req) "OPTIONS") as [|_]; [contradiction |].
  unfold pending_write.
  destruct parsed as [sid ttl lang src level];
    cbn [snippet_id title language code] in *.
  unfold try_catch at 1, serve_try, bind, lift.
  destruct (createClient P _ _) as [[]|e]; [| apply Hcatch].
  rewrite Ha.
  destruct (String.eqb_spec authHeader EmptyString) as [|_]; [contradiction |].
  rewrite Hu, Hb, Hcode, Hlang; cbn [negb orb].
  destruct (truthy_string sid) eqn:Hsid.
  - destruct (run P _ st) as [[r|e] st1] eqn:Hrun; [| apply Hcatch].
    destruct (error r) as [updateError|] eqn:Herr.
    + unfold console_error, ret; simpl.
      eexists _, _; split; [reflexivity |]; right; split; [reflexivity |].
      exists r; split; [reflexivity | left; congruence].
    + apply Hgen.
  - destruct (run P _ st) as [[r|e] st1] eqn:Hrun; [| apply Hcatch].
    destruct (match error r with Some _ => true | None => false end || negb (truthy (data r)))
             eqn:Hfail.
    + unfold console_error, ret; simpl.
      eexists _, _; split; [reflexivity |]; right; split; [reflexivity |].
      exists r; split; [reflexivity |].
      destruct (error r); [left; discriminate |].
      right; split; [exact Hsid |]; simpl in Hfail.
      now destruct (truthy (data r)).
    + destruct (get_prop (data r) "id") as [snippetId|e]; [apply Hgen | apply Hcatch].
Qed.

(** C10. The handler always answers. Apart from the answer to a preflight,
    which has no body, an answer with status 200 is a ready response: it
    has a body [{ snippet, quizzes }] whose [snippet.status] is ["ready"];
    every other answer has status 401, 400 or 500. A request that passes
    the checks gets a ready response whatever fails after the write that
    identifies the snippet (the model, the result write, the quizzes, an
    exception), and status 500 only when that write failed. In particular
    the final fallback is always a ready response, and so is every answer
    of the persistence block, the ones after a failed result write
    included. So whenever an answer has status 200 and a body,
    [body.snippet.status] is ["ready"]. *)
Theorem ok_responses_report_ready (req : Request) (st : State) :
  exists resp st',
    serve P req st = (Returned resp, st')
    /\ (method req = "OPTIONS" -> status resp = 200%Z /\ body resp = None)
    /\ (method req <> "OPTIONS" ->
        ready_response resp
        \/ status resp = 401%Z \/ status resp = 400%Z \/ status resp = 500%Z)
    /\ (forall userId parsed,
           passes_checks P req userId parsed ->
           ready_response resp
           \/ (status resp = 500%Z
               /\ pending_write_failed parsed
                                       (fst (run P (pending_write userId parsed) st))))
    /\ (forall e st0,
           exists fallback st1,
             serve_catch P e st0 = (Returned fallback, st1) /\ ready_response fallback)
    /\ (forall snippetId llmResponse st0 answer st1,
           db_block P snippetId llmResponse st0 = (Returned answer, st1) ->
           ready_response answer)
    /\ (forall b, status resp = 200%Z -> body resp = Some b ->
                  snippet_status b = Returned (JStr "ready")).
Proof.
  assert (Hready : forall resp b, ready_response resp -> body resp = Some b ->
                                  snippet_status b = Returned (JStr "ready")).
  { intros resp b (_ & snippet & items & Hb & Hs) Hbody.
    rewrite Hb in Hbody; injection Hbody as <-; exact Hs. }
  assert (Hanswer : exists resp st',
             serve P req st = (Returned resp, st')
             /\ (method req = "OPTIONS" -> status resp = 200%Z /\ body resp = None)
             /\ (method req <> "OPTIONS" ->
                 ready_response resp
                 \/ status resp = 401%Z \/ status resp = 400%Z \/ status resp = 500%Z)).
  { unfold serve; destruct (String.eqb_spec (method req) "OPTIONS") as [Hm | Hm].
    - unfold ret; eexists _, _; split; [reflexivity |].
      split; [intros _; split; reflexivity | intros H; contradiction].
    - unfold try_catch.
      pose proof (serve_try_outcome req st) as Hout.
      destruct (serve_try P req st) as [[resp|e] st']; simpl in Hout.
      + exists resp, st'; split; [reflexivity |].
        split; [intros H; contradiction | intros _; exact Hout].
      + destruct (serve_catch_ready e st') as (resp & st'' & -> & Hr).
        exists resp, st''; split; [reflexivity |].
        split; [intros H; contradiction | intros _; now left]. }
  destruct Hanswer as (resp & st' & Hs & Hpre & Hout).
  exists resp, st'; split; [exact Hs |].
  split; [exact Hpre |]. split; [exact Hout |]. split; [| split; [| split]].
  - intros userId parsed Hp.
    destruct (serve_ready_after_checks req userId parsed st Hp) as (resp0 & st0 & Hs0 & H).
    rewrite Hs in Hs0; injection Hs0 as <- _; exact H.
  - intros e st0; apply serve_catch_ready.
  - intros snippetId llmResponse st0 answer st1 Hdb.
    pose proof (db_block_ready snippetId llmResponse st0) as H.
    rewrite Hdb in H; exact H.
  - intros b H200 Hbody.
    destruct (String.eqb_spec (method req) "OPTIONS") as [Hm | Hm].
    + destruct (Hpre Hm) as [_ Hnone]; rewrite Hnone in Hbody; discriminate.
    + destruct (Hout Hm) as [Hr | [H | [H | H]]];
        [now apply (Hready resp) | rewrite H in H200; discriminate ..].
Qed.

Lemma ready_is_content (resp : Response) :
  ready_response resp -> status resp = 200%Z /\ content_body (body resp).
Proof.
  intros (H200 & snippet & items & Hb & _); split; [exact H200 |].
  exists snippet, items; exact Hb.
Qed.

(** C2, as amended. A request that passes the checks is answered with
    status 200 and a body [{ snippet, quizzes }], or with status 500; the
    latter only when the write that identifies the snippet (the update to
    pending, or the insertion) reports an error or yields no row. No
    failure after that write, of the store, of the model or of anything
    else, produces an error response. *)
Theorem available_after_identification
        (req : Request) (userId : string) (parsed : ExplainRequest)
        (st : State) :
  passes_checks P req userId parsed ->
  exists resp st',
    serve P req st = (Returned resp, st')
    /\ ((status resp = 200%Z /\ content_body (body resp))
        \/ (status resp = 500%Z
            /\ pending_write_failed parsed (fst (run P (pending_write userId parsed) st)))).
Proof.
  intros (Hm & (authHeader & Ha & Hne & Hu) & Hb & Hcode & Hlang).
  assert (Hcatch : forall (Q : Prop) e st0,
             exists resp st',
               serve_catch P e st0 = (Returned resp, st')
               /\ ((status resp = 200%Z /\ content_body (body resp))
                   \/ (status resp = 500%Z /\ Q))).
  { intros Q e st0; destruct (serve_catch_ready e st0) as (resp & st' & Hs & Hr).
    exists resp, st'; split; [exact Hs | left; now apply ready_is_content]. }
  assert (Hgen : forall (Q : Prop) snippetId code language reading_level st0,
             exists resp st',
               try_catch (generate_and_persist P snippetId code language reading_level)
                         (serve_catch P) st0 = (Returned resp, st')
               /\ ((status resp = 200%Z /\ content_body (body resp))
                   \/ (status resp = 500%Z /\ Q))).
  { intros Q snippetId code language reading_level st0; unfold try_catch.
    pose proof (generate_and_persist_ready snippetId code language reading_level st0) as H.
    destruct (generate_and_persist _ _ _ _ _ st0) as [[resp|e] st']; simpl in H.
    - exists resp, st'; split; [reflexivity | left; now apply ready_is_content].
    - apply Hcatch. }
  unfold serve.
  destruct (String.eqb_spec (method req) "OPTIONS") as [|_]; [contradiction |].
  unfold pending_write.
  destruct parsed as [sid ttl lang src level];
    cbn [snippet_id title language code] in *.
  unfold try_catch at 1, serve_try, bind, lift.
  destruct (createClient P _ _) as [[]|e]; [| apply Hcatch].
  rewrite Ha.
  destruct (String.eqb_spec authHeader EmptyString) as [|_]; [contradiction |].
  rewrite Hu, Hb, Hcode, Hlang; cbn [negb orb].
  destruct (truthy_string sid) eqn:Hsid.
  - destruct (run P _ st) as [[r|e] st1] eqn:Hrun; [| apply Hcatch].
    destruct (error r) as [updateError|] eqn:Herr.
    + unfold console_error, ret; simpl.
      eexists _, _; split; [reflexivity |]; right; split; [reflexivity |].
      exists r; split; [reflexivity | left; congruence].
    + apply Hgen.
  - destruct (run P _ st) as [[r|e] st1] eqn:Hrun; [| apply Hcatch].
    destruct (match error r with Some _ => true | None => false end || negb (truthy (data r)))
             eqn:Hfail.
    + unfold console_error, ret; simpl.
      eexists _, _; split; [reflexivity |]; right; split; [reflexivity |].
      exists r; split; [reflexivity |].
      destruct (error r); [left; discriminate |].
      right; split; [exact Hsid |]; simpl in Hfail.
      now destruct (truthy (data r)).
    + destruct (get_prop (data r) "id") as [snippetId|e]; [apply Hgen | apply Hcatch].
Qed.


(** C4, as amended. After a successful result write, when the insertion of
    the quizzes reports an error, the answer pairs the updated snippet with
    the quizzes in memory under identifiers [temp_<index>]; when the
    deletion or the insertion throws, it pairs the updated snippet with an
    empty list of quizzes. *)
Theorem quiz_replace_failure
        (snippetId : JSValue) (bundle : list (string * JSValue))
        (st st1 : State) (r : QueryResult) (threw : bool) :
  run P (update_result snippetId (assoc "explanation" bundle) (assoc "mermaid" bundle)
                       (assoc "trace" bundle)) st = (Returned r, st1) ->
  error r = None ->
  quiz_replace_fails P snippetId (JObj bundle) threw ->
  exists resp st' items,
    db_block P snippetId (JObj bundle) st = (Returned resp, st')
    /\ status resp = 200%Z
    /\ body resp = Some (JObj [("snippet", data r); ("quizzes", JArr items)])
    /\ (threw = true -> items = [])
    /\ (threw = false ->
        exists rows,
          quizInserts snippetId (JObj bundle) = Returned rows
          /\ items = with_ids "temp_" rows 0
          /\ quiz_ids (body resp) = temp_ids (List.length rows)).
Proof.
  intros Hrun Herr Hfail.
  unfold db_block, try_catch at 1, bind at 1 2 3 4, lift at 1 2 3; cbn [get_prop].
  rewrite Hrun, Herr.
  assert (Hdel : (forall e', store_fault P (delete_quizzes snippetId) <> Rejects e') ->
                 exists r0 st2, run P (delete_quizzes snippetId) st1 = (Returned r0, st2)
                                /\ store_fault P (delete_quizzes snippetId) <> Rejects unavailable).
  { intros Hno; destruct (run P (delete_quizzes snippetId) st1) as [[r0|e0] st2] eqn:E.
    - eauto.
    - apply run_throw_keeps_store in E; destruct E as [_ E]; now apply Hno in E. }
  destruct Hfail as [rows e Hno Hrows Hins | e Hdelete | rows e Hno Hrows Hins].
  - (* the insertion reports an error *)
    destruct (Hdel Hno) as (r0 & st2 & Hd & _).
    unfold quiz_block, try_catch, bind, lift; rewrite Hd, Hrows.
    unfold run at 1; rewrite Hins; cbn [error].
    unfold console_error; cbv beta iota.
    rewrite quizzes_with_ids_spec, Hrows; cbn [ebind]; unfold ret, json_response.
    eexists _, _, _; split; [reflexivity |].
    cbn [status body quiz_ids assoc String.eqb Ascii.eqb Bool.eqb].
    split; [reflexivity |]; split; [reflexivity |]; split; [discriminate |].
    intros _; exists rows; split; [reflexivity |]; split; [reflexivity |].
    apply with_ids_ids.
  - (* the deletion throws *)
    unfold quiz_block, try_catch, bind.
    unfold run at 1; rewrite Hdelete.
    unfold console_error, ret, json_response; cbv beta iota.
    eexists _, _, _; split; [reflexivity |].
    cbn [status body]; split; [reflexivity |]; split; [reflexivity |].
    split; [reflexivity | discriminate].
  - (* the insertion throws *)
    destruct (Hdel Hno) as (r0 & st2 & Hd & _).
    unfold quiz_block, try_catch, bind, lift; rewrite Hd, Hrows.
    unfold run at 1; rewrite Hins.
    unfold console_error, ret, json_response; cbv beta iota.
    eexists _, _, _; split; [reflexivity |].
    cbn [status body]; split; [reflexivity |]; split; [reflexivity |].
    split; [reflexivity | discriminate].
Qed.

End Handler.

(** ** Witnesses and counterexamples of the handler *)

Lemma available_after_identification_witness :
  exists resp st',
    serve (with_faults dev_platform quiz_insert_throws)
          (example_request "alice-token" (Some "s1")) (start alice_store)
    = (Returned resp, st')
    /\ ((status resp = 200%Z /\ content_body (body resp))
        \/ (status resp = 500%Z
            /\ pending_write_failed
                 {| snippet_id := Some "s1"; title := None; language := Some "python";
                    code := Some example_code; reading_level := Some "12" |}
                 (fst (run (with_faults dev_platform quiz_insert_throws)
                           (pending_write "alice"
                              {| snippet_id := Some "s1"; title := None;
                                 language := Some "python"; code := Some example_code;
                                 reading_level := Some "12" |})
                           (start alice_store))))).
Proof.
  apply (available_after_identification
           (with_faults dev_platform quiz_insert_throws)
           (example_request "alice-token" (Some "s1")) "alice").
  split; [discriminate |]. split.
  - exists "Bearer alice-token"; split; [reflexivity |]; split; [discriminate | reflexivity].
  - split; [reflexivity |]; split; reflexivity.
Defined.

(** C2, counterexample. A request with a valid token, a code and a
    language is answered with status 500 when the store answers the update
    to pending with an error. *)
Lemma failed_identification_is_an_error :
  passes_checks (with_faults dev_platform pending_update_fails)
                (example_request "alice-token" (Some "s1")) "alice"
                {| snippet_id := Some "s1"; title := None; language := Some "python";
                   code := Some example_code; reading_level := Some "12" |}
  /\ fst (serve (with_faults dev_platform pending_update_fails)
                (example_request "alice-token" (Some "s1")) (start alice_store))
     = Returned (json_response (with_faults dev_platform pending_update_fails) 500
                   (error_body "Failed to update snippet"))
  /\ journal (snd (serve (with_faults dev_platform pending_update_fails)
                         (example_request "alice-token" (Some "s1")) (start alice_store)))
     = [("snippets", "update", "error")].
Proof.
  split; [| split; reflexivity].
  split; [discriminate |]. split.
  - exists "Bearer alice-token"; split; [reflexivity |]; split; [discriminate | reflexivity].
  - split; [reflexivity |]; split; reflexivity.
Qed.



Lemma quiz_replace_failure_witness :
  exists resp st' items,
    db_block (with_faults dev_platform quiz_insert_fails) (JStr "s1")
             (js_of_response (mock_response "python")) (start alice_store)
    = (Returned resp, st')
    /\ status resp = 200%Z
    /\ (exists updatedSnippet,
           body resp = Some (JObj [("snippet", updatedSnippet); ("quizzes", JArr items)])
           /\ get_prop updatedSnippet "owner" = Returned (JStr "alice")
           /\ get_prop updatedSnippet "status" = Returned (JStr "ready"))
    /\ quiz_ids (body resp) = [JStr "temp_0"; JStr "temp_1"; JStr "temp_2"].
Proof.
  destruct (quiz_replace_failure
              (with_faults dev_platform quiz_insert_fails) (JStr "s1")
              [("explanation", JStr (explanation (mock_response "python")));
               ("mermaid", JStr (mermaid (mock_response "python")));
               ("trace", js_of_trace (trace (mock_response "python")));
               ("quizzes", JArr (map js_of_quiz (quizzes (mock_response "python"))))]
              (start alice_store) _ _ false eq_refl eq_refl)
    as (resp & st' & items & Hrun & H200 & Hbody & _ & Htemp).
  - eapply insert_reports_error; [intros e'; discriminate | reflexivity | reflexivity].
  - destruct (Htemp eq_refl) as (rows & Hrows & _ & Hids).
    exists resp, st', items; split; [exact Hrun |]; split; [exact H200 |].
    split; [eexists; split; [exact Hbody |]; split; reflexivity |].
    rewrite Hids.
    injection Hrows as <-; reflexivity.
Defined.

(** C4, counterexample. The insertion of the quizzes throws after a
    successful result write: the answer carries no quiz at all. *)
Lemma thrown_quiz_insert_gives_no_quizzes :
  exists resp st' updatedSnippet,
    serve (with_faults dev_platform quiz_insert_throws)
          (example_request "alice-token" (Some "s1")) (start alice_store)
    = (Returned resp, st')
    /\ journal st' = [("snippets", "update", "ok"); ("snippets", "update", "ok");
                      ("quizzes", "delete", "ok"); ("quizzes", "insert", "thrown")]
    /\ status resp = 200%Z
    /\ body resp = Some (JObj [("snippet", updatedSnippet); ("quizzes", JArr [])])
    /\ quiz_rows (store st') = [].
Proof.
  destruct (serve _ _ _) as [o st'] eqn:E; vm_compute in E; injection E as <- <-.
  eexists _, _, _; split; [reflexivity |].
  split; [reflexivity |]. split; [reflexivity |]. split; reflexivity.
Qed.

(** C5, on the code. Mallory sends a request that names Alice's snippet.
    The update to pending, filtered by owner, touches nothing and reports
    no error; the result write, filtered by id alone, overwrites Alice's
    explanation; her quiz is deleted and three new ones are stored under
    her snippet; and the answer hands Alice's row, code included, to
    Mallory. *)
Theorem foreign_snippet_overwritten :
  exists resp st' row,
    serve dev_platform (example_request "mallory-token" (Some "s1")) (start alice_store)
    = (Returned resp, st')
    /\ getUser dev_platform "mallory-token" = Returned (Some "mallory")
    /\ assoc "owner" alice_snippet = JStr "alice"
    /\ snippet_rows (store st') = [row]
    /\ assoc "id" row = JStr "s1"
    /\ assoc "owner" row = JStr "alice"
    /\ assoc "explanation" alice_snippet = JStr "Alice's explanation"
    /\ assoc "explanation" row = JStr (explanation (mock_response "python"))
    /\ ~ In alice_quiz (quiz_rows (store st'))
    /\ map (assoc "snippet_id") (quiz_rows (store st')) = [JStr "s1"; JStr "s1"; JStr "s1"]
    /\ status resp = 200%Z
    /\ body resp
       = Some (JObj [("snippet", JObj row);
                     ("quizzes", JArr (map JObj (quiz_rows (store st'))))])
    /\ assoc "code" row = JStr "salary = 4200".
Proof.
  destruct (serve _ _ _) as [o st'] eqn:E; vm_compute in E; injection E as <- <-.
  eexists _, _, _; split; [reflexivity |].
  repeat (split; [vm_compute; reflexivity |]).
  split; [| repeat (split; [vm_compute; reflexivity |]); vm_compute; reflexivity].
  cbv - [In]; simpl; intuition discriminate.
Qed.

(** The response says [ready] while the row it speaks of is still
    [pending]: a new snippet whose result write fails. *)
Example ready_reported_pending_stored :
  exists resp st' row,
    serve (with_faults dev_platform result_write_fails)
          (example_request "alice-token" None) (start alice_store)
    = (Returned resp, st')
    /\ (exists b, body resp = Some b /\ snippet_status b = Returned (JStr "ready"))
    /\ snippet_rows (store st') = [alice_snippet; row]
    /\ assoc "status" row = JStr "pending".
Proof.
  destruct (serve _ _ _) as [o st'] eqn:E; vm_compute in E; injection E as <- <-.
  eexists _, _, _; split; [reflexivity |].
  split; [eexists; split; reflexivity |]; split; reflexivity.
Qed.

(** A failed model call (HTTP 500) yields the heuristic bundle with the
    loop clause of the child register. *)
Example http_500_falls_back :
  fst (callLLM (with_model dev_platform
                  (Returned {| ok := false; http_status := 500;
                               json := Threw (SyntaxError "Unexpected end of JSON input") |}))
               example_code "python" "12" (start alice_store))
  = Returned (js_of_response (generateFallbackResponse example_code "python" "12"))
  /\ hasLoops example_code = true
  /\ explanation (generateFallbackResponse example_code "python" "12")
     = base_12 "python" ++ loops_12.
Proof. repeat split. Qed.

(** A preflight is answered with no body. *)
Example preflight_has_no_body :
  fst (serve dev_platform {| method := "OPTIONS"; authorization := None;
                             body_json := Threw (SyntaxError "Unexpected end of JSON input") |}
             (start alice_store))
  = Returned {| status := 200; headers := example_cors; body := None |}.
Proof. reflexivity. Qed.

(** With a healthy store the quizzes of the answer carry the identifiers
    the store gave them. *)
Example success_returns_store_identifiers :
  exists resp st',
    serve dev_platform (example_request "alice-token" (Some "s1")) (start alice_store)
    = (Returned resp, st')
    /\ journal st' = [("snippets", "update", "ok"); ("snippets", "update", "ok");
                      ("quizzes", "delete", "ok"); ("quizzes", "insert", "ok")]
    /\ quiz_ids (body resp) = [JStr "row-0"; JStr "row-1"; JStr "row-2"]
    /\ map (assoc "id") (quiz_rows (store st')) = quiz_ids (body resp).
Proof.
  destruct (serve _ _ _) as [o st'] eqn:E; vm_compute in E; injection E as <- <-.
  eexists _, _; split; [reflexivity |]; split; [reflexivity |]; split; reflexivity.
Qed.

(** The same request when the store refuses the result write: temporary
    identifiers, and Alice's quiz still in place. *)
Example result_write_failure_through_serve :
  exists resp st',
    serve (with_faults dev_platform result_write_fails)
          (example_request "alice-token" (Some "s1")) (start alice_store)
    = (Returned resp, st')
    /\ journal st' = [("snippets", "update", "ok"); ("snippets", "update", "error")]
    /\ quiz_ids (body resp) = temp_ids 3
    /\ quiz_rows (store st') = [alice_quiz].
Proof.
  destruct (serve _ _ _) as [o st'] eqn:E; vm_compute in E; injection E as <- <-.
  eexists _, _; split; [reflexivity |]; split; [reflexivity |]; split; reflexivity.
Qed.

(** * Further properties *)

(** ** Further properties of the keyword tests *)

Lemma word_char_canonicalize (c : ascii) :
  is_word_char (canonicalize c) = is_word_char c.
Proof. destruct c as [[] [] [] [] [] [] [] []]; reflexivity. Qed.

Lemma canonicalize_idempotent (c : ascii) :
  canonicalize (canonicalize c) = canonicalize c.
Proof. destruct c as [[] [] [] [] [] [] [] []]; reflexivity. Qed.

Lemma word_boundary_uppercase (p : bool) (s : string) :
  word_boundary p (ascii_uppercase s) = word_boundary p s.
Proof.
  destruct s; unfold word_boundary; cbn [ascii_uppercase];
    [reflexivity | now rewrite word_char_canonicalize].
Qed.

Lemma match_literal_uppercase (kw : string) (p : bool) (s : string) :
  match_literal kw p (ascii_uppercase s)
  = match match_literal kw p s with
    | Some (l, rest) => Some (l, ascii_uppercase rest)
    | None => None
    end.
Proof.
  revert p s; induction kw as [|k kw IH]; intros p s; cbn [match_literal]; [reflexivity |].
  destruct s as [|c s]; cbn [ascii_uppercase match_literal]; [reflexivity |].
  rewrite canonicalize_idempotent, word_char_canonicalize.
  destruct (Ascii.eqb (canonicalize k) (canonicalize c)); [apply IH | reflexivity].
Qed.

Lemma match_here_uppercase (kws : list string) (p : bool) (s : string) :
  match_here kws p (ascii_uppercase s) = match_here kws p s.
Proof.
  unfold match_here; rewrite word_boundary_uppercase; f_equal.
  induction kws as [|kw kws IH]; cbn [existsb]; [reflexivity |].
  rewrite IH, match_literal_uppercase.
  destruct (match_literal kw p s) as [[l rest]|]; [| reflexivity].
  now rewrite word_boundary_uppercase.
Qed.

Lemma test_from_uppercase (kws : list string) (p : bool) (s : string) :
  test_from kws p (ascii_uppercase s) = test_from kws p s.
Proof.
  revert p; induction s as [|c s IH]; intros p.
  - reflexivity.
  - pose proof (match_here_uppercase kws p (String c s)) as Hm.
    cbn [ascii_uppercase] in Hm; cbn [ascii_uppercase test_from].
    now rewrite Hm, word_char_canonicalize, IH.
Qed.

(** The bundle depends on the code through the three signals only. *)
Lemma bundle_by_signals (code1 code2 language readingLevel : string) :
  hasLoops code1 = hasLoops code2 ->
  hasConditionals code1 = hasConditionals code2 ->
  hasFunctions code1 = hasFunctions code2 ->
  generateFallbackResponse code1 language readingLevel
  = generateFallbackResponse code2 language readingLevel.
Proof. intros Hl Hc Hf; unfold generateFallbackResponse; now rewrite Hl, Hc, Hf. Qed.

(** X1. The case of the ASCII letters of the code is immaterial: two codes
    that differ only in the case of letters [a] to [z] get the same three
    signals and the same bundle. Letters outside ASCII are not folded. *)
Theorem case_of_code_is_immaterial (code1 code2 language readingLevel : string) :
  ascii_uppercase code1 = ascii_uppercase code2 ->
  hasLoops code1 = hasLoops code2
  /\ hasConditionals code1 = hasConditionals code2
  /\ hasFunctions code1 = hasFunctions code2
  /\ generateFallbackResponse code1 language readingLevel
     = generateFallbackResponse code2 language readingLevel.
Proof.
  intros H.
  assert (Hs : forall kws, regex_test kws code1 = regex_test kws code2).
  { intros kws; unfold regex_test.
    now rewrite <- (test_from_uppercase kws false code1), H, test_from_uppercase. }
  repeat split; try apply Hs.
  apply bundle_by_signals; apply Hs.
Qed.

Lemma case_of_code_is_immaterial_witness :
  hasLoops "WHILE x: IF y: Def" = hasLoops "while X: if Y: DEF"
  /\ hasConditionals "WHILE x: IF y: Def" = hasConditionals "while X: if Y: DEF"
  /\ hasFunctions "WHILE x: IF y: Def" = hasFunctions "while X: if Y: DEF"
  /\ generateFallbackResponse "WHILE x: IF y: Def" "basic" "15"
     = generateFallbackResponse "while X: if Y: DEF" "basic" "15".
Proof.
  exact (case_of_code_is_immaterial "WHILE x: IF y: Def" "while X: if Y: DEF" "basic" "15"
           eq_refl).
Defined.

Lemma word_char_of_equal_fold (k c : ascii) :
  Ascii.eqb (canonicalize k) (canonicalize c) = true -> is_word_char k = is_word_char c.
Proof.
  intros H; apply Ascii.eqb_eq in H.
  now rewrite <- (word_char_canonicalize k), H, word_char_canonicalize.
Qed.

(** Skipping a text before the match. *)
Lemma test_from_skip (kws : list string) (p : bool) (pre rest : string) :
  test_from kws (prev_after p pre) rest = true ->
  test_from kws p (pre ++ rest) = true.
Proof.
  revert p; induction pre as [|c pre IH]; intros p H; [exact H |].
  cbn [append test_from]; rewrite (IH _ H); apply orb_true_r.
Qed.

Lemma match_literal_itself (kw : string) (p : bool) (post : string) :
  match_literal kw p (kw ++ post) = Some (prev_after p kw, post).
Proof.
  revert p; induction kw as [|k kw IH]; intros p; cbn [append match_literal prev_after];
    [reflexivity |].
  now rewrite Ascii.eqb_refl, IH.
Qed.

Lemma prev_after_word (kw : string) (p : bool) :
  all_word kw = true -> kw <> EmptyString -> prev_after p kw = true.
Proof.
  revert p; induction kw as [|k kw IH]; intros p Hw Hne; [contradiction |].
  cbn [all_word] in Hw; apply andb_true_iff in Hw; destruct Hw as [Hk Hw].
  cbn [prev_after]; rewrite Hk.
  destruct kw as [|k' kw']; [reflexivity | apply IH; [exact Hw | discriminate]].
Qed.

Lemma whole_word_matches (kws : list string) (kw pre post : string) :
  In kw kws -> all_word kw = true -> kw <> EmptyString ->
  prev_after false pre = false ->
  starts_with_word post = false ->
  regex_test kws (pre ++ kw ++ post) = true.
Proof.
  intros Hin Hw Hne Hpre Hpost.
  unfold regex_test; apply test_from_skip; rewrite Hpre.
  assert (Hhere : match_here kws false (kw ++ post) = true).
  { unfold match_here; apply andb_true_iff; split.
    - destruct kw as [|k kw']; [contradiction |].
      cbn [all_word] in Hw; apply andb_true_iff in Hw; destruct Hw as [Hk _].
      unfold word_boundary; cbn [append]; now rewrite Hk.
    - apply existsb_exists; exists kw; split; [exact Hin |].
      rewrite match_literal_itself, (prev_after_word kw false Hw Hne).
      unfold word_boundary; fold (starts_with_word post); now rewrite Hpost. }
  destruct (kw ++ post); cbn [test_from]; now rewrite Hhere.
Qed.

Lemma keywords_are_words :
  forall kw, In kw (loop_keywords ++ conditional_keywords ++ function_keywords)%list ->
             all_word kw = true /\ kw <> EmptyString.
Proof.
  intros kw H; cbv [loop_keywords conditional_keywords function_keywords app In] in H.
  repeat (destruct H as [<- | H]; [split; [reflexivity | discriminate] |]).
  contradiction.
Qed.

(** X2. A keyword standing as a word of its own is detected wherever it
    stands: what precedes it ends with no word character (or is empty) and
    what follows begins with none (or is empty). *)
Theorem keyword_between_separators (kw pre post : string) :
  prev_after false pre = false ->
  starts_with_word post = false ->
  (In kw loop_keywords -> hasLoops (pre ++ kw ++ post) = true)
  /\ (In kw conditional_keywords -> hasConditionals (pre ++ kw ++ post) = true)
  /\ (In kw function_keywords -> hasFunctions (pre ++ kw ++ post) = true).
Proof.
  intros Hpre Hpost.
  repeat split; intros Hin;
    (apply whole_word_matches; [exact Hin | | | exact Hpre | exact Hpost];
     apply keywords_are_words; repeat (apply in_or_app; auto; right); apply in_or_app; auto).
Qed.

Lemma keyword_between_separators_witness :
  hasLoops ("total = 0;" ++ "while" ++ "(total < 9) total++;") = true
  /\ hasConditionals ("total = 0;" ++ "while" ++ "(total < 9) total++;") = false.
Proof.
  split; [| reflexivity].
  exact (proj1 (keyword_between_separators "while" "total = 0;" "(total < 9) total++;"
                  eq_refl eq_refl)
               (or_intror (or_introl eq_refl))).
Defined.

Lemma word_boundary_before_separator (p : bool) (a : string) (c : ascii) (b : string) :
  is_word_char c = false ->
  word_boundary p (a ++ String c b) = word_boundary p a.
Proof.
  intros Hc; destruct a; unfold word_boundary; cbn [append]; [now rewrite Hc | reflexivity].
Qed.

Lemma match_literal_before_separator
      (kw : string) (p : bool) (a : string) (c : ascii) (b : string) :
  all_word kw = true -> is_word_char c = false ->
  match_literal kw p (a ++ String c b)
  = match match_literal kw p a with
    | Some (l, rest) => Some (l, rest ++ String c b)
    | None => None
    end.
Proof.
  intros Hw Hc; revert p a Hw; induction kw as [|k kw IH]; intros p a Hw;
    cbn [match_literal]; [reflexivity |].
  cbn [all_word] in Hw; apply andb_true_iff in Hw; destruct Hw as [Hk Hw].
  destruct a as [|x a]; cbn [append].
  - destruct (Ascii.eqb (canonicalize k) (canonicalize c)) eqn:E; [| reflexivity].
    apply word_char_of_equal_fold in E; congruence.
  - destruct (Ascii.eqb (canonicalize k) (canonicalize x)); [now apply IH | reflexivity].
Qed.

Lemma match_here_before_separator
      (kws : list string) (p : bool) (a : string) (c : ascii) (b : string) :
  forallb all_word kws = true -> is_word_char c = false ->
  match_here kws p (a ++ String c b) = match_here kws p a.
Proof.
  intros Hw Hc; unfold match_here.
  rewrite (word_boundary_before_separator p a c b Hc); f_equal.
  induction kws as [|kw kws IH]; cbn [existsb]; [reflexivity |].
  cbn [forallb] in Hw; apply andb_true_iff in Hw; destruct Hw as [Hkw Hw].
  rewrite (IH Hw), (match_literal_before_separator kw p a c b Hkw Hc).
  destruct (match_literal kw p a) as [[l rest]|]; [| reflexivity].
  now rewrite (word_boundary_before_separator l rest c b Hc).
Qed.

(** Across a separator the test is the disjunction of the tests of the
    two sides. *)
Lemma test_from_join (kws : list string) (p : bool) (a : string) (c : ascii) (b : string) :
  forallb all_word kws = true -> is_word_char c = false ->
  test_from kws p (a ++ String c b) = test_from kws p a || test_from kws false b.
Proof.
  intros Hw Hc; revert p; induction a as [|x a IH]; intros p.
  - pose proof (match_here_before_separator kws p EmptyString c b Hw Hc) as Hm.
    cbn [append] in Hm; cbn [append test_from].
    now rewrite Hm, Hc, orb_false_r.
  - pose proof (match_here_before_separator kws p (String x a) c b Hw Hc) as Hm.
    cbn [append] in Hm; cbn [append test_from].
    now rewrite Hm, IH, orb_assoc.
Qed.

(** X3. Two pieces of code joined by a character that is no word character
    (a line feed, a space, a semicolon) have each signal exactly when one
    of the pieces has it; in particular, adding code after such a separator
    never removes a signal. *)
Theorem signals_of_joined_code (a b : string) (separator : ascii) :
  is_word_char separator = false ->
  hasLoops (a ++ String separator b) = hasLoops a || hasLoops b
  /\ hasConditionals (a ++ String separator b) = hasConditionals a || hasConditionals b
  /\ hasFunctions (a ++ String separator b) = hasFunctions a || hasFunctions b.
Proof.
  intros Hc; repeat split; apply test_from_join; (reflexivity || exact Hc).
Qed.

Lemma signals_of_joined_code_witness :
  hasLoops ("if (x) y = 1" ++ nl ++ "for (;;) {}")
  = hasLoops "if (x) y = 1" || hasLoops "for (;;) {}"
  /\ hasConditionals ("if (x) y = 1" ++ nl ++ "for (;;) {}")
     = hasConditionals "if (x) y = 1" || hasConditionals "for (;;) {}"
  /\ hasFunctions ("if (x) y = 1" ++ nl ++ "for (;;) {}")
     = hasFunctions "if (x) y = 1" || hasFunctions "for (;;) {}".
Proof.
  exact (signals_of_joined_code "if (x) y = 1" "for (;;) {}" (ascii_of_nat 10) eq_refl).
Defined.

(** Inside a run of word characters nothing matches. *)
Lemma test_inside_word (kws : list string) (s : string) :
  forallb (fun kw => negb (String.eqb kw EmptyString)) kws = true ->
  all_word s = true ->
  test_from kws true s = false.
Proof.
  intros Hne; induction s as [|c s IH]; intros Hs.
  - cbn [test_from]; rewrite orb_false_r; unfold match_here.
    apply andb_false_iff; right.
    induction kws as [|kw kws IHk]; [reflexivity |].
    cbn [forallb] in Hne; apply andb_true_iff in Hne; destruct Hne as [Hkw Hne].
    cbn [existsb]; rewrite (IHk Hne), orb_false_r.
    destruct kw; [discriminate | reflexivity].
  - cbn [all_word] in Hs; apply andb_true_iff in Hs; destruct Hs as [Hc Hs].
    cbn [test_from]; rewrite Hc, (IH Hs), orb_false_r.
    unfold match_here, word_boundary; now rewrite Hc.
Qed.

Lemma match_literal_all_word (kw : string) (p : bool) (s : string) (l : bool) (rest : string) :
  all_word s = true -> p = true \/ kw <> EmptyString ->
  match_literal kw p s = Some (l, rest) ->
  l = true /\ all_word rest = true.
Proof.
  revert p s; induction kw as [|k kw IH]; intros p s Hs Hp; cbn [match_literal].
  - intros H; injection H as <- <-; destruct Hp as [-> | Hp]; [auto | contradiction].
  - destruct s as [|c s]; [discriminate |].
    cbn [all_word] in Hs; apply andb_true_iff in Hs; destruct Hs as [Hc Hs].
    destruct (Ascii.eqb (canonicalize k) (canonicalize c)); [| discriminate].
    rewrite Hc; apply IH; auto.
Qed.

Lemma match_literal_whole (kw : string) (p : bool) (s : string) :
  match match_literal kw p s with
  | Some (_, rest) => String.eqb rest EmptyString
  | None => false
  end
  = String.eqb (ascii_uppercase kw) (ascii_uppercase s).
Proof.
  revert p s; induction kw as [|k kw IH]; intros p s; cbn [match_literal ascii_uppercase].
  - destruct s; reflexivity.
  - destruct s as [|c s]; cbn [ascii_uppercase String.eqb]; [reflexivity |].
    destruct (Ascii.eqb (canonicalize k) (canonicalize c)); [apply IH | reflexivity].
Qed.

Lemma word_boundary_after_word (rest : string) :
  all_word rest = true -> word_boundary true rest = String.eqb rest EmptyString.
Proof.
  destruct rest as [|c rest]; [reflexivity |].
  cbn [all_word]; intros H; apply andb_true_iff in H; destruct H as [Hc _].
  unfold word_boundary; now rewrite Hc.
Qed.

Lemma test_identifier (kws : list string) (s : string) :
  forallb (fun kw => negb (String.eqb kw EmptyString)) kws = true ->
  all_word s = true ->
  regex_test kws s = existsb (fun kw => String.eqb (ascii_uppercase kw) (ascii_uppercase s)) kws.
Proof.
  intros Hne Hs; unfold regex_test.
  assert (Hrest : test_from kws false s
                  = match_here kws false s).
  { destruct s as [|c s]; cbn [test_from]; [apply orb_false_r |].
    cbn [all_word] in Hs; apply andb_true_iff in Hs; destruct Hs as [Hc Hs].
    now rewrite Hc, (test_inside_word kws s Hne Hs), orb_false_r. }
  rewrite Hrest; unfold match_here.
  assert (Hex : existsb (fun kw => match match_literal kw false s with
                                   | Some (l, rest) => word_boundary l rest
                                   | None => false
                                   end) kws
                = existsb (fun kw => String.eqb (ascii_uppercase kw) (ascii_uppercase s)) kws).
  { clear Hrest; induction kws as [|kw kws IH]; [reflexivity |].
    cbn [forallb] in Hne; apply andb_true_iff in Hne; destruct Hne as [Hkw Hne].
    cbn [existsb]; rewrite (IH Hne); f_equal.
    rewrite <- (match_literal_whole kw false s).
    destruct (match_literal kw false s) as [[l rest]|] eqn:E; [| reflexivity].
    destruct (match_literal_all_word kw false s l rest Hs) as [-> Hr]; [| exact E |].
    - right; intros ->; discriminate.
    - now apply word_boundary_after_word. }
  rewrite Hex.
  destruct s as [|c s].
  - (* the empty code *)
    unfold word_boundary; cbn [xorb andb].
    clear -Hne; induction kws as [|kw kws IH]; [reflexivity |].
    cbn [forallb] in Hne; apply andb_true_iff in Hne; destruct Hne as [Hkw Hne].
    cbn [existsb]; rewrite <- (IH Hne).
    destruct kw; [discriminate | reflexivity].
  - cbn [all_word] in Hs; apply andb_true_iff in Hs; destruct Hs as [Hc _].
    unfold word_boundary; now rewrite Hc.
Qed.

(** X4. A code that is one run of word characters (an identifier such as
    [format], [define] or [information]) has a signal only if it is, up to
    letter case, one of the keywords itself: a keyword inside a longer word
    is not detected. *)
Theorem keyword_inside_word_is_ignored (code : string) :
  all_word code = true ->
  hasLoops code = existsb (fun kw => String.eqb (ascii_uppercase kw) (ascii_uppercase code)) loop_keywords
  /\ hasConditionals code
     = existsb (fun kw => String.eqb (ascii_uppercase kw) (ascii_uppercase code)) conditional_keywords
  /\ hasFunctions code
     = existsb (fun kw => String.eqb (ascii_uppercase kw) (ascii_uppercase code)) function_keywords.
Proof.
  intros H; repeat split; apply test_identifier; (reflexivity || exact H).
Qed.

Lemma keyword_inside_word_is_ignored_witness :
  hasLoops "information" = false
  /\ hasConditionals "information" = false
  /\ hasFunctions "information" = false.
Proof.
  exact (keyword_inside_word_is_ignored "information" eq_refl).
Defined.

(** ** Further properties of the fallback bundle *)

(** X5. The bundle is a function of the three signals, the register of the
    reading level and the language: reading levels of one register (so
    ["cs1"], ["pro"] and every level other than ["12"] and ["15"]) give the
    same bundle, and so do codes with the same signals. *)
Theorem bundle_by_signals_and_register
        (code1 code2 language readingLevel1 readingLevel2 : string) :
  hasLoops code1 = hasLoops code2 ->
  hasConditionals code1 = hasConditionals code2 ->
  hasFunctions code1 = hasFunctions code2 ->
  register_of readingLevel1 = register_of readingLevel2 ->
  generateFallbackResponse code1 language readingLevel1
  = generateFallbackResponse code2 language readingLevel2.
Proof.
  intros Hl Hc Hf Hr.
  rewrite (bundle_by_signals code1 code2 language readingLevel1 Hl Hc Hf).
  unfold generateFallbackResponse; unfold register_of in Hr.
  destruct (String.eqb readingLevel1 "12"), (String.eqb readingLevel2 "12");
    try discriminate; try reflexivity;
    destruct (String.eqb readingLevel1 "15"), (String.eqb readingLevel2 "15");
    try discriminate; reflexivity.
Qed.

Lemma bundle_by_signals_and_register_witness :
  generateFallbackResponse "for (;;) { if (x) f(); }" "c" "cs1"
  = generateFallbackResponse "while y: x = 1 if y else 2" "c" "pro".
Proof.
  exact (bundle_by_signals_and_register
           "for (;;) { if (x) f(); }" "while y: x = 1 if y else 2" "c" "cs1" "pro"
           eq_refl eq_refl eq_refl eq_refl).
Defined.

(** ** Further properties of callLLM *)

Lemma logged_nothing (st : State) : logged st [] = st.
Proof. destruct st; unfold logged; simpl; now rewrite app_nil_r. Qed.

Lemma logged_twice (st : State) (a b : list LogEntry) :
  logged (logged st a) b = logged st (a ++ b).
Proof. unfold logged; simpl; now rewrite app_assoc. Qed.

(** The [try] block logs at most the API error, and only when it throws. *)
Lemma callLLM_try_logs (P : Platform) (key code language readingLevel : string) (st : State) :
  exists o entries,
    callLLM_try P key code language readingLevel st = (o, logged st entries)
    /\ (List.length entries <= 1)%nat
    /\ (forall v, o = Returned v -> entries = []).
Proof.
  unfold callLLM_try, bind, lift.
  destruct (fetch P _ _) as [r|e].
  - destruct (ok r); cbn [negb].
    + destruct (json r) as [reply|e].
      * destruct (message_content reply) as [content|e].
        -- exists (JSON_parse P content), []; rewrite logged_nothing; auto.
        -- exists (Threw e), []; rewrite logged_nothing; repeat split; auto; discriminate.
      * exists (Threw e), []; rewrite logged_nothing; repeat split; auto; discriminate.
    + unfold console_error, throw; cbv beta iota.
      eexists (Threw _), [_]; repeat split; auto; discriminate.
  - exists (Threw e), []; rewrite logged_nothing; repeat split; auto; discriminate.
Qed.

(** What [callLLM] returns and logs. *)
Lemma callLLM_logs (P : Platform) (code language readingLevel : string) (st : State) :
  exists v entries,
    callLLM P code language readingLevel st = (Returned v, logged st entries)
    /\ (List.length entries <= 2)%nat.
Proof.
  unfold callLLM; destruct (negb _).
  - exists (js_of_response (mock_response language)), [].
    unfold ret; rewrite logged_nothing; auto.
  - unfold try_catch.
    destruct (callLLM_try_logs P (or_default (env_get P "OPENAI_API_KEY") EmptyString)
                code language readingLevel st) as (o & entries & -> & Hlen & _).
    destruct o as [v|e].
    + exists v, entries; split; [reflexivity | lia].
    + unfold bind, console_error, ret; cbv beta iota.
      eexists _, (entries ++ [_])%list; split.
      * rewrite <- logged_twice; reflexivity.
      * rewrite length_app; simpl; lia.
Qed.

(** X6. [callLLM] never throws, whatever the platform does: it returns a
    value, leaves the store and the list of issued queries as they were,
    and writes at most two lines to the console. *)
Theorem callLLM_never_throws
        (P : Platform) (code language readingLevel : string) (st : State) :
  exists v entries,
    callLLM P code language readingLevel st = (Returned v, logged st entries)
    /\ (List.length entries <= 2)%nat.
Proof. exact (callLLM_logs P code language readingLevel st). Qed.

(** Every failure of the call has its exception. *)
Lemma call_fails_throws (P : Platform) (request : FetchInit) :
  call_fails P request -> exists e entries, call_throws P request e entries.
Proof.
  intros [e H | r H Hok | r e H Hok Hj | r reply e H Hok Hj Hc
         | r reply content e H Hok Hj Hc Hp].
  - exists e, []; now apply request_rejects.
  - eexists _, _; now apply (status_refused P request r).
  - exists e, []; now apply (body_unparsable P request r).
  - exists e, []; now apply (content_absent P request r reply).
  - exists e, []; now apply (content_unparsable P request r reply content).
Qed.

(** X7. Every failure of the call that [callLLM] detects is logged with
    the very error that was caught: [callLLM] returns the fallback bundle,
    and the console gets what the [try] block logged followed by the line
    of the fallback carrying the exception thrown. For a request that
    rejects, a body that is not JSON, a reply without content and a content
    that is not JSON, that is the exception as it was raised; for a status
    that is no success it is the error naming the status, after a line with
    the same text. *)
Theorem detected_failure_is_logged
        (P : Platform) (code language readingLevel key : string) (st : State)
        (e : JSError) (entries : list LogEntry) :
  env_get P "OPENAI_API_KEY" = Some key ->
  key <> EmptyString ->
  call_throws P (completions_request key code language readingLevel) e entries ->
  callLLM P code language readingLevel st
  = (Returned (js_of_response (generateFallbackResponse code language readingLevel)),
     logged st (entries ++ [("LLM call failed, using fallback response:", Some e)])).
Proof.
  intros Hk Hne Hf.
  rewrite (callLLM_configured P code language readingLevel key st Hk Hne).
  unfold callLLM_try, try_catch, bind, lift.
  destruct Hf as [e H | r H Hok | r e H Hok Hj | r reply e H Hok Hj Hc
                 | r reply content e H Hok Hj Hc Hp];
    rewrite H; try rewrite Hok; cbn [negb].
  - reflexivity.
  - unfold console_error, throw, ret, logged; cbv beta iota; cbn [store issued console].
    now rewrite <- app_assoc.
  - rewrite Hj; reflexivity.
  - rewrite Hj, Hc; reflexivity.
  - rewrite Hj, Hc, Hp; reflexivity.
Qed.

Lemma detected_failure_is_logged_witness :
  callLLM (with_model dev_platform
             (Returned {| ok := false; http_status := 429;
                          json := Threw (SyntaxError "Unexpected end of JSON input") |}))
          example_code "python" "12" (start alice_store)
  = (Returned (js_of_response (generateFallbackResponse example_code "python" "12")),
     logged (start alice_store)
            [("OpenAI API error: 429", None);
             ("LLM call failed, using fallback response:",
              Some (Error "OpenAI API error: 429"))]).
Proof.
  apply (detected_failure_is_logged
           (with_model dev_platform
              (Returned {| ok := false; http_status := 429;
                           json := Threw (SyntaxError "Unexpected end of JSON input") |}))
           example_code "python" "12" "sk-test" (start alice_store)
           (Error "OpenAI API error: 429") [("OpenAI API error: 429", None)]).
  - reflexivity.
  - discriminate.
  - apply (status_refused
             (with_model dev_platform
                (Returned {| ok := false; http_status := 429;
                             json := Threw (SyntaxError "Unexpected end of JSON input") |}))
             (completions_request "sk-test" example_code "python" "12")
             {| ok := false; http_status := 429;
                json := Threw (SyntaxError "Unexpected end of JSON input") |});
      reflexivity.
Defined.

(** X8. A content that [JSON.parse] accepts is what [callLLM] returns,
    whatever its shape, and nothing is logged or changed. *)
Theorem parsed_content_passes_through
        (P : Platform) (code language readingLevel key : string) (st : State)
        (r : HttpResponse) (reply content parsed : JSValue) :
  env_get P "OPENAI_API_KEY" = Some key ->
  key <> EmptyString ->
  fetch P completions_url (completions_request key code language readingLevel) = Returned r ->
  ok r = true ->
  json r = Returned reply ->
  message_content reply = Returned content ->
  JSON_parse P content = Returned parsed ->
  callLLM P code language readingLevel st = (Returned parsed, st).
Proof. apply callLLM_returns_parsed. Qed.

Lemma parsed_content_passes_through_witness :
  callLLM (with_model dev_platform (Returned (completion "{}")))
          example_code "python" "12" (start alice_store)
  = (Returned (JObj []), start alice_store).
Proof.
  exact (parsed_content_passes_through
           (with_model dev_platform (Returned (completion "{}")))
           example_code "python" "12" "sk-test" (start alice_store)
           (completion "{}") _ _ _ eq_refl ltac:(discriminate) eq_refl eq_refl eq_refl
           eq_refl eq_refl).
Defined.

(** X9. A reply of the model service whose [choices] is missing, [null] or an
    empty array (an error envelope sent with a success status) leads to the
    fallback bundle. *)
Theorem reply_without_choice_falls_back
        (P : Platform) (code language readingLevel key : string) (st : State)
        (r : HttpResponse) (envelope : list (string * JSValue)) :
  env_get P "OPENAI_API_KEY" = Some key ->
  key <> EmptyString ->
  fetch P completions_url (completions_request key code language readingLevel) = Returned r ->
  ok r = true ->
  json r = Returned (JObj envelope) ->
  assoc "choices" envelope = JUndefined
  \/ assoc "choices" envelope = JNull
  \/ assoc "choices" envelope = JArr [] ->
  fst (callLLM P code language readingLevel st)
  = Returned (js_of_response (generateFallbackResponse code language readingLevel)).
Proof.
  intros Hk Hne H Hok Hj Hc.
  rewrite (callLLM_configured P code language readingLevel key st Hk Hne).
  unfold callLLM_try, bind, lift; rewrite H, Hok; cbn [negb]; rewrite Hj.
  unfold message_content; cbn [get_prop ebind].
  destruct Hc as [-> | [-> | ->]]; reflexivity.
Qed.

Lemma reply_without_choice_falls_back_witness :
  fst (callLLM (with_model dev_platform
                  (Returned {| ok := true; http_status := 200;
                               json := Returned (JObj [("choices", JArr [])]) |}))
               example_code "python" "15" (start alice_store))
  = Returned (js_of_response (generateFallbackResponse example_code "python" "15")).
Proof.
  exact (reply_without_choice_falls_back
           (with_model dev_platform
              (Returned {| ok := true; http_status := 200;
                           json := Returned (JObj [("choices", JArr [])]) |}))
           example_code "python" "15" "sk-test" (start alice_store) _ [("choices", JArr [])]
           eq_refl ltac:(discriminate) eq_refl eq_refl eq_refl
           (or_intror (or_intror eq_refl))).
Defined.

(** ** Further properties of the handler: the gate *)

(** X10. A request that is refused is answered with the status and the
    message of the refusal, and nothing has happened: no query was issued,
    no line logged, no row changed. *)
Theorem refusal_answers_without_effect
        (P : Platform) (req : Request) (st : State) (status : Z) (message : string) :
  method req <> "OPTIONS" ->
  refused P req status message ->
  serve P req st = (Returned (json_response P status (error_body message)), st).
Proof.
  intros Hm Hr; unfold serve.
  destruct (String.eqb_spec (method req) "OPTIONS") as [|_]; [contradiction |].
  unfold try_catch, serve_try, bind, lift.
  destruct Hr as [Hc Ha | h Hc Ha Hne Hu | h uid parsed Hc Ha Hne Hu Hb Hf]; rewrite Hc.
  - destruct Ha as [-> | ->]; reflexivity.
  - rewrite Ha; destruct (String.eqb_spec h EmptyString) as [|_]; [contradiction |].
    now rewrite Hu.
  - rewrite Ha; destruct (String.eqb_spec h EmptyString) as [|_]; [contradiction |].
    rewrite Hu, Hb; destruct parsed as [sid ttl lang src level].
    cbn [code language] in Hf.
    assert (Hg : negb (truthy_string src) || negb (truthy_string lang) = true).
    { destruct Hf as [-> | ->]; [reflexivity | apply orb_true_r]. }
    now rewrite Hg.
Qed.

Lemma refusal_answers_without_effect_witness :
  serve dev_platform
        {| method := "POST"; authorization := Some "Bearer alice-token";
           body_json := Returned {| snippet_id := None; title := None;
                                    language := Some "python"; code := Some EmptyString;
                                    reading_level := None |} |}
        (start alice_store)
  = (Returned (json_response dev_platform 400
                 (error_body "Missing required fields: code, language")),
     start alice_store).
Proof.
  apply refusal_answers_without_effect; [discriminate |].
  eapply missing_fields with (authHeader := "Bearer alice-token");
    [reflexivity | reflexivity | discriminate | reflexivity | reflexivity | left; reflexivity].
Defined.

(** X11. Conversely, the handler answers 401 or 400 only to a request that
    is refused in one of these ways, and then it has touched nothing: no
    query reaches the store before the token is verified and the fields are
    checked. *)
Theorem refusals_are_the_only_client_errors
        (P : Platform) (req : Request) (st : State) :
  exists resp st',
    serve P req st = (Returned resp, st')
    /\ (status resp = 401%Z \/ status resp = 400%Z ->
        st' = st
        /\ exists message,
            refused P req (status resp) message
            /\ resp = json_response P (status resp) (error_body message)).
Proof.
  assert (Hcatch : forall e st0,
             exists resp st',
               serve_catch P e st0 = (Returned resp, st')
               /\ (status resp = 401%Z \/ status resp = 400%Z ->
                   st' = st
                   /\ exists message,
                       refused P req (status resp) message
                       /\ resp = json_response P (status resp) (error_body message))).
  { intros e st0; destruct (serve_catch_ready P e st0) as (resp & st' & Hs & (H200 & _)).
    exists resp, st'; split; [exact Hs |]; rewrite H200; intros [H | H]; discriminate. }
  assert (Hgen : forall snippetId src lang level st0,
             exists resp st',
               try_catch (generate_and_persist P snippetId src lang level)
                         (serve_catch P) st0 = (Returned resp, st')
               /\ (status resp = 401%Z \/ status resp = 400%Z ->
                   st' = st
                   /\ exists message,
                       refused P req (status resp) message
                       /\ resp = json_response P (status resp) (error_body message))).
  { intros snippetId src lang level st0; unfold try_catch.
    pose proof (generate_and_persist_ready P snippetId src lang level st0) as H.
    destruct (generate_and_persist _ _ _ _ _ st0) as [[resp|e] st']; cbn [fst] in H.
    - destruct H as [H200 _]; exists resp, st'; split; [reflexivity |].
      rewrite H200; intros [H | H]; discriminate.
    - apply Hcatch. }
  unfold serve; destruct (String.eqb (method req) "OPTIONS").
  { unfold ret; eexists _, _; split; [reflexivity |]; cbn [status]; intros [H | H]; discriminate. }
  unfold try_catch at 1, serve_try, bind, lift.
  destruct (createClient P _ _) as [[]|e] eqn:Hc; [| apply Hcatch].
  destruct (authorization req) as [h|] eqn:Ha.
  2:{ eexists _, _; split; [reflexivity |]; intros _; split; [reflexivity |].
      eexists; split; [apply no_header; auto | reflexivity]. }
  destruct (String.eqb_spec h EmptyString) as [->|Hne].
  { eexists _, _; split; [reflexivity |]; intros _; split; [reflexivity |].
    eexists; split; [apply no_header; auto | reflexivity]. }
  destruct (getUser P _) as [[uid|]|e] eqn:Hu; [| | apply Hcatch].
  2:{ eexists _, _; split; [reflexivity |]; intros _; split; [reflexivity |].
      eexists; split; [eapply invalid_token; eauto | reflexivity]. }
  destruct (body_json req) as [[sid ttl lang src level]|e] eqn:Hb; [| apply Hcatch].
  destruct (negb (truthy_string src) || negb (truthy_string lang)) eqn:Hg.
  { eexists _, _; split; [reflexivity |]; intros _; split; [reflexivity |].
    eexists; split; [| reflexivity].
    eapply missing_fields; eauto; cbn [code language].
    apply orb_true_iff in Hg; destruct Hg as [Hg | Hg]; apply negb_true_iff in Hg; auto. }
  destruct (truthy_string sid).
  - destruct (run P _ st) as [[r|e] st1]; [| apply Hcatch].
    destruct (error r); [| apply Hgen].
    unfold console_error, ret; cbv beta iota.
    eexists _, _; split; [reflexivity |]; cbn [status]; intros [H | H]; discriminate.
  - destruct (run P _ st) as [[r|e] st1]; [| apply Hcatch].
    destruct (match error r with Some _ => true | None => false end
              || negb (truthy (data r))).
    + unfold console_error, ret; cbv beta iota.
      eexists _, _; split; [reflexivity |]; cbn [status]; intros [H | H]; discriminate.
    + destruct (get_prop (data r) "id"); [apply Hgen | apply Hcatch].
Qed.

Lemma final_fallback_identifiers (P : Platform) :
  status (final_fallback P) = 200%Z
  /\ quiz_ids (body (final_fallback P))
     = [JStr "fallback_0"; JStr "fallback_1"; JStr "fallback_2"].
Proof. split; reflexivity. Qed.

(** X12. When an exception is thrown before the store is reached (the
    client cannot be created, the verification of the token throws, or the
    body of the request is not JSON), the handler answers with status 200
    and the final fallback: the bundle of the fallback generator for the
    fixed inputs, whatever the request said, under identifiers
    [fallback_<index>]; no query is issued. A body that cannot be read is
    thus answered like a success, not refused. *)
Theorem exception_before_store_gets_final_fallback
        (P : Platform) (req : Request) (st : State) (e : JSError) :
  method req <> "OPTIONS" ->
  throws_before_store P req e ->
  serve P req st
  = (Returned (final_fallback P),
     logged st [("Explain function error, generating final fallback:", Some e)])
  /\ status (final_fallback P) = 200%Z
  /\ quiz_ids (body (final_fallback P))
     = [JStr "fallback_0"; JStr "fallback_1"; JStr "fallback_2"].
Proof.
  intros Hm Ht; split; [| apply final_fallback_identifiers].
  unfold serve.
  destruct (String.eqb_spec (method req) "OPTIONS") as [|_]; [contradiction |].
  unfold try_catch, serve_try, bind, lift.
  destruct Ht as [e Hc | h e Hc Ha Hne Hu | h uid e Hc Ha Hne Hu Hb]; rewrite Hc.
  - reflexivity.
  - rewrite Ha; destruct (String.eqb_spec h EmptyString) as [|_]; [contradiction |].
    rewrite Hu; reflexivity.
  - rewrite Ha; destruct (String.eqb_spec h EmptyString) as [|_]; [contradiction |].
    rewrite Hu, Hb; reflexivity.
Qed.

Lemma exception_before_store_gets_final_fallback_witness :
  serve dev_platform
        {| method := "POST"; authorization := Some "Bearer alice-token";
           body_json := Threw (SyntaxError "Unexpected token o in JSON at position 1") |}
        (start alice_store)
  = (Returned (final_fallback dev_platform),
     logged (start alice_store)
            [("Explain function error, generating final fallback:",
              Some (SyntaxError "Unexpected token o in JSON at position 1"))])
  /\ status (final_fallback dev_platform) = 200%Z
  /\ quiz_ids (body (final_fallback dev_platform))
     = [JStr "fallback_0"; JStr "fallback_1"; JStr "fallback_2"].
Proof.
  apply exception_before_store_gets_final_fallback; [discriminate |].
  eapply body_unreadable with (authHeader := "Bearer alice-token");
    [reflexivity | reflexivity | discriminate | reflexivity | reflexivity].
Defined.

(** ** Further properties of the handler: the shape of every answer *)

Lemma get_header_set_header (k v : string) (hs : list (string * string)) :
  get_header k (set_header k v hs) = Some v.
Proof.
  induction hs as [|[k' v'] hs IH]; cbn [set_header get_header].
  - now rewrite String.eqb_refl.
  - destruct (String.eqb k k') eqn:E; cbn [get_header]; rewrite ?String.eqb_refl, ?E; auto.
Qed.

Lemma get_header_set_other (k k' v : string) (hs : list (string * string)) :
  k' <> k -> get_header k' (set_header k v hs) = get_header k' hs.
Proof.
  intros Hne; induction hs as [|[k0 v0] hs IH]; cbn [set_header get_header].
  - destruct (String.eqb_spec k' k); [contradiction | reflexivity].
  - destruct (String.eqb_spec k k0) as [<-|Hk]; cbn [get_header].
    + destruct (String.eqb_spec k' k); [contradiction | reflexivity].
    + now rewrite IH.
Qed.

(** The three inner blocks answer with JSON and status 200 when they
    answer. *)
Lemma quiz_block_json (P : Platform) (snippetId updatedSnippet llmResponse : JSValue)
      (st : State) :
  exists b st', quiz_block P snippetId updatedSnippet llmResponse st
                = (Returned (json_response P 200 b), st').
Proof.
  unfold quiz_block, try_catch, bind.
  destruct (run P (delete_quizzes snippetId) st) as [[r0|e0] st0];
    [| unfold console_error, ret; cbv beta iota; eauto].
  unfold lift; destruct (quizInserts snippetId llmResponse) as [rows|e1] eqn:Hrows;
    [| unfold console_error, ret; cbv beta iota; eauto].
  destruct (run P (insert_quizzes rows) st0) as [[r|e2] st1];
    [| unfold console_error, ret; cbv beta iota; eauto].
  destruct (error r) as [quizError|].
  - unfold console_error; cbv beta iota.
    rewrite quizzes_with_ids_spec, Hrows; cbn [ebind]; unfold ret; eauto.
  - unfold ret; eauto.
Qed.

Lemma db_block_json (P : Platform) (snippetId llmResponse : JSValue) (st : State) :
  match fst (db_block P snippetId llmResponse st) with
  | Returned resp => exists b, resp = json_response P 200 b
  | Threw _ => True
  end.
Proof.
  assert (Hmem : forall sid st0,
             match fst ((b <- lift (in_memory_body "temp_" sid llmResponse) ;;
                         ret (json_response P 200 b)) st0) with
             | Returned resp => exists b, resp = json_response P 200 b
             | Threw _ => True
             end).
  { intros sid st0; unfold bind, lift.
    destruct (in_memory_body "temp_" sid llmResponse); cbn [fst ret]; eauto. }
  unfold db_block, try_catch.
  match goal with
  | |- context [match ?m st with _ => _ end] => destruct (m st) as [[resp|e] st'] eqn:Htry
  end.
  - cbn [fst]; revert Htry; unfold bind, lift.
    destruct (get_prop llmResponse "explanation") as [explanation|]; [| discriminate].
    destruct (get_prop llmResponse "mermaid") as [mermaid|]; [| discriminate].
    destruct (get_prop llmResponse "trace") as [trace|]; [| discriminate].
    destruct (run P (update_result snippetId explanation mermaid trace) st)
      as [[r|e] st1]; [| discriminate].
    destruct (error r) as [snippetUpdateError|].
    + unfold console_error; cbv beta iota; intros Htry.
      pose proof (Hmem snippetId
                    (logged st1 [("Update snippet with results error:",
                                  Some snippetUpdateError)])) as H.
      unfold bind, lift, logged in H; rewrite Htry in H; exact H.
    + destruct (quiz_block_json P snippetId (data r) llmResponse st1) as (b & st2 & ->).
      intros H; injection H as <- _; eauto.
  - unfold bind at 1; unfold console_error at 1; cbv beta iota.
    apply Hmem.
Qed.

Lemma serve_try_json (P : Platform) (req : Request) (st : State) :
  match fst (serve_try P req st) with
  | Returned resp =>
      exists s b, resp = json_response P s b /\ In s [200; 400; 401; 500]%Z
  | Threw _ => True
  end.
Proof.
  assert (Hgen : forall snippetId src lang level st0,
             match fst (generate_and_persist P snippetId src lang level st0) with
             | Returned resp =>
                 exists s b, resp = json_response P s b /\ In s [200; 400; 401; 500]%Z
             | Threw _ => True
             end).
  { intros snippetId src lang level st0; unfold generate_and_persist, bind.
    destruct (callLLM_returns P src lang (or_default level "cs1") st0)
      as (llmResponse & st' & ->).
    pose proof (db_block_json P snippetId llmResponse st') as H.
    destruct (fst _); [| exact I].
    destruct H as (b & ->); exists 200%Z, b; cbn [In]; auto. }
  unfold serve_try, bind, lift.
  destruct (createClient P _ _) as [[]|e]; [| exact I].
  destruct (authorization req) as [authHeader|];
    [| cbn [fst ret]; eexists _, _; split; [reflexivity | cbn [In]; auto]].
  destruct (String.eqb authHeader EmptyString);
    [cbn [fst ret]; eexists _, _; split; [reflexivity | cbn [In]; auto] |].
  destruct (getUser P _) as [[userId|]|e];
    [| cbn [fst ret]; eexists _, _; split; [reflexivity | cbn [In]; auto] | exact I].
  destruct (body_json req) as [[sid ttl lang src level]|e]; [| exact I].
  destruct (negb (truthy_string src) || negb (truthy_string lang));
    [cbn [fst ret]; eexists _, _; split; [reflexivity | cbn [In]; auto] |].
  destruct (truthy_string sid).
  - destruct (run P _ st) as [[r|e] st1]; [| exact I].
    destruct (error r); [| apply Hgen].
    unfold console_error, ret; cbn [fst]; eexists _, _; split; [reflexivity | cbn [In]; auto].
  - destruct (run P _ st) as [[r|e] st1]; [| exact I].
    destruct (match error r with Some _ => true | None => false end
              || negb (truthy (data r))).
    + unfold console_error, ret; cbn [fst]; eexists _, _; split; [reflexivity | cbn [In]; auto].
    + destruct (get_prop (data r) "id"); [apply Hgen | exact I].
Qed.

(** X13. Every answer of the handler has one of the statuses 200, 400, 401
    and 500. A preflight is answered with the CORS headers and no body. Every
    other answer has a body, declares it as [application/json], and carries
    every CORS header unchanged. *)
Theorem every_answer_is_json (P : Platform) (req : Request) (st : State) :
  exists resp st',
    serve P req st = (Returned resp, st')
    /\ In (status resp) [200; 400; 401; 500]%Z
    /\ (method req = "OPTIONS" ->
        resp = {| status := 200; headers := corsHeaders P; body := None |} /\ st' = st)
    /\ (method req <> "OPTIONS" ->
        body resp <> None
        /\ get_header "Content-Type" (headers resp) = Some "application/json"
        /\ forall name, name <> "Content-Type" ->
                        get_header name (headers resp) = get_header name (corsHeaders P)).
Proof.
  assert (Hjson : forall s b,
             body (json_response P s b) <> None
             /\ get_header "Content-Type" (headers (json_response P s b))
                = Some "application/json"
             /\ forall name, name <> "Content-Type" ->
                             get_header name (headers (json_response P s b))
                             = get_header name (corsHeaders P)).
  { intros s b; unfold json_response; cbn [body headers]; split; [discriminate |].
    split; [apply get_header_set_header |].
    intros name Hne; now apply get_header_set_other. }
  unfold serve; destruct (String.eqb_spec (method req) "OPTIONS") as [Hm|Hm].
  - unfold ret; eexists _, _; split; [reflexivity |]; cbn [status In].
    split; [auto |]; split; [auto | contradiction].
  - unfold try_catch.
    pose proof (serve_try_json P req st) as H.
    destruct (serve_try P req st) as [[resp|e] st']; cbn [fst] in H.
    + destruct H as (s & b & -> & Hs).
      eexists _, _; split; [reflexivity |]; split; [exact Hs |].
      split; [contradiction | intros _; apply Hjson].
    + unfold serve_catch, bind, console_error, ret; cbv beta iota.
      eexists _, _; split; [reflexivity |]; split; [cbn [status json_response In]; auto |].
      split; [contradiction | intros _; apply Hjson].
Qed.

(** ** The token *)






(** ** Relations that the handler keeps between the stores *)

Section Kept.

Variable P : Platform.
Variable R : Store -> Store -> Prop.
Hypothesis R_refl : forall s, R s s.
Hypothesis R_trans : forall s1 s2 s3, R s1 s2 -> R s2 s3 -> R s1 s3.

Lemma keeps_ret {A} (a : A) : keeps R (ret a).
Proof. intros st; apply R_refl. Qed.

Lemma keeps_throw {A} (e : JSError) : keeps R (@throw A e).
Proof. intros st; apply R_refl. Qed.

Lemma keeps_lift {A} (x : Exc A) : keeps R (lift x).
Proof. intros st; apply R_refl. Qed.

Lemma keeps_console_error (label : string) (e : option JSError) :
  keeps R (console_error label e).
Proof. intros st; apply R_refl. Qed.

Lemma keeps_bind {A B} (m : M A) (k : A -> M B) :
  keeps R m -> (forall a, keeps R (k a)) -> keeps R (bind m k).
Proof.
  intros Hm Hk st; unfold bind; specialize (Hm st).
  destruct (m st) as [[a|e] st1]; cbn [snd] in *; [| exact Hm].
  exact (R_trans _ _ _ Hm (Hk a st1)).
Qed.

Lemma keeps_try_catch {A} (m : M A) (handler : JSError -> M A) :
  keeps R m -> (forall e, keeps R (handler e)) -> keeps R (try_catch m handler).
Proof.
  intros Hm Hh st; unfold try_catch; specialize (Hm st).
  destruct (m st) as [[a|e] st1]; cbn [snd] in *; [exact Hm |].
  exact (R_trans _ _ _ Hm (Hh e st1)).
Qed.

Lemma keeps_callLLM (code language readingLevel : string) :
  keeps R (callLLM P code language readingLevel).
Proof.
  intros st; destruct (callLLM_logs P code language readingLevel st) as (v & entries & -> & _).
  apply R_refl.
Qed.

(** A query keeps the relation if carrying it out does. *)
Lemma keeps_run (q : Query) :
  (forall s, R s (snd (execute (new_id P) q s))) -> keeps R (run P q).
Proof.
  intros H st; unfold run; destruct (store_fault P q).
  - specialize (H (store st)); destruct (execute (new_id P) q (store st)); exact H.
  - apply R_refl.
  - apply R_refl.
Qed.

Ltac keeps_step :=
  first [ apply keeps_ret
        | apply keeps_throw
        | apply keeps_lift
        | apply keeps_console_error
        | apply keeps_callLLM
        | apply keeps_bind; [| intros ?]
        | apply keeps_try_catch; [| intros ?]
        | match goal with
          | |- keeps R (match ?x with _ => _ end) => destruct x
          end ].

Lemma keeps_quiz_block (snippetId updatedSnippet llmResponse : JSValue) :
  keeps R (run P (delete_quizzes snippetId)) ->
  (forall rows, keeps R (run P (insert_quizzes rows))) ->
  keeps R (quiz_block P snippetId updatedSnippet llmResponse).
Proof.
  intros Hd Hi; unfold quiz_block.
  apply keeps_try_catch; [| intros e; repeat keeps_step].
  apply keeps_bind; [exact Hd | intros _].
  apply keeps_bind; [apply keeps_lift | intros rows].
  apply keeps_bind; [apply Hi | intros r].
  repeat keeps_step.
Qed.

Lemma keeps_db_block (snippetId llmResponse : JSValue) :
  (forall explanation mermaid trace,
      keeps R (run P (update_result snippetId explanation mermaid trace))) ->
  keeps R (run P (delete_quizzes snippetId)) ->
  (forall rows, keeps R (run P (insert_quizzes rows))) ->
  keeps R (db_block P snippetId llmResponse).
Proof.
  intros Hu Hd Hi; unfold db_block.
  apply keeps_try_catch; [| intros e; repeat keeps_step].
  do 3 (apply keeps_bind; [apply keeps_lift | intros ?]).
  apply keeps_bind; [apply Hu | intros r].
  destruct (error r); [repeat keeps_step | now apply keeps_quiz_block].
Qed.

(** The handler keeps a relation that its two writes of the snippet and
    its persistence block keep, for the snippet that the request names or
    for the one it creates. *)
Lemma keeps_serve (req : Request) :
  (forall parsed userId, body_json req = Returned parsed ->
                         truthy_string (snippet_id parsed) = true ->
                         keeps R (run P (pending_write userId parsed))) ->
  (forall parsed llmResponse, body_json req = Returned parsed ->
                              truthy_string (snippet_id parsed) = true ->
                              keeps R (db_block P (JStr (or_default (snippet_id parsed) EmptyString))
                                                llmResponse)) ->
  (forall parsed userId, body_json req = Returned parsed ->
                         truthy_string (snippet_id parsed) = false ->
                         keeps R (run P (pending_write userId parsed))) ->
  (forall parsed snippetId llmResponse, body_json req = Returned parsed ->
                                        truthy_string (snippet_id parsed) = false ->
                                        keeps R (db_block P snippetId llmResponse)) ->
  keeps R (serve P req).
Proof.
  intros Hup Hdb Hins Hnew; unfold serve.
  destruct (String.eqb (method req) "OPTIONS"); [apply keeps_ret |].
  apply keeps_try_catch; [| intros e; unfold serve_catch; repeat keeps_step].
  unfold serve_try.
  apply keeps_bind; [apply keeps_lift | intros _].
  destruct (authorization req) as [authHeader|]; [| apply keeps_ret].
  destruct (String.eqb authHeader EmptyString); [apply keeps_ret |].
  apply keeps_bind; [apply keeps_lift | intros [userId|]]; [| apply keeps_ret].
  destruct (body_json req) as [parsed|e] eqn:Hb;
    [| intros st; unfold bind, lift; apply R_refl].
  intros st; unfold bind at 1, lift at 1; revert st.
  change (keeps R
            (let '(mkExplainRequest sid ttl lang src level) := parsed in
             if negb (truthy_string src) || negb (truthy_string lang) then
               ret (json_response P 400 (error_body "Missing required fields: code, language"))
             else
               let code := or_default src EmptyString in
               let language := or_default lang EmptyString in
               if truthy_string sid then
                 let snippetId := or_default sid EmptyString in
                 r <- run P (update_pending snippetId userId ttl language code) ;;
                 match error r with
                 | Some updateError =>
                     console_error "Update snippet error:" (Some updateError) ;;;
                     ret (json_response P 500 (error_body "Failed to update snippet"))
                 | None =>
                     generate_and_persist P (JStr snippetId) code language level
                 end
               else
                 r <- run P (insert_pending userId ttl language code) ;;
                 let snippetData := data r in
                 if (match error r with Some _ => true | None => false end)
                    || negb (truthy snippetData) then
                   console_error "Insert snippet error:" (error r) ;;;
                   ret (json_response P 500 (error_body "Failed to create snippet"))
                 else
                   snippetId <- lift (get_prop snippetData "id") ;;
                   generate_and_persist P snippetId code language level)).
  specialize (Hup parsed userId eq_refl); specialize (Hdb parsed);
    specialize (Hins parsed userId eq_refl); specialize (Hnew parsed).
  destruct parsed as [sid ttl lang src level]; unfold pending_write in *;
    cbn [snippet_id title language code] in *.
  destruct (negb (truthy_string src) || negb (truthy_string lang)); [apply keeps_ret |].
  cbv zeta.
  destruct (truthy_string sid).
  - apply keeps_bind; [exact (Hup eq_refl) | intros r].
    destruct (error r); [repeat keeps_step |].
    unfold generate_and_persist.
    apply keeps_bind; [apply keeps_callLLM | intros llmResponse].
    exact (Hdb llmResponse eq_refl eq_refl).
  - apply keeps_bind; [exact (Hins eq_refl) | intros r].
    destruct (match error r with Some _ => true | None => false end
              || negb (truthy (data r))); [repeat keeps_step |].
    apply keeps_bind; [apply keeps_lift | intros snippetId].
    unfold generate_and_persist.
    apply keeps_bind; [apply keeps_callLLM | intros llmResponse].
    exact (Hnew snippetId llmResponse eq_refl eq_refl).
Qed.

End Kept.

(** *** What carrying out a query changes *)

Lemma finish_store (q : Query) (touched : list Row) (after before : Store) :
  snd (finish q touched after before) = after
  \/ snd (finish q touched after before) = before.
Proof.
  unfold finish; destruct (q_single q); [| auto].
  destruct touched as [|row [|row' rest]]; auto.
Qed.

Lemma with_rows_same (t : Table) (s : Store) : with_rows t (rows_of t s) s = s.
Proof. destruct t, s; reflexivity. Qed.

Lemma assoc_set_col_other (c c' : string) (v : JSValue) (row : Row) :
  c' <> c -> assoc c' (set_col c v row) = assoc c' row.
Proof.
  intros Hne; induction row as [|[c0 v0] row IH]; cbn [set_col assoc].
  - destruct (String.eqb_spec c' c); [contradiction | reflexivity].
  - destruct (String.eqb_spec c c0) as [<-|Hc]; cbn [assoc].
    + destruct (String.eqb_spec c' c); [contradiction | reflexivity].
    + now rewrite IH.
Qed.

Lemma assoc_apply_patch (k : string) (patch row : Row) :
  (forall c v, In (c, v) patch -> c <> k) ->
  assoc k (apply_patch patch row) = assoc k row.
Proof.
  unfold apply_patch; revert row; induction patch as [|[c v] patch IH]; intros row H;
    cbn [fold_left]; [reflexivity |].
  rewrite IH; [| intros c' v' Hin; apply (H c' v'); now right].
  cbn [fst snd].
  assert (Hc : k <> c) by (intros ->; apply (H c v); [now left | reflexivity]).
  destruct v; try reflexivity; now apply assoc_set_col_other.
Qed.

Lemma snippets_kept_refl (s : Store) : snippets_kept s s.
Proof. exists []; now rewrite app_nil_r. Qed.

Lemma snippets_kept_trans (s1 s2 s3 : Store) :
  snippets_kept s1 s2 -> snippets_kept s2 s3 -> snippets_kept s1 s3.
Proof.
  intros [m1 H1] [m2 H2]; exists (m1 ++ m2)%list; now rewrite H2, H1, app_assoc.
Qed.

Lemma execute_update_keeps_snippets
      (new_id : nat -> string) (q : Query) (patch : Row) (s : Store) :
  q_op q = Update patch ->
  (forall c v, In (c, v) patch -> c <> "id" /\ c <> "owner") ->
  snippets_kept s (snd (execute new_id q s)).
Proof.
  intros Hop Hpatch; unfold execute; rewrite Hop.
  destruct (finish_store q
              (map (apply_patch patch) (filter (matches (q_eq q)) (rows_of (q_from q) s)))
              (with_rows (q_from q)
                 (map (fun r => if matches (q_eq q) r then apply_patch patch r else r)
                      (rows_of (q_from q) s)) s) s) as [-> | ->];
    [| apply snippets_kept_refl].
  exists []; rewrite app_nil_r; unfold snippet_keys.
  destruct (q_from q); cbn [with_rows rows_of snippet_rows]; [| reflexivity].
  rewrite map_map; apply map_ext; intros row.
  destruct (matches (q_eq q) row); [| reflexivity].
  rewrite !assoc_apply_patch; [reflexivity | |];
    intros c v Hin; now apply (Hpatch c v).
Qed.

Lemma execute_insert_keeps_snippets
      (new_id : nat -> string) (q : Query) (rows : list Row) (s : Store) :
  q_op q = Insert rows -> snippets_kept s (snd (execute new_id q s)).
Proof.
  intros Hop; unfold execute; rewrite Hop.
  match goal with
  | |- snippets_kept s (snd (finish q ?touched ?after s)) =>
      destruct (finish_store q touched after s) as [-> | ->]
  end; [| apply snippets_kept_refl].
  unfold snippets_kept, snippet_keys.
  destruct (q_from q); cbn [with_rows rows_of snippet_rows quiz_rows].
  - eexists; rewrite map_app; reflexivity.
  - exists []; now rewrite app_nil_r.
Qed.

Lemma execute_quizzes_keeps_snippets (new_id : nat -> string) (q : Query) (s : Store) :
  q_from q = quizzes_table -> snippets_kept s (snd (execute new_id q s)).
Proof.
  intros Hq; unfold execute; rewrite Hq.
  destruct (q_op q);
    match goal with
    | |- snippets_kept s (snd (finish q ?touched ?after s)) =>
        destruct (finish_store q touched after s) as [-> | ->]
    end; try apply snippets_kept_refl;
    exists []; now rewrite app_nil_r.
Qed.

(** X15. The handler never deletes a snippet and never changes the
    identifier or the owner of one: after any request, whatever fails, the
    store holds the snippets it held, in the same order and with the same
    owners, followed by the ones created since. *)
Theorem snippets_are_never_deleted (P : Platform) (req : Request) (st : State) :
  exists more,
    snippet_keys (store (snd (serve P req st))) = (snippet_keys (store st) ++ more)%list.
Proof.
  assert (Hup : forall snippetId userId ttl lang src,
             keeps snippets_kept (run P (update_pending snippetId userId ttl lang src))).
  { intros; apply keeps_run; [apply snippets_kept_refl |].
    intros s; eapply execute_update_keeps_snippets; [reflexivity |].
    cbn [In]; intros c v H;
      repeat (destruct H as [H | H]; [injection H as <- _; split; discriminate |]);
      contradiction. }
  assert (Hins : forall userId ttl lang src,
             keeps snippets_kept (run P (insert_pending userId ttl lang src))).
  { intros; apply keeps_run; [apply snippets_kept_refl |].
    intros s; eapply execute_insert_keeps_snippets; reflexivity. }
  assert (Hdb : forall snippetId llmResponse,
             keeps snippets_kept (db_block P snippetId llmResponse)).
  { intros; apply keeps_db_block;
      [apply snippets_kept_refl | apply snippets_kept_trans | | |].
    - intros; apply keeps_run; [apply snippets_kept_refl |].
      intros s; eapply execute_update_keeps_snippets; [reflexivity |].
      cbn [In]; intros c v H;
        repeat (destruct H as [H | H]; [injection H as <- _; split; discriminate |]);
        contradiction.
    - apply keeps_run; [apply snippets_kept_refl |].
      intros s; now apply execute_quizzes_keeps_snippets.
    - intros rows; apply keeps_run; [apply snippets_kept_refl |].
      intros s; now apply execute_quizzes_keeps_snippets. }
  apply (keeps_serve P snippets_kept snippets_kept_refl snippets_kept_trans req).
  - intros parsed userId _ Ht; unfold pending_write; rewrite Ht; apply Hup.
  - intros; apply Hdb.
  - intros parsed userId _ Ht; unfold pending_write; rewrite Ht; apply Hins.
  - intros; apply Hdb.
Qed.

Lemma other_quizzes_kept_refl (snippetId : JSValue) (s : Store) :
  other_quizzes_kept snippetId s s.
Proof. intros row H _; exact H. Qed.

Lemma other_quizzes_kept_trans (snippetId : JSValue) (s1 s2 s3 : Store) :
  other_quizzes_kept snippetId s1 s2 -> other_quizzes_kept snippetId s2 s3 ->
  other_quizzes_kept snippetId s1 s3.
Proof. intros H1 H2 row Hin Hne; apply H2; [apply H1 |]; assumption. Qed.

(** X16. The persistence block for a snippet leaves the quizzes of every
    other snippet where they are, whatever fails: only quizzes whose
    [snippet_id] is the snippet's are ever deleted. *)
Theorem quizzes_of_other_snippets_are_kept
        (P : Platform) (snippetId llmResponse : JSValue) (st : State) (row : Row) :
  In row (quiz_rows (store st)) ->
  scalar_eqb (assoc "snippet_id" row) snippetId = false ->
  In row (quiz_rows (store (snd (db_block P snippetId llmResponse st)))).
Proof.
  revert row.
  change (other_quizzes_kept snippetId (store st)
            (store (snd (db_block P snippetId llmResponse st)))).
  revert st.
  change (keeps (other_quizzes_kept snippetId) (db_block P snippetId llmResponse)).
  apply keeps_db_block;
    [apply other_quizzes_kept_refl | apply other_quizzes_kept_trans | | |].
  - intros e m t; apply keeps_run; [apply other_quizzes_kept_refl |].
    intros s; unfold execute; cbn [q_op q_from update_result rows_of].
    match goal with
    | |- other_quizzes_kept _ s (snd (finish ?q ?touched ?after s)) =>
        destruct (finish_store q touched after s) as [-> | ->]
    end; [| apply other_quizzes_kept_refl].
    intros row Hin _; exact Hin.
  - apply keeps_run; [apply other_quizzes_kept_refl |].
    intros s; unfold execute; cbn [q_op q_from q_eq delete_quizzes rows_of].
    match goal with
    | |- other_quizzes_kept _ s (snd (finish ?q ?touched ?after s)) =>
        destruct (finish_store q touched after s) as [-> | ->]
    end; [| apply other_quizzes_kept_refl].
    intros row Hin Hne; cbn [with_rows quiz_rows].
    apply filter_In; split; [exact Hin |].
    unfold matches; cbn [forallb fst snd]; now rewrite Hne.
  - intros rows; apply keeps_run; [apply other_quizzes_kept_refl |].
    intros s; unfold execute; cbn [q_op q_from insert_quizzes rows_of].
    match goal with
    | |- other_quizzes_kept _ s (snd (finish ?q ?touched ?after s)) =>
        destruct (finish_store q touched after s) as [-> | ->]
    end; [| apply other_quizzes_kept_refl].
    intros row Hin _; cbn [with_rows quiz_rows]; apply in_or_app; now left.
Qed.

Lemma quizzes_of_other_snippets_are_kept_witness :
  In alice_quiz
     (quiz_rows (store (snd (db_block dev_platform (JStr "s2")
                               (js_of_response (mock_response "python"))
                               (start two_owner_store)))))
  /\ ~ In bob_quiz
         (quiz_rows (store (snd (db_block dev_platform (JStr "s2")
                                   (js_of_response (mock_response "python"))
                                   (start two_owner_store)))))
  /\ journal (snd (db_block dev_platform (JStr "s2")
                            (js_of_response (mock_response "python"))
                            (start two_owner_store)))
     = [("snippets", "update", "ok"); ("quizzes", "delete", "ok");
        ("quizzes", "insert", "ok")].
Proof.
  split; [| split].
  - apply quizzes_of_other_snippets_are_kept; [left; reflexivity | reflexivity].
  - vm_compute; intros H;
      repeat (destruct H as [H | H]; [discriminate H |]); exact H.
  - vm_compute; reflexivity.
Defined.

(** *** A snippet the store does not know *)

Lemma untouched_if_unknown_refl (snippetId : string) (s : Store) :
  untouched_if_unknown snippetId s s.
Proof. intros _; reflexivity. Qed.

Lemma untouched_if_unknown_trans (snippetId : string) (s1 s2 s3 : Store) :
  untouched_if_unknown snippetId s1 s2 -> untouched_if_unknown snippetId s2 s3 ->
  untouched_if_unknown snippetId s1 s3.
Proof.
  intros H1 H2 Hu; pose proof (H1 Hu) as E; subst s2; exact (H2 Hu).
Qed.

Lemma no_match_if_unknown (snippetId : string) (others : list (string * JSValue))
      (s : Store) :
  unknown_snippet snippetId s ->
  forall row, In row (snippet_rows s) ->
              matches (("id", JStr snippetId) :: others) row = false.
Proof.
  intros Hu row Hin; unfold matches; cbn [forallb fst snd]; now rewrite (Hu row Hin).
Qed.

Lemma filter_none {A} (f : A -> bool) (l : list A) :
  (forall a, In a l -> f a = false) -> filter f l = [].
Proof.
  induction l as [|a l IH]; intros H; cbn [filter]; [reflexivity |].
  rewrite (H a (or_introl eq_refl)); apply IH; intros b Hb; apply H; now right.
Qed.

Lemma map_unmatched {A} (f : A -> bool) (g : A -> A) (l : list A) :
  (forall a, In a l -> f a = false) -> map (fun a => if f a then g a else a) l = l.
Proof.
  induction l as [|a l IH]; intros H; cbn [map]; [reflexivity |].
  rewrite (H a (or_introl eq_refl)), IH; [reflexivity |].
  intros b Hb; apply H; now right.
Qed.

(** An update of a snippet that the store does not know touches no row;
    with [.single()] it is answered with an error. *)
Lemma update_unknown (new_id : nat -> string) (q : Query) (patch : Row)
      (snippetId : string) (others : list (string * JSValue)) (s : Store) :
  q_from q = snippets -> q_op q = Update patch ->
  q_eq q = ("id", JStr snippetId) :: others ->
  unknown_snippet snippetId s ->
  snd (execute new_id q s) = s
  /\ (q_single q = true -> error (fst (execute new_id q s)) <> None).
Proof.
  intros Hfrom Hop Heq Hu; unfold execute; rewrite Hfrom, Hop, Heq; cbn [rows_of].
  rewrite (filter_none _ _ (no_match_if_unknown snippetId others s Hu)).
  rewrite (map_unmatched _ _ _ (no_match_if_unknown snippetId others s Hu)).
  change (with_rows snippets (snippet_rows s) s) with (with_rows snippets (rows_of snippets s) s).
  rewrite with_rows_same; unfold finish; cbn [map].
  destruct (q_single q); cbn [fst snd error]; split; auto; discriminate.
Qed.

Lemma untouched_bind {A B} (snippetId : string) (Q : A -> Prop)
      (m : M A) (k : A -> M B) :
  (forall st, unknown_snippet snippetId (store st) ->
              store (snd (m st)) = store st
              /\ forall v, fst (m st) = Returned v -> Q v) ->
  (forall v, Q v -> keeps (untouched_if_unknown snippetId) (k v)) ->
  keeps (untouched_if_unknown snippetId) (bind m k).
Proof.
  intros Hm Hk st Hu; unfold bind; destruct (Hm st Hu) as [Hs HQ].
  destruct (m st) as [[v|e] st']; cbn [fst snd] in *; [| exact Hs].
  rewrite <- Hs in Hu |- *; exact (Hk v (HQ v eq_refl) st' Hu).
Qed.

(** The write of the results, for a snippet that the store does not know,
    changes nothing and never reports success. *)
Lemma result_write_unknown (P : Platform) (snippetId : string)
      (explanation mermaid trace : JSValue) (st : State) :
  unknown_snippet snippetId (store st) ->
  store (snd (run P (update_result (JStr snippetId) explanation mermaid trace) st))
  = store st
  /\ forall r, fst (run P (update_result (JStr snippetId) explanation mermaid trace) st)
               = Returned r -> error r <> None.
Proof.
  intros Hu; unfold run.
  destruct (update_unknown (new_id P) (update_result (JStr snippetId) explanation mermaid trace)
              _ snippetId [] (store st) eq_refl eq_refl eq_refl Hu) as [Hs He].
  specialize (He eq_refl).
  destruct (store_fault P _) as [|e|e].
  - destruct (execute _ _ _) as [r s']; cbn [fst snd store] in *; subst s'.
    split; [reflexivity | intros r' H; now injection H as <-].
  - cbn [fst snd store]; split; [reflexivity | intros r' H; injection H as <-; discriminate].
  - cbn [fst snd store]; split; [reflexivity | discriminate].
Qed.

Lemma db_block_unknown (P : Platform) (snippetId : string) (llmResponse : JSValue) :
  keeps (untouched_if_unknown snippetId) (db_block P (JStr snippetId) llmResponse).
Proof.
  pose proof (untouched_if_unknown_refl snippetId) as Hr.
  pose proof (untouched_if_unknown_trans snippetId) as Ht.
  assert (Hmem : forall label e sid,
             keeps (untouched_if_unknown snippetId)
                   (bind (console_error label e)
                         (fun _ => bind (lift (in_memory_body "temp_" sid llmResponse))
                                        (fun b => ret (json_response P 200 b))))).
  { intros label e sid.
    apply keeps_bind; [exact Ht | now apply keeps_console_error | intros _].
    apply keeps_bind; [exact Ht | now apply keeps_lift | intros b; now apply keeps_ret]. }
  unfold db_block; apply keeps_try_catch; [exact Ht | | intros e; apply Hmem].
  do 3 (apply keeps_bind; [exact Ht | now apply keeps_lift | intros ?]).
  apply (untouched_bind snippetId (fun r => error r <> None)).
  - intros st Hu; now apply result_write_unknown.
  - intros r Hne; destruct (error r); [apply Hmem | contradiction].
Qed.

(** X17. A request that names a snippet the store does not know changes
    nothing in the store, whatever the platform does: the snippet is not
    created, and no quiz is deleted or stored. *)
Theorem unknown_snippet_changes_nothing
        (P : Platform) (req : Request) (snippetId : string) (st : State) :
  (forall parsed, body_json req = Returned parsed -> snippet_id parsed = Some snippetId) ->
  snippetId <> EmptyString ->
  unknown_snippet snippetId (store st) ->
  store (snd (serve P req st)) = store st.
Proof.
  intros Hbody Hne.
  change (untouched_if_unknown snippetId (store st) (store (snd (serve P req st)))).
  revert st.
  change (keeps (untouched_if_unknown snippetId) (serve P req)).
  assert (Htruthy : truthy_string (Some snippetId) = true).
  { unfold truthy_string; cbn [js_of_option truthy].
    destruct (String.eqb_spec snippetId EmptyString); [contradiction | reflexivity]. }
  assert (Hid : or_default (Some snippetId) EmptyString = snippetId).
  { unfold or_default; destruct (String.eqb_spec snippetId EmptyString);
      [contradiction | reflexivity]. }
  apply keeps_serve;
    [apply untouched_if_unknown_refl | apply untouched_if_unknown_trans | | | |].
  - intros parsed userId Hb _; unfold pending_write.
    rewrite (Hbody parsed Hb), Htruthy, Hid.
    apply keeps_run; [apply untouched_if_unknown_refl |].
    intros s Hu.
    now destruct (update_unknown (new_id P)
                    (update_pending snippetId userId (title parsed)
                       (or_default (language parsed) EmptyString)
                       (or_default (code parsed) EmptyString))
                    _ snippetId [("owner", JStr userId)] s eq_refl eq_refl eq_refl Hu).
  - intros parsed llmResponse Hb _; rewrite (Hbody parsed Hb), Hid.
    apply db_block_unknown.
  - intros parsed userId Hb Hf; rewrite (Hbody parsed Hb) in Hf; congruence.
  - intros parsed sid llmResponse Hb Hf; rewrite (Hbody parsed Hb) in Hf; congruence.
Qed.

Lemma unknown_snippet_changes_nothing_witness :
  store (snd (serve dev_platform (example_request "alice-token" (Some "s9"))
                    (start alice_store)))
  = store (start alice_store).
Proof.
  apply (unknown_snippet_changes_nothing dev_platform
           (example_request "alice-token" (Some "s9")) "s9").
  - intros parsed H; injection H as <-; reflexivity.
  - discriminate.
  - intros row [<- | []]; reflexivity.
Defined.

(** X18. The update to pending spares the snippets of other owners,
    whether it is carried out or not, and it touches no quiz. *)
Theorem pending_update_spares_other_owners
        (P : Platform) (snippetId userId : string) (ttl : option string)
        (lang src : string) (st : State) (row : Row) :
  In row (snippet_rows (store st)) ->
  assoc "owner" row <> JStr userId ->
  In row (snippet_rows
            (store (snd (run P (update_pending snippetId userId ttl lang src) st))))
  /\ quiz_rows (store (snd (run P (update_pending snippetId userId ttl lang src) st)))
     = quiz_rows (store st).
Proof.
  intros Hin Hown; unfold run.
  destruct (store_fault P _); [| auto | auto].
  pose proof (update_pending_respects_owner (new_id P) snippetId userId ttl lang src
                (store st) row Hin Hown) as H.
  destruct (execute (new_id P) _ (store st)) as [r s'] eqn:E; cbn [snd store] in *.
  split; [exact H |].
  unfold execute in E; cbn [q_op q_from q_eq update_pending rows_of finish q_single q_select
                             with_rows] in E.
  now injection E as _ <-.
Qed.

Lemma pending_update_spares_other_owners_witness :
  In alice_snippet
     (snippet_rows
        (store (snd (run dev_platform
                         (update_pending "s1" "mallory" (Some "Mine now") "c" "x = 1")
                         (start alice_store)))))
  /\ quiz_rows (store (snd (run dev_platform
                                (update_pending "s1" "mallory" (Some "Mine now") "c" "x = 1")
                                (start alice_store))))
     = quiz_rows (store (start alice_store)).
Proof.
  apply pending_update_spares_other_owners; [left; reflexivity | discriminate].
Defined.

(** *** Replacing the quizzes of a snippet *)

Lemma delete_quizzes_works (P : Platform) (snippetId : JSValue) (st : State) :
  store_fault P (delete_quizzes snippetId) = Works ->
  exists r,
    run P (delete_quizzes snippetId) st
    = (Returned r,
       {| store := {| snippet_rows := snippet_rows (store st);
                      quiz_rows := quizzes_of_others snippetId (store st);
                      next_id := next_id (store st) |};
          issued := (issued st ++ [(delete_quizzes snippetId, Returned r)])%list;
          console := console st |}).
Proof.
  intros Hd; unfold run; rewrite Hd; eexists; reflexivity.
Qed.

Lemma delete_quizzes_fails (P : Platform) (snippetId : JSValue) (e : JSError) (st : State) :
  store_fault P (delete_quizzes snippetId) = Fails e ->
  exists r,
    run P (delete_quizzes snippetId) st
    = (Returned r,
       {| store := store st;
          issued := (issued st ++ [(delete_quizzes snippetId, Returned r)])%list;
          console := console st |}).
Proof.
  intros Hd; unfold run; rewrite Hd; eexists; reflexivity.
Qed.

(** X19. When the deletion and the insertion both work, the quizzes of the
    snippet are replaced: the store holds the quizzes of the other
    snippets followed by the rows created from the bundle, the answer
    carries exactly these rows, with the identifiers the store gave them,
    and nothing is logged. *)
Theorem quizzes_are_replaced
        (P : Platform) (snippetId updatedSnippet llmResponse : JSValue)
        (rows : list Row) (st : State) :
  quizInserts snippetId llmResponse = Returned rows ->
  store_fault P (delete_quizzes snippetId) = Works ->
  store_fault P (insert_quizzes rows) = Works ->
  exists st',
    quiz_block P snippetId updatedSnippet llmResponse st
    = (Returned
         (json_response P 200
            (JObj [("snippet", updatedSnippet);
                   ("quizzes",
                    JArr (map JObj (create_rows (new_id P) (next_id (store st)) rows)))])),
       st')
    /\ quiz_rows (store st')
       = (quizzes_of_others snippetId (store st)
          ++ create_rows (new_id P) (next_id (store st)) rows)%list
    /\ snippet_rows (store st') = snippet_rows (store st)
    /\ console st' = console st.
Proof.
  intros Hrows Hd Hi.
  destruct (delete_quizzes_works P snippetId st Hd) as (r0 & Hrun).
  unfold quiz_block, try_catch, bind at 1; rewrite Hrun.
  unfold bind at 1, lift at 1; rewrite Hrows.
  unfold bind at 1, run at 1; rewrite Hi.
  unfold execute; cbn [q_op q_from insert_quizzes rows_of finish q_single q_select with_rows
                        store quiz_rows snippet_rows next_id error data].
  unfold ret; eexists; split; [reflexivity |].
  cbn [store quiz_rows snippet_rows console]; auto.
Qed.

Lemma quizzes_are_replaced_witness :
  exists st',
    quiz_block dev_platform (JStr "s1") JNull (js_of_response (mock_response "python"))
               (start alice_store)
    = (Returned
         (json_response dev_platform 200
            (JObj [("snippet", JNull);
                   ("quizzes",
                    JArr (map JObj
                            (create_rows (new_id dev_platform)
                               (next_id (store (start alice_store)))
                               (map (fun q => [("snippet_id", JStr "s1");
                                               ("question", JStr (question q));
                                               ("choices", js_of_strings (choices q));
                                               ("answer", JStr (answer q));
                                               ("hint", JStr (hint q));
                                               ("difficulty", JStr (difficulty q))])
                                    (quizzes (mock_response "python"))))))])),
       st')
    /\ quiz_rows (store st')
       = (quizzes_of_others (JStr "s1") (store (start alice_store))
          ++ create_rows (new_id dev_platform) (next_id (store (start alice_store)))
               (map (fun q => [("snippet_id", JStr "s1");
                               ("question", JStr (question q));
                               ("choices", js_of_strings (choices q));
                               ("answer", JStr (answer q));
                               ("hint", JStr (hint q));
                               ("difficulty", JStr (difficulty q))])
                    (quizzes (mock_response "python"))))%list
    /\ snippet_rows (store st') = snippet_rows (store (start alice_store))
    /\ console st' = console (start alice_store).
Proof.
  apply quizzes_are_replaced; reflexivity.
Defined.

(** X20. The replacement is not atomic. When the deletion works and the
    rows cannot be built from the bundle or their insertion does not work,
    the answer still has status 200, and the store is left without any
    quiz of the snippet: the old ones are deleted and no new one is
    stored. *)
Theorem failed_insert_leaves_no_quiz
        (P : Platform) (snippetId updatedSnippet llmResponse : JSValue) (st : State) :
  store_fault P (delete_quizzes snippetId) = Works ->
  (forall rows, quizInserts snippetId llmResponse = Returned rows ->
                store_fault P (insert_quizzes rows) <> Works) ->
  exists resp st',
    quiz_block P snippetId updatedSnippet llmResponse st = (Returned resp, st')
    /\ status resp = 200%Z
    /\ quiz_rows (store st') = quizzes_of_others snippetId (store st)
    /\ (forall row, In row (quiz_rows (store st')) ->
                    scalar_eqb (assoc "snippet_id" row) snippetId = false).
Proof.
  intros Hd Hi.
  assert (Hothers : forall row, In row (quizzes_of_others snippetId (store st)) ->
                                scalar_eqb (assoc "snippet_id" row) snippetId = false).
  { intros row Hin; unfold quizzes_of_others in Hin; apply filter_In in Hin.
    destruct Hin as [_ H]; unfold matches in H; cbn [forallb fst snd] in H.
    rewrite andb_true_r in H; now apply negb_true_iff in H. }
  destruct (delete_quizzes_works P snippetId st Hd) as (r0 & Hrun).
  assert (H : exists resp st',
             quiz_block P snippetId updatedSnippet llmResponse st = (Returned resp, st')
             /\ status resp = 200%Z
             /\ quiz_rows (store st') = quizzes_of_others snippetId (store st)).
  { unfold quiz_block, try_catch, bind at 1; rewrite Hrun.
    unfold bind at 1, lift at 1.
    destruct (quizInserts snippetId llmResponse) as [rows|e] eqn:Hrows.
    - specialize (Hi rows eq_refl).
      unfold bind at 1, run at 1.
      destruct (store_fault P (insert_quizzes rows)) as [|e|e]; [contradiction | |].
      + cbn [error]; unfold bind at 1, console_error at 1; cbv beta iota.
        unfold bind, lift, ret.
        destruct (quizzes_with_ids "temp_" snippetId llmResponse) as [quizzes|e'].
        * eexists _, _; split; [reflexivity |]; split; reflexivity.
        * unfold console_error; eexists _, _; split; [reflexivity |]; split; reflexivity.
      + unfold bind, console_error, ret.
        eexists _, _; split; [reflexivity |]; split; reflexivity.
    - unfold bind, console_error, ret.
      eexists _, _; split; [reflexivity |]; split; reflexivity. }
  destruct H as (resp & st' & Hblock & Hstatus & Hquiz).
  exists resp, st'; repeat split; try assumption.
  rewrite Hquiz; exact Hothers.
Qed.

Lemma failed_insert_leaves_no_quiz_witness :
  exists resp st',
    quiz_block (with_faults dev_platform quiz_insert_fails) (JStr "s1") JNull
               (js_of_response (mock_response "python")) (start alice_store)
    = (Returned resp, st')
    /\ status resp = 200%Z
    /\ quiz_rows (store st') = quizzes_of_others (JStr "s1") alice_store
    /\ (forall row, In row (quiz_rows (store st')) ->
                    scalar_eqb (assoc "snippet_id" row) (JStr "s1") = false).
Proof.
  apply (failed_insert_leaves_no_quiz (with_faults dev_platform quiz_insert_fails)
           (JStr "s1") JNull (js_of_response (mock_response "python")) (start alice_store));
    [reflexivity |].
  intros rows _; discriminate.
Defined.

(** X21. The outcome of the deletion is not read. When the deletion is
    answered with an error and the insertion works, the new quizzes are
    stored after the old ones, which are all still there, the answer
    carries the new rows, and nothing is logged. *)
Theorem deletion_error_is_not_read
        (P : Platform) (snippetId updatedSnippet llmResponse : JSValue)
        (rows : list Row) (e : JSError) (st : State) :
  quizInserts snippetId llmResponse = Returned rows ->
  store_fault P (delete_quizzes snippetId) = Fails e ->
  store_fault P (insert_quizzes rows) = Works ->
  exists st',
    quiz_block P snippetId updatedSnippet llmResponse st
    = (Returned
         (json_response P 200
            (JObj [("snippet", updatedSnippet);
                   ("quizzes",
                    JArr (map JObj (create_rows (new_id P) (next_id (store st)) rows)))])),
       st')
    /\ quiz_rows (store st')
       = (quiz_rows (store st) ++ create_rows (new_id P) (next_id (store st)) rows)%list
    /\ console st' = console st.
Proof.
  intros Hrows Hd Hi.
  destruct (delete_quizzes_fails P snippetId e st Hd) as (r0 & Hrun).
  unfold quiz_block, try_catch, bind at 1; rewrite Hrun.
  unfold bind at 1, lift at 1; rewrite Hrows.
  unfold bind at 1, run at 1; rewrite Hi.
  unfold execute; cbn [q_op q_from insert_quizzes rows_of finish q_single q_select with_rows
                        store quiz_rows snippet_rows next_id error data].
  unfold ret; eexists; split; [reflexivity |].
  cbn [store quiz_rows console]; auto.
Qed.

Lemma deletion_error_is_not_read_witness :
  exists rows st',
    quizInserts (JStr "s1") (js_of_response (mock_response "python")) = Returned rows
    /\ quiz_block (with_faults dev_platform quiz_delete_fails) (JStr "s1") JNull
                  (js_of_response (mock_response "python")) (start alice_store)
       = (Returned
            (json_response (with_faults dev_platform quiz_delete_fails) 200
               (JObj [("snippet", JNull);
                      ("quizzes",
                       JArr (map JObj (create_rows (new_id dev_platform) 0 rows)))])),
          st')
    /\ quiz_rows (store st')
       = (alice_quiz :: create_rows (new_id dev_platform) 0 rows)%list
    /\ console st' = [].
Proof.
  destruct (quizInserts (JStr "s1") (js_of_response (mock_response "python")))
    as [rows|e] eqn:Hrows; [| discriminate].
  destruct (deletion_error_is_not_read (with_faults dev_platform quiz_delete_fails)
              (JStr "s1") JNull (js_of_response (mock_response "python")) rows unavailable
              (start alice_store) Hrows eq_refl eq_refl) as (st' & H).
  exists rows, st'; split; [reflexivity | exact H].
Defined.

(** ** The order of the queries *)

Lemma silent_ret {A} (a : A) : silent (ret a).
Proof. intros st; reflexivity. Qed.

Lemma silent_lift {A} (x : Exc A) : silent (lift x).
Proof. intros st; reflexivity. Qed.

Lemma silent_console_error (label : string) (e : option JSError) :
  silent (console_error label e).
Proof. intros st; reflexivity. Qed.

Lemma silent_bind {A B} (m : M A) (k : A -> M B) :
  silent m -> (forall a, silent (k a)) -> silent (bind m k).
Proof.
  intros Hm Hk st; unfold bind; specialize (Hm st).
  destruct (m st) as [[a|e] st1]; cbn [snd] in *; [| exact Hm].
  now rewrite Hk.
Qed.

Lemma silent_callLLM (P : Platform) (code language readingLevel : string) :
  silent (callLLM P code language readingLevel).
Proof.
  intros st; destruct (callLLM_logs P code language readingLevel st) as (v & entries & -> & _).
  reflexivity.
Qed.

Ltac silent_step :=
  first [ apply silent_ret
        | apply silent_lift
        | apply silent_console_error
        | apply silent_callLLM
        | apply silent_bind; [| intros ?]
        | match goal with
          | |- silent (match ?x with _ => _ end) => destruct x
          end ].

Lemma in_plan_nil (plan : list (string * string)) : in_plan plan [].
Proof. split; [exists plan; reflexivity | constructor]. Qed.

Lemma follows_silent {A} (plan : list (string * string)) (m : M A) :
  silent m -> follows plan m.
Proof.
  intros H st; exists []; unfold journal; rewrite H, app_nil_r.
  split; [reflexivity | apply in_plan_nil].
Qed.

Lemma follows_bind_silent {A B} (plan : list (string * string)) (m : M A) (k : A -> M B) :
  silent m -> (forall a, follows plan (k a)) -> follows plan (bind m k).
Proof.
  intros Hm Hk st; unfold bind; specialize (Hm st).
  destruct (m st) as [[a|e] st1]; cbn [snd] in *.
  - destruct (Hk a st1) as (entries & Hj & Hp); exists entries.
    unfold journal in *; rewrite Hj, Hm; auto.
  - exists []; unfold journal; rewrite Hm, app_nil_r; split; [reflexivity | apply in_plan_nil].
Qed.

Lemma follows_try_catch {A} (plan : list (string * string)) (m : M A)
      (handler : JSError -> M A) :
  follows plan m -> (forall e, silent (handler e)) -> follows plan (try_catch m handler).
Proof.
  intros Hm Hh st; unfold try_catch; destruct (Hm st) as (entries & Hj & Hp).
  destruct (m st) as [[a|e] st1]; cbn [snd] in *; exists entries; [auto |].
  unfold journal in *; rewrite Hh; auto.
Qed.

(** A query and what follows it: the rest of the plan is entered only
    after an outcome that lets the handler proceed. *)
Lemma follows_run_bind {B} (P : Platform) (plan : list (string * string)) (q : Query)
      (k : QueryResult -> M B) :
  (forall r, error r = None \/ q_op q = Delete -> follows plan (k r)) ->
  (forall r, error r <> None -> q_op q <> Delete -> silent (k r)) ->
  follows ((table_name (q_from q), statement (q_op q)) :: plan) (bind (run P q) k).
Proof.
  intros Hgo Hstop st; unfold bind.
  destruct (run_records P q st) as [Hiss _].
  destruct (run P q st) as [[r|e] st1]; cbn [fst snd] in Hiss.
  - assert (Hcases : (error r = None \/ q_op q = Delete)
                     \/ (error r <> None /\ q_op q <> Delete)).
    { destruct (error r); [| now left; left].
      destruct (q_op q); try (right; split; discriminate); left; now right. }
    destruct Hcases as [Hok | [Herr Hnd]].
    + destruct (Hgo r Hok st1) as (entries & Hj & (rest & Hrest) & Hall).
      exists (journal_entry (q, Returned r) :: entries); split; [| split].
      * unfold journal in *; rewrite Hj, Hiss, map_app, <- app_assoc; reflexivity.
      * exists rest; cbn [map app fst journal_entry]; now rewrite Hrest.
      * destruct entries as [|entry entries]; [constructor |].
        change (removelast (journal_entry (q, Returned r) :: entry :: entries))
          with (journal_entry (q, Returned r) :: removelast (entry :: entries)).
        constructor; [| exact Hall].
        unfold lets_proceed, journal_entry, outcome; cbn [fst snd].
        destruct Hok as [-> | ->]; [now left |].
        destruct (error r); [right; split; reflexivity | now left].
    + exists [journal_entry (q, Returned r)]; split; [| split].
      * unfold journal; rewrite (Hstop r Herr Hnd st1), Hiss, map_app; reflexivity.
      * exists plan; reflexivity.
      * constructor.
  - exists [journal_entry (q, Threw e)]; split; [| split].
    + unfold journal; cbn [snd]; rewrite Hiss, map_app; reflexivity.
    + exists plan; reflexivity.
    + constructor.
Qed.

Lemma follows_quiz_block (P : Platform) (snippetId updatedSnippet llmResponse : JSValue) :
  follows [("quizzes", "delete"); ("quizzes", "insert")]
          (quiz_block P snippetId updatedSnippet llmResponse).
Proof.
  unfold quiz_block.
  apply follows_try_catch; [| intros e; repeat silent_step].
  apply (follows_run_bind P [("quizzes", "insert")] (delete_quizzes snippetId));
    [intros r _ | intros r _ H; now contradiction H].
  apply follows_bind_silent; [apply silent_lift | intros rows].
  apply (follows_run_bind P [] (insert_quizzes rows)).
  - intros r' _; apply follows_silent; repeat silent_step.
  - intros r' _ _; repeat silent_step.
Qed.

Lemma follows_db_block (P : Platform) (snippetId llmResponse : JSValue) :
  follows [("snippets", "update"); ("quizzes", "delete"); ("quizzes", "insert")]
          (db_block P snippetId llmResponse).
Proof.
  unfold db_block.
  apply follows_try_catch; [| intros e; repeat silent_step].
  do 3 (apply follows_bind_silent; [apply silent_lift | intros ?]).
  apply (follows_run_bind P [("quizzes", "delete"); ("quizzes", "insert")]
           (update_result snippetId a a0 a1)).
  - intros r _; destruct (error r);
      [apply follows_silent; repeat silent_step | apply follows_quiz_block].
  - intros r Herr _; destruct (error r); [repeat silent_step | contradiction].
Qed.

Lemma follows_generate_and_persist (P : Platform) (snippetId : JSValue)
      (src lang : string) (level : option string) :
  follows [("snippets", "update"); ("quizzes", "delete"); ("quizzes", "insert")]
          (generate_and_persist P snippetId src lang level).
Proof.
  unfold generate_and_persist.
  apply follows_bind_silent; [apply silent_callLLM | intros v; apply follows_db_block].
Qed.

Lemma follows_lift_returned {A B} (plan : list (string * string)) (a : A) (k : A -> M B) :
  follows plan (k a) -> follows plan (bind (lift (Returned a)) k).
Proof. intros H st; exact (H st). Qed.

Lemma follows_serve (P : Platform) (req : Request) :
  exists first,
    (first = "update" \/ first = "insert")
    /\ follows [("snippets", first); ("snippets", "update");
                ("quizzes", "delete"); ("quizzes", "insert")] (serve P req).
Proof.
  assert (Hcatch : forall e, silent (serve_catch P e))
    by (intros e; unfold serve_catch; repeat silent_step).
  exists (match body_json req with
          | Returned parsed => if truthy_string (snippet_id parsed) then "update" else "insert"
          | Threw _ => "update"
          end).
  split; [destruct (body_json req) as [parsed|e0];
          [destruct (truthy_string (snippet_id parsed)) |]; auto |].
  unfold serve.
  destruct (String.eqb (method req) "OPTIONS"); [apply follows_silent, silent_ret |].
  apply follows_try_catch; [| exact Hcatch].
  unfold serve_try.
  apply follows_bind_silent; [apply silent_lift | intros _].
  destruct (authorization req) as [authHeader|]; [| apply follows_silent, silent_ret].
  destruct (String.eqb authHeader EmptyString); [apply follows_silent, silent_ret |].
  apply follows_bind_silent; [apply silent_lift | intros [userId|]];
    [| apply follows_silent, silent_ret].
  destruct (body_json req) as [[sid ttl lang src level]|e0];
    [apply follows_lift_returned | apply follows_silent; intros st; reflexivity].
  cbn [snippet_id].
  destruct (negb (truthy_string src) || negb (truthy_string lang));
    [apply follows_silent, silent_ret |].
  destruct (truthy_string sid).
  - apply (follows_run_bind P [("snippets", "update"); ("quizzes", "delete");
                               ("quizzes", "insert")]
             (update_pending (or_default sid EmptyString) userId ttl
                (or_default lang EmptyString) (or_default src EmptyString))).
    + intros r _; destruct (error r);
        [apply follows_silent; repeat silent_step | apply follows_generate_and_persist].
    + intros r Herr _; destruct (error r); [repeat silent_step | contradiction].
  - apply (follows_run_bind P [("snippets", "update"); ("quizzes", "delete");
                               ("quizzes", "insert")]
             (insert_pending userId ttl (or_default lang EmptyString)
                (or_default src EmptyString))).
    + intros r _.
      destruct (match error r with Some _ => true | None => false end
                || negb (truthy (data r)));
        [apply follows_silent; repeat silent_step |].
      apply follows_bind_silent; [apply silent_lift | intros snippetId].
      apply follows_generate_and_persist.
    + intros r Herr _; destruct (error r); [| contradiction].
      cbn [orb]; repeat silent_step.
Qed.

(** X22. Whatever the request and whatever fails, the handler issues at
    most four queries, in this order: the write of the snippet to pending
    (an update or an insertion), the write of the results, the deletion of
    the quizzes, the insertion of the quizzes. It goes from one to the
    next only after a query that returned without an error, except that
    the insertion of the quizzes follows a deletion that returned with an
    error as well. *)
Theorem queries_follow_the_plan (P : Platform) (req : Request) (st : State) :
  exists first entries,
    (first = "update" \/ first = "insert")
    /\ journal (snd (serve P req st)) = (journal st ++ entries)%list
    /\ (exists rest,
           (map fst entries ++ rest)%list
           = [("snippets", first); ("snippets", "update");
              ("quizzes", "delete"); ("quizzes", "insert")])
    /\ Forall lets_proceed (removelast entries).
Proof.
  destruct (follows_serve P req) as (first & Hfirst & H).
  destruct (H st) as (entries & Hj & Hrest & Hall).
  exists first, entries; auto.
Qed.

(** ** More on the persistence block and on the creation of a snippet *)

(** X23. When the result write throws, the answer is built from the
    bundle in memory, as after a result write that reports an error: status
    200, the snippet under the identifier of the request (or [temp]), the
    quizzes under identifiers [temp_<index>]. The exception is logged, the
    store is as it was, and no query on the quizzes is issued. *)
Theorem thrown_result_write_is_answered_from_memory
        (P : Platform) (snippetId : JSValue) (bundle : list (string * JSValue))
        (rows : list Row) (e : JSError) (st : State) :
  quizInserts (if truthy snippetId then snippetId else JStr "temp") (JObj bundle)
  = Returned rows ->
  store_fault P (update_result snippetId (assoc "explanation" bundle)
                               (assoc "mermaid" bundle) (assoc "trace" bundle))
  = Rejects e ->
  exists st',
    db_block P snippetId (JObj bundle) st
    = (Returned
         (json_response P 200
            (JObj [("snippet",
                    JObj [("id", if truthy snippetId then snippetId else JStr "temp");
                          ("explanation", assoc "explanation" bundle);
                          ("mermaid_diagram", assoc "mermaid" bundle);
                          ("trace_table", assoc "trace" bundle);
                          ("status", JStr "ready")]);
                   ("quizzes", JArr (with_ids "temp_" rows 0))])),
       st')
    /\ store st' = store st
    /\ issued st'
       = (issued st ++
          [(update_result snippetId (assoc "explanation" bundle) (assoc "mermaid" bundle)
                          (assoc "trace" bundle), Threw e)])%list
    /\ console st'
       = (console st ++ [("Database error, returning fallback response:", Some e)])%list.
Proof.
  intros Hrows Hfault.
  unfold db_block, try_catch, bind at 1 2 3 4, lift at 1 2 3; cbn [get_prop].
  unfold run at 1; rewrite Hfault.
  unfold bind at 1, console_error at 1; cbv beta iota.
  unfold bind, lift, in_memory_body; rewrite quizzes_with_ids_spec, Hrows.
  cbn [get_prop ebind]; unfold ret.
  eexists; split; [reflexivity |]; cbn [store issued console]; auto.
Qed.

Lemma thrown_result_write_is_answered_from_memory_witness :
  exists rows st',
    db_block (with_faults dev_platform result_write_throws) (JStr "s1")
             (js_of_response (mock_response "python")) (start alice_store)
    = (Returned
         (json_response (with_faults dev_platform result_write_throws) 200
            (JObj [("snippet",
                    JObj [("id", JStr "s1");
                          ("explanation", JStr (explanation (mock_response "python")));
                          ("mermaid_diagram", JStr (mermaid (mock_response "python")));
                          ("trace_table", js_of_trace (trace (mock_response "python")));
                          ("status", JStr "ready")]);
                   ("quizzes", JArr (with_ids "temp_" rows 0))])),
       st')
    /\ List.length rows = 3%nat
    /\ store st' = alice_store
    /\ journal st' = [("snippets", "update", "thrown")].
Proof.
  destruct (quizInserts (JStr "s1") (js_of_response (mock_response "python")))
    as [rows|e] eqn:Hrows; [| discriminate].
  destruct (thrown_result_write_is_answered_from_memory
              (with_faults dev_platform result_write_throws) (JStr "s1")
              [("explanation", JStr (explanation (mock_response "python")));
               ("mermaid", JStr (mermaid (mock_response "python")));
               ("trace", js_of_trace (trace (mock_response "python")));
               ("quizzes", JArr (map js_of_quiz (quizzes (mock_response "python"))))]
              rows (TypeError "fetch failed") (start alice_store) Hrows eq_refl)
    as (st' & Hblock & Hstore & Hissued & _).
  exists rows, st'; split; [exact Hblock |].
  split; [injection Hrows as <-; reflexivity |].
  split; [exact Hstore |].
  unfold journal; rewrite Hissued; reflexivity.
Defined.

(** *** The snippets a request leaves *)

Lemma same_snippets_refl (s : Store) : same_snippets s s.
Proof. reflexivity. Qed.

Lemma same_snippets_trans (s1 s2 s3 : Store) :
  same_snippets s1 s2 -> same_snippets s2 s3 -> same_snippets s1 s3.
Proof. unfold same_snippets; congruence. Qed.

Lemma db_block_same_snippets (P : Platform) (snippetId llmResponse : JSValue) :
  keeps same_snippets (db_block P snippetId llmResponse).
Proof.
  apply keeps_db_block; [apply same_snippets_refl | apply same_snippets_trans | | |].
  - intros e m t; apply keeps_run; [apply same_snippets_refl |].
    intros s; unfold execute; cbn [q_op q_from update_result rows_of].
    match goal with
    | |- same_snippets s (snd (finish ?q ?touched ?after s)) =>
        destruct (finish_store q touched after s) as [-> | ->]
    end; [| apply same_snippets_refl].
    unfold same_snippets, snippet_keys; cbn [with_rows snippet_rows].
    rewrite map_map; apply map_ext; intros row.
    destruct (matches _ row); [| reflexivity].
    rewrite !assoc_apply_patch; [reflexivity | |];
      cbn [In]; intros c v H;
      repeat (destruct H as [H | H]; [injection H as <- _; discriminate |]);
      contradiction.
  - apply keeps_run; [apply same_snippets_refl |].
    intros s; unfold execute; cbn [q_op q_from delete_quizzes rows_of].
    match goal with
    | |- same_snippets s (snd (finish ?q ?touched ?after s)) =>
        destruct (finish_store q touched after s) as [-> | ->]
    end; reflexivity.
  - intros rows; apply keeps_run; [apply same_snippets_refl |].
    intros s; unfold execute; cbn [q_op q_from insert_quizzes rows_of].
    match goal with
    | |- same_snippets s (snd (finish ?q ?touched ?after s)) =>
        destruct (finish_store q touched after s) as [-> | ->]
    end; reflexivity.
Qed.

(** X24. A request without [snippet_id] that passes the checks, when the
    store carries out the insertion, leaves exactly one more snippet than
    it found: a snippet of the caller, under the identifier the store gave
    it. This holds whatever fails afterwards. *)
Theorem created_snippet_belongs_to_caller
        (P : Platform) (req : Request) (userId : string) (parsed : ExplainRequest)
        (st : State) :
  passes_checks P req userId parsed ->
  createClient P (env_get P "SUPABASE_URL") (env_get P "SUPABASE_SERVICE_ROLE_KEY")
  = Returned tt ->
  truthy_string (snippet_id parsed) = false ->
  store_fault P (pending_write userId parsed) = Works ->
  snippet_keys (store (snd (serve P req st)))
  = (snippet_keys (store st)
     ++ [(JStr (new_id P (next_id (store st))), JStr userId)])%list.
Proof.
  intros (Hm & (authHeader & Ha & Hne & Hu) & Hb & Hcode & Hlang) Hclient Hsid Hworks.
  unfold pending_write in Hworks; rewrite Hsid in Hworks.
  assert (Hrest : forall snippetId src lang level,
             keeps same_snippets
                   (try_catch (generate_and_persist P snippetId src lang level)
                              (serve_catch P))).
  { intros; apply keeps_try_catch; [apply same_snippets_trans | |].
    - unfold generate_and_persist.
      apply keeps_bind; [apply same_snippets_trans | | intros v].
      + apply keeps_callLLM; apply same_snippets_refl.
      + apply db_block_same_snippets.
    - intros e; unfold serve_catch.
      apply keeps_bind; [apply same_snippets_trans | | intros _].
      + apply keeps_console_error; apply same_snippets_refl.
      + apply keeps_ret; apply same_snippets_refl. }
  unfold serve.
  destruct (String.eqb_spec (method req) "OPTIONS") as [|_]; [contradiction |].
  destruct parsed as [sid ttl lang src level]; cbn [snippet_id title language code] in *.
  match goal with
  | |- snippet_keys (store (snd (?m st))) = _ =>
      assert (Hserve : exists st1,
                 m st
                 = try_catch (generate_and_persist P
                                (JStr (new_id P (next_id (store st))))
                                (or_default src EmptyString) (or_default lang EmptyString)
                                level)
                             (serve_catch P) st1
                 /\ snippet_keys (store st1)
                    = (snippet_keys (store st)
                       ++ [(JStr (new_id P (next_id (store st))), JStr userId)])%list)
  end.
  { unfold try_catch, serve_try, bind, lift.
    rewrite Hclient, Ha.
    destruct (String.eqb_spec authHeader EmptyString) as [|_]; [contradiction |].
    rewrite Hu, Hb, Hcode, Hlang, Hsid; cbn [negb orb].
    unfold run; rewrite Hworks.
    unfold execute; cbn [q_op q_from insert_pending rows_of create_rows finish q_single q_select
                          with_rows error data truthy orb negb get_prop assoc
                          String.eqb Ascii.eqb Bool.eqb].
    eexists; split; [reflexivity |].
    unfold snippet_keys; cbn [store snippet_rows]; rewrite map_app; reflexivity. }
  destruct Hserve as (st1 & -> & Hkeys).
  rewrite <- Hkeys; apply Hrest.
Qed.

Lemma created_snippet_belongs_to_caller_witness :
  snippet_keys (store (snd (serve dev_platform (example_request "alice-token" None)
                              (start alice_store))))
  = [(JStr "s1", JStr "alice");
     (JStr (new_id dev_platform 0), JStr "alice")].
Proof.
  apply (created_snippet_belongs_to_caller dev_platform
           (example_request "alice-token" None) "alice"
           {| snippet_id := None; title := None; language := Some "python";
              code := Some example_code; reading_level := Some "12" |}
           (start alice_store)).
  - split; [discriminate |].
    split; [exists "Bearer alice-token"; repeat split; discriminate || reflexivity |].
    repeat split.
  - reflexivity.
  - reflexivity.
  - reflexivity.
Defined.

(** ** More on the two generators *)

(** X25. In every quiz that the two built-in generators produce, the mock
    bundle and the fallback bundle, the answer is the first of the
    choices. *)
Theorem answer_is_first_choice (code language readingLevel : string) :
  Forall (fun quiz => hd_error (choices quiz) = Some (answer quiz))
         (quizzes (generateFallbackResponse code language readingLevel))
  /\ Forall (fun quiz => hd_error (choices quiz) = Some (answer quiz))
            (quizzes (mock_response language)).
Proof.
  split.
  - unfold generateFallbackResponse; cbn [quizzes].
    destruct (hasLoops code), (hasConditionals code);
      repeat (constructor; [reflexivity |]); constructor.
  - unfold mock_response; cbn [quizzes].
    repeat (constructor; [reflexivity |]); constructor.
Qed.

(** X26. The prompt depends on the reading level through four registers:
    ["12"], ["15"], ["cs1"] and every other level. Two levels get the same
    prompt exactly when they are of the same register, so the prompt tells
    ["cs1"] from ["pro"], which the fallback generator does not. *)
Theorem prompt_by_register (readingLevel1 readingLevel2 : string) :
  systemPrompt readingLevel1 = systemPrompt readingLevel2
  <-> prompt_register readingLevel1 = prompt_register readingLevel2.
Proof.
  unfold systemPrompt, prompt_register.
  destruct (String.eqb readingLevel1 "12"), (String.eqb readingLevel2 "12"),
    (String.eqb readingLevel1 "15"), (String.eqb readingLevel2 "15"),
    (String.eqb readingLevel1 "cs1"), (String.eqb readingLevel2 "cs1");
    split; intros H; try reflexivity; try discriminate H;
    exfalso; vm_compute in H; discriminate H.
Qed.
